(** * record-streams: multiplexing byte streams into one framed stream

    A shallow embedding of [src/index.js]: the buffer builders, the
    multiplexer ([multiplexStreams]) and the demultiplexer
    ([demultiplexStream]), with the event handlers of both written as
    functions on an explicit state.  Node buffers are lists of bytes, the
    clock ([Date.now()]) is an argument of every handler, and an exception
    is an explicit outcome. *)

From Stdlib Require Import ZArith Lia List Bool.
From Stdlib Require Import Strings.Byte.
From Stdlib Require Import Floats.SpecFloat.
From stdpp Require Import gmap list sorting.

Local Open Scope Z_scope.

(** ** Buffers *)

Abbreviation Buffer := (list byte).

(** The byte holding [n mod 256]. *)
Definition byteOfZ (n : Z) : byte :=
  match Byte.of_N (Z.to_N (n mod 256)) with
  | Some b => b
  | None => x00
  end.

Definition byteToZ (b : byte) : Z := Z.of_N (Byte.to_N b).

(** [Buffer.writeUInt8], [writeUInt16LE] and [writeUInt32LE] check their
    value: a value outside the range of the field is rejected with an
    exception, which is [None] here. *)
Definition writeUInt8 (v : Z) : option Buffer :=
  if (0 <=? v) && (v <=? 255) then Some [byteOfZ v] else None.

Definition writeUInt16LE (v : Z) : option Buffer :=
  if (0 <=? v) && (v <=? 65535)
  then Some [byteOfZ v; byteOfZ (v / 256)] else None.

Definition writeUInt32LE (v : Z) : option Buffer :=
  if (0 <=? v) && (v <=? 4294967295)
  then Some [byteOfZ v; byteOfZ (v / 256); byteOfZ (v / 65536);
             byteOfZ (v / 16777216)]
  else None.

(** [Buffer.writeFloatLE] of an integer: the integer is rounded to the
    nearest binary32 number (ties to even) and its 32 bits are stored low
    byte first. *)
Definition float32Bits (v : Z) : Z :=
  match binary_normalize 24 128 v 0 false with
  | S754_zero s => if s then 2147483648 else 0
  | S754_infinity s => (if s then 2147483648 else 0) + 2139095040
  | S754_nan => 2143289344
  | S754_finite s m e =>
      (if s then 2147483648 else 0) +
      (if Z.pos m <? 8388608 then Z.pos m
       else (e + 150) * 8388608 + (Z.pos m - 8388608))
  end.

Definition writeFloatLE (v : Z) : Buffer :=
  let bits := float32Bits v in
  [byteOfZ bits; byteOfZ (bits / 256); byteOfZ (bits / 65536);
   byteOfZ (bits / 16777216)].

Definition mkBuf8 (data : Z) : option Buffer := writeUInt8 data.
Definition mkBuf16le (data : Z) : option Buffer := writeUInt16LE data.
Definition mkBuf32le (data : Z) : option Buffer := writeUInt32LE data.
Definition mkBufFloatLe (data : Z) : Buffer := writeFloatLE data.

(** ** Stream metadata *)

Definition digitByte (d : Z) : byte := byteOfZ (48 + d).

Fixpoint decimalDigits (fuel : nat) (n : Z) (acc : Buffer) : Buffer :=
  match fuel with
  | O => acc
  | S fuel' =>
      if n <? 10 then digitByte n :: acc
      else decimalDigits fuel' (n / 10) (digitByte (n mod 10) :: acc)
  end.

(** The ASCII bytes of the decimal numeral of a natural number. *)
Definition decimal (n : Z) : Buffer := decimalDigits (Z.to_nat n) n [].

(** [JSON.stringify({ id: id })], as ASCII bytes: [{"id":<id>}]. *)
Definition stringifyMeta (id : Z) : Buffer :=
  [x7b; x22; x69; x64; x22; x3a] ++ decimal id ++ [x7d].

(** [mkStreamMetaBuf]: the id, the length of the JSON text on four bytes,
    the JSON text. *)
Definition mkStreamMetaBuf (id : Z) : option Buffer :=
  let payload := stringifyMeta id in
  b0 ← writeUInt8 id;
  b1 ← writeUInt32LE (Z.of_nat (length payload));
  Some (b0 ++ b1 ++ payload).

(** ** Frames *)

(** The four leading bytes of a data frame. *)
Definition mkStart (streamId offset len : Z) : option Buffer :=
  b0 ← writeUInt8 streamId;
  b1 ← writeUInt16LE offset;
  b3 ← writeUInt8 len;
  Some (b0 ++ b1 ++ b3).

(** The [while] loop of [mkStreamChunkBuf]: as long as [chunk] is longer
    than 255 bytes its last 255 bytes are cut off, built into a frame by
    [rec] (the recursive call, with offset 0) and put in front of
    [continuationBuf].  [n] bounds the number of turns. *)
Fixpoint mkStreamChunkBuf_while (rec : Buffer -> option Buffer) (n : nat)
    (chunk continuationBuf : Buffer) : option (Buffer * Buffer) :=
  if (255 <? length chunk)%nat then
    match n with
    | O => None
    | S n' =>
        let continuationChunk := drop (length chunk - 255) chunk in
        let chunk' := take (length chunk - 255) chunk in
        b ← rec continuationChunk;
        mkStreamChunkBuf_while rec n' chunk' (b ++ continuationBuf)
    end
  else Some (chunk, continuationBuf).

(** [mkStreamChunkBuf]; [fuel] bounds the depth of the recursion. *)
Fixpoint mkStreamChunkBuf_fuel (fuel : nat) (chunk : Buffer)
    (streamId offset : Z) : option Buffer :=
  match fuel with
  | O => None
  | S fuel' =>
      '(chunk', continuationBuf) ←
        mkStreamChunkBuf_while
          (fun c => mkStreamChunkBuf_fuel fuel' c streamId 0)
          (length chunk) chunk [];
      start ← mkStart streamId offset (Z.of_nat (length chunk'));
      Some (start ++ chunk' ++ continuationBuf)
  end.

Definition mkStreamChunkBuf (chunk : Buffer) (streamId offset : Z)
    : option Buffer :=
  mkStreamChunkBuf_fuel 2 chunk streamId offset.

(** [mkStreamCrcBuf]: stream id 0, the offset, the checksum. *)
Definition mkStreamCrcBuf (offset crc : Z) : option Buffer :=
  b0 ← writeUInt8 0;
  b1 ← writeUInt16LE offset;
  b3 ← writeUInt16LE crc;
  Some (b0 ++ b1 ++ b3).

(** The bytes of one data frame whose fields are in range. *)
Definition dataFrameBytes (streamId offset : Z) (payload : Buffer) : Buffer :=
  [byteOfZ streamId; byteOfZ offset; byteOfZ (offset / 256);
   byteOfZ (Z.of_nat (length payload))] ++ payload.

(** The bytes of one control frame whose fields are in range. *)
Definition crcFrameBytes (offset crc : Z) : Buffer :=
  [x00; byteOfZ offset; byteOfZ (offset / 256);
   byteOfZ crc; byteOfZ (crc / 256)].


(** ** Streams and errors *)

(** The errors by name: the three of [./errors], and the [TypeError] that
    a call on [undefined], or of a method that an object has not,
    throws. *)
Inductive Error :=
  | HeaderParseError
  | CRCValidationError
  | JSONParseError
  | TypeError.

Global Instance Error_eq_dec : EqDecision Error.
Proof. solve_decision. Defined.

(** The calls that the code makes on a [PassThrough] stream: [write(buf)],
    [end()] and [emit('error', e)].  A stream is known here by the calls
    made on it, in order. *)
Inductive StreamOp :=
  | Write (buf : Buffer)
  | End
  | EmitError (e : Error).

(** The buffers written, in order. *)
Fixpoint writes (ops : list StreamOp) : list Buffer :=
  match ops with
  | [] => []
  | Write buf :: ops' => buf :: writes ops'
  | _ :: ops' => writes ops'
  end.

(** The bytes that a stream carries: what was written before its end. *)
Fixpoint carried (ops : list StreamOp) : Buffer :=
  match ops with
  | [] => []
  | Write buf :: ops' => buf ++ carried ops'
  | End :: _ => []
  | EmitError _ :: ops' => carried ops'
  end.

(** ** The multiplexer *)

Module Mux.

(** The arguments [maxDataGap] and [crcBufferSize] of [multiplexStreams]. *)
Record Config := mkConfig {
  maxDataGap : Z;
  crcBufferSize : Z
}.

(** [1000*60] and [1500], the default arguments. *)
Definition defaults : Config :=
  {| maxDataGap := 1000 * 60; crcBufferSize := 1500 |}.

(** The variables that the closures of [multiplexStreams] share, and the
    listeners that are still installed: [listening !! id] says whether the
    source [id] still has its ['data'] and ['finish'] listeners, [interval]
    whether the one-second interval is set. *)
Record State := mkState {
  lastMsgTime : Z;
  crc : Z;
  crcProcessedBytes : Z;
  streamsAlive : Z;
  canWrite : bool;
  listening : list bool;
  interval : bool
}.

(** What the source streams, the timer and the consumer of the output do to
    the multiplexer: a source emits ['data'] or ['finish'], the interval
    fires, the output stream emits ['end'] or ['finish']. *)
Inductive Event :=
  | Data (id : nat) (data : Buffer)
  | Finish (id : nat)
  | Tick
  | Stop.

Section WithChecksum.

(** [crc16(buf, crc)] of [./crc16]: the checksum of [buf] continued from
    the running checksum [crc]. *)
Variable crc16 : Buffer -> Z -> Z.
Variable cfg : Config.

(** A handler returns the new state and the calls it made on
    [multiplexedStream], in order, or [None] when a buffer write threw. *)
Definition Handler := State -> option (State * list StreamOp).

(** The condition of [maybeSendCrc]:
    [diff > maxDataGap || crcProcessedBytes > crcBufferSize ||
     streamsAlive === 0]. *)
Definition due (now : Z) (st : State) : bool :=
  (maxDataGap cfg <? now - lastMsgTime st)
  || (crcBufferSize cfg <? crcProcessedBytes st)
  || (streamsAlive st =? 0).

(** [maybeSendCrc], with [now] the value of [Date.now()]. *)
Definition maybeSendCrc (now : Z) : Handler := fun st =>
  if negb (canWrite st) then Some (st, [])
  else
    let diff := now - lastMsgTime st in
    if due now st
    then
      buf ← mkStreamCrcBuf diff (crc st);
      Some ({| lastMsgTime := now;
               crc := crc16 buf (crc st);
               crcProcessedBytes := 0;
               streamsAlive := streamsAlive st;
               canWrite := canWrite st;
               listening := listening st;
               interval := interval st |}, [Write buf])
    else Some (st, []).

(** The listener [makeListener(id)] applied to [data]. *)
Definition listener (id : nat) (data : Buffer) (now : Z) : Handler := fun st =>
  if negb (canWrite st) then Some (st, [])
  else
    let diff := now - lastMsgTime st in
    buf ← mkStreamChunkBuf data (Z.of_nat id + 1) diff;
    '(st', out) ← maybeSendCrc now
      {| lastMsgTime := now;
         crc := crc16 buf (crc st);
         crcProcessedBytes := crcProcessedBytes st + Z.of_nat (length buf);
         streamsAlive := streamsAlive st;
         canWrite := canWrite st;
         listening := listening st;
         interval := interval st |};
    Some (st', Write buf :: out).

(** [finishStream(s, id)]. *)
Definition finishStream (id : nat) (now : Z) : Handler := fun st =>
  '(st', out) ← maybeSendCrc now
    {| lastMsgTime := lastMsgTime st;
       crc := crc st;
       crcProcessedBytes := crcProcessedBytes st;
       streamsAlive := streamsAlive st - 1;
       canWrite := canWrite st;
       listening := listening st;
       interval := interval st |};
  Some ({| lastMsgTime := lastMsgTime st';
           crc := crc st';
           crcProcessedBytes := crcProcessedBytes st';
           streamsAlive := streamsAlive st';
           canWrite := canWrite st';
           listening := <[id := false]> (listening st');
           interval := interval st' |}, out).

(** [streams.forEach((s, id) => finishStream(s, id))] over the ids [ids]. *)
Fixpoint finishAll (ids : list nat) (now : Z) : Handler := fun st =>
  match ids with
  | [] => Some (st, [])
  | id :: ids' =>
      '(st1, out1) ← finishStream id now st;
      '(st2, out2) ← finishAll ids' now st1;
      Some (st2, out1 ++ out2)
  end.

(** [stop]. *)
Definition stop (now : Z) : Handler := fun st =>
  finishAll (seq 0 (length (listening st))) now
    {| lastMsgTime := lastMsgTime st;
       crc := crc st;
       crcProcessedBytes := crcProcessedBytes st;
       streamsAlive := streamsAlive st;
       canWrite := false;
       listening := listening st;
       interval := false |}.

(** One event, at time [now]: the listener it reaches, if that listener is
    still installed. *)
Definition step (now : Z) (ev : Event) : Handler := fun st =>
  match ev with
  | Data id data =>
      if bool_decide (listening st !! id = Some true)
      then listener id data now st else Some (st, [])
  | Finish id =>
      if bool_decide (listening st !! id = Some true)
      then finishStream id now st else Some (st, [])
  | Tick => if interval st then maybeSendCrc now st else Some (st, [])
  | Stop => stop now st
  end.

(** The metadata of the [n] sources, ids [1] to [n]. *)
Definition streamsMeta (n : nat) : list Z :=
  map (fun id => Z.of_nat id + 1) (seq 0 n).

(** All of [l] built by [f], or [None] when one of them threw. *)
Fixpoint mapThrow {A B} (f : A -> option B) (l : list A) : option (list B) :=
  match l with
  | [] => Some []
  | x :: l' => y ← f x; ys ← mapThrow f l'; Some (y :: ys)
  end.

(** [headerBuf]: the number of streams, the time stamp, the metadata. *)
Definition headerBuf (n : nat) (now : Z) : option Buffer :=
  b0 ← mkBuf8 (Z.of_nat n);
  metas ← mapThrow mkStreamMetaBuf (streamsMeta n);
  Some (b0 ++ mkBufFloatLe now ++ concat metas).

(** [multiplexStreams] up to its [return], for [n] sources and with [now]
    the value of [Date.now()]: the four writes of the head and the first
    state.  More than 254 sources throw. *)
Definition multiplexStreams (n : nat) (now : Z)
    : option (State * list StreamOp) :=
  if (254 <? n)%nat then None
  else
    body ← headerBuf n now;
    let headerLen := Z.of_nat (length body) + (1 + 4 + 2) in
    version ← mkBuf8 1;
    len ← mkBuf32le headerLen;
    check ← mkBuf16le (crc16 body 0);
    Some ({| lastMsgTime := now;
             crc := 0;
             crcProcessedBytes := 0;
             streamsAlive := Z.of_nat n;
             canWrite := true;
             listening := repeat true n;
             interval := true |},
          [Write version; Write len; Write body; Write check]).

(** The events [evs], each with the time at which it is handled, from the
    state [st]. *)
Fixpoint run (evs : list (Z * Event)) : Handler := fun st =>
  match evs with
  | [] => Some (st, [])
  | (now, ev) :: evs' =>
      '(st1, out1) ← step now ev st;
      '(st2, out2) ← run evs' st1;
      Some (st2, out1 ++ out2)
  end.

(** A whole session: the head, then the events. *)
Definition session (n : nat) (start : Z) (evs : list (Z * Event))
    : option (State * list StreamOp) :=
  '(st0, head) ← multiplexStreams n start;
  '(st, out) ← run evs st0;
  Some (st, head ++ out).

End WithChecksum.

End Mux.

(** ** Buffer reads and slices *)

(** [buf.slice(start, end)]: an index below zero counts from the end of the
    buffer, and both indices are clamped to the buffer. *)
Definition clampIndex (len i : Z) : Z :=
  if i <? 0 then Z.max (len + i) 0 else Z.min i len.

Definition slice (buf : Buffer) (start stop : Z) : Buffer :=
  let len := Z.of_nat (length buf) in
  let s := clampIndex len start in
  let e := clampIndex len stop in
  take (Z.to_nat (e - s)) (drop (Z.to_nat s) buf).

(** [buf.slice(start)]. *)
Definition sliceFrom (buf : Buffer) (start : Z) : Buffer :=
  slice buf start (Z.of_nat (length buf)).

(** Reads at the byte index [off]; [None] when the field does not lie
    within the buffer. *)
Definition readUInt8 (buf : Buffer) (off : nat) : option Z :=
  byteToZ <$> buf !! off.

Definition readUInt16LE (buf : Buffer) (off : nat) : option Z :=
  b0 ← buf !! off;
  b1 ← buf !! (off + 1)%nat;
  Some (byteToZ b0 + 256 * byteToZ b1).

Definition readUInt32LE (buf : Buffer) (off : nat) : option Z :=
  b0 ← buf !! off;
  b1 ← buf !! (off + 1)%nat;
  b2 ← buf !! (off + 2)%nat;
  b3 ← buf !! (off + 3)%nat;
  Some (byteToZ b0 + 256 * byteToZ b1 + 65536 * byteToZ b2
        + 16777216 * byteToZ b3).

Definition readBytes (buf : Buffer) (off len : nat) : option Buffer :=
  if (off + len <=? length buf)%nat then Some (take len (drop off buf))
  else None.

(** ** The parsers of [./parser] *)

Module Parser.

Record StreamMeta := mkStreamMeta {
  metaStreamId : Z;
  metaLength : Z;
  metaString : Buffer
}.

Record Head := mkHead {
  protocolVersion : Z;
  headerLen : Z;
  numStreams : Z;
  timestamp : Buffer;
  meta : list StreamMeta;
  crc : Z
}.

(** A parsed chunk: [c.data] holds [crc] when [c.streamId] is 0, and
    [length] and [data] otherwise. *)
Inductive Chunk :=
  | Crc (offset crc : Z)
  | Stream (streamId offset length : Z) (data : Buffer).

Definition streamId (c : Chunk) : Z :=
  match c with
  | Crc _ _ => 0
  | Stream id _ _ _ => id
  end.

Definition offset (c : Chunk) : Z :=
  match c with
  | Crc off _ => off
  | Stream _ off _ _ => off
  end.

(** [c.data.crc]; [None] is [undefined]. *)
Definition dataCrc (c : Chunk) : option Z :=
  match c with
  | Crc _ crc => Some crc
  | Stream _ _ _ _ => None
  end.

(** [c.data.length] of a chunk that has one. *)
Definition dataLength (c : Chunk) : Z :=
  match c with
  | Crc _ _ => 0
  | Stream _ _ len _ => len
  end.

(** [c.data.data] of a chunk that has one. *)
Definition dataData (c : Chunk) : Buffer :=
  match c with
  | Crc _ _ => []
  | Stream _ _ _ d => d
  end.

(** Modelled from the spec: the metadata record of [./parser], which is not
    among the sources.  Section 6 lays it out as [streamId] (1 byte),
    [metaLen] (4 bytes, little-endian) and [metaJson] ([metaLen] bytes).
    The result is the record and the index after it. *)
Definition parseMeta (buf : Buffer) (off : nat) : option (StreamMeta * nat) :=
  id ← readUInt8 buf off;
  len ← readUInt32LE buf (off + 1);
  s ← readBytes buf (off + 5) (Z.to_nat len);
  Some ({| metaStreamId := id; metaLength := len; metaString := s |},
        (off + 5 + Z.to_nat len)%nat).

Fixpoint parseMetas (buf : Buffer) (off n : nat)
    : option (list StreamMeta * nat) :=
  match n with
  | O => Some ([], off)
  | S n' =>
      '(m, off1) ← parseMeta buf off;
      '(ms, off2) ← parseMetas buf off1 n';
      Some (m :: ms, off2)
  end.

(** Modelled from the spec: [headParser.parse] of [./parser], which is not
    among the sources.  Section 6 lays the head out as the version (1
    byte), the header length (4 bytes), [streamCount] (1 byte), the time
    stamp (4 bytes), the metadata records and the checksum (2 bytes), all
    little-endian; section 4.1 says that decoding fails when the declared
    length exceeds the available bytes or a field is malformed.  [None] is
    that failure. *)
Definition headParser (buf : Buffer) : option Head :=
  v ← readUInt8 buf 0;
  len ← readUInt32LE buf 1;
  if Z.of_nat (length buf) <? len then None
  else
    n ← readUInt8 buf 5;
    ts ← readBytes buf 6 4;
    '(ms, off) ← parseMetas buf 10 (Z.to_nat n);
    c ← readUInt16LE buf off;
    Some {| protocolVersion := v; headerLen := len; numStreams := n;
            timestamp := ts; meta := ms; crc := c |}.

(** Modelled from the spec: [streamChunkParser.parse] of [./parser], which
    is not among the sources.  Section 6 lays a frame out as [streamId] (1
    byte) and [offsetMillis] (2 bytes), then the checksum (2 bytes) when
    the stream id is 0, and [length] (1 byte) and so many payload bytes
    otherwise; section 4.1 says that decoding asks for more data when the
    buffer does not hold a full frame.  [None] is that failure. *)
Definition streamChunkParser (buf : Buffer) : option Chunk :=
  id ← readUInt8 buf 0;
  off ← readUInt16LE buf 1;
  if id =? 0 then
    c ← readUInt16LE buf 3;
    Some (Crc off c)
  else
    len ← readUInt8 buf 3;
    d ← readBytes buf 4 (Z.to_nat len);
    Some (Stream id off len d).

End Parser.

(** ** The demultiplexer *)

(** The values that [JSON.parse] returns for the metadata. *)
Inductive Json :=
  | JNumber (n : Z)
  | JString (s : Buffer)
  | JEmpty
  | JMember (key : Buffer) (value : Json) (others : Json).

Module Demux.

(** One call of [callback]: [callback(e)], or
    [callback(null, streams, metadata)] with the streams named by their
    place among the streams created. *)
Inductive Callback :=
  | Failed (e : Error)
  | Ready (streams : list nat) (metadata : list Json).

(** The variables that the closures of [demultiplexStream] share, and what
    they act on: [sinks] holds every [PassThrough] created, each as the
    calls made on it; [streamDict] maps a stream id to the place of its
    stream in [sinks]; [input] holds the calls made on [stream];
    [chunkProcessor] is the delay of the pending timeout, if one is
    pending; [immediates] counts the pending
    [setImmediate(parseBufferWrapped)]; [callbacks] holds the calls of
    [callback]. *)
Record State := mkState {
  buffered : Buffer;
  parsedHead : bool;
  head : option Parser.Head;
  streamDict : gmap Z nat;
  unprocessedChunks : list Parser.Chunk;
  chunksCrc : Z;
  chunkProcessor : option Z;
  lastChunkSent : option Z;
  sinks : list (list StreamOp);
  input : list StreamOp;
  immediates : nat;
  callbacks : list Callback
}.

Definition initial : State :=
  {| buffered := []; parsedHead := false; head := None; streamDict := ∅;
     unprocessedChunks := []; chunksCrc := 0; chunkProcessor := None;
     lastChunkSent := None; sinks := []; input := []; immediates := 0;
     callbacks := [] |}.

Definition setBuffered (b : Buffer) (st : State) : State :=
  mkState b (parsedHead st) (head st) (streamDict st) (unprocessedChunks st)
    (chunksCrc st) (chunkProcessor st) (lastChunkSent st) (sinks st)
    (input st) (immediates st) (callbacks st).

Definition setHead (h : Parser.Head) (st : State) : State :=
  mkState (buffered st) (parsedHead st) (Some h) (streamDict st)
    (unprocessedChunks st) (chunksCrc st) (chunkProcessor st)
    (lastChunkSent st) (sinks st) (input st) (immediates st) (callbacks st).

Definition setStreams (d : gmap Z nat) (st : State) : State :=
  mkState (buffered st) true (head st) d (unprocessedChunks st)
    (chunksCrc st) (chunkProcessor st) (lastChunkSent st) (sinks st)
    (input st) (immediates st) (callbacks st).

Definition setUnprocessedChunks (q : list Parser.Chunk) (st : State) : State :=
  mkState (buffered st) (parsedHead st) (head st) (streamDict st) q
    (chunksCrc st) (chunkProcessor st) (lastChunkSent st) (sinks st)
    (input st) (immediates st) (callbacks st).

Definition setChunksCrc (c : Z) (st : State) : State :=
  mkState (buffered st) (parsedHead st) (head st) (streamDict st)
    (unprocessedChunks st) c (chunkProcessor st) (lastChunkSent st)
    (sinks st) (input st) (immediates st) (callbacks st).

Definition setChunkProcessor (t : option Z) (st : State) : State :=
  mkState (buffered st) (parsedHead st) (head st) (streamDict st)
    (unprocessedChunks st) (chunksCrc st) t (lastChunkSent st) (sinks st)
    (input st) (immediates st) (callbacks st).

Definition setLastChunkSent (t : Z) (st : State) : State :=
  mkState (buffered st) (parsedHead st) (head st) (streamDict st)
    (unprocessedChunks st) (chunksCrc st) (chunkProcessor st) (Some t)
    (sinks st) (input st) (immediates st) (callbacks st).

Definition setSinks (s : list (list StreamOp)) (st : State) : State :=
  mkState (buffered st) (parsedHead st) (head st) (streamDict st)
    (unprocessedChunks st) (chunksCrc st) (chunkProcessor st)
    (lastChunkSent st) s (input st) (immediates st) (callbacks st).

Definition setInput (i : list StreamOp) (st : State) : State :=
  mkState (buffered st) (parsedHead st) (head st) (streamDict st)
    (unprocessedChunks st) (chunksCrc st) (chunkProcessor st)
    (lastChunkSent st) (sinks st) i (immediates st) (callbacks st).

Definition setImmediates (n : nat) (st : State) : State :=
  mkState (buffered st) (parsedHead st) (head st) (streamDict st)
    (unprocessedChunks st) (chunksCrc st) (chunkProcessor st)
    (lastChunkSent st) (sinks st) (input st) n (callbacks st).

Definition setCallbacks (c : list Callback) (st : State) : State :=
  mkState (buffered st) (parsedHead st) (head st) (streamDict st)
    (unprocessedChunks st) (chunksCrc st) (chunkProcessor st)
    (lastChunkSent st) (sinks st) (input st) (immediates st) c.

(** How a function ends: it returns, or it throws; either way with the
    state it has reached. *)
Inductive Outcome :=
  | Returned (st : State)
  | Thrown (e : Error) (st : State).

Definition andThen (o : Outcome) (k : State -> Outcome) : Outcome :=
  match o with
  | Returned st => k st
  | Thrown e st => Thrown e st
  end.

Definition stateOf (o : Outcome) : State :=
  match o with
  | Returned st => st
  | Thrown _ st => st
  end.

(** The call [op] on the stream at place [i]. *)
Definition call (i : nat) (op : StreamOp) (st : State) : State :=
  setSinks (alter (fun ops => ops ++ [op]) i (sinks st)) st.

(** [Object.keys(streamDict)]: the keys of an object that are numbers
    come in ascending order. *)
Definition keys (d : gmap Z nat) : list Z := merge_sort Z.le (map_to_list d).*1.

(** [keys.map(k => streamDict[k].<op>)]. *)
Definition callAll (op : StreamOp) (st : State) : State :=
  foldl (fun st k =>
           match streamDict st !! k with
           | Some i => call i op st
           | None => st
           end) st (keys (streamDict st)).

(** [endStreams()]. *)
Definition endStreams (st : State) : State := callAll End st.

(** [zipObject(keys, values)]: the pairs are assigned in order, so that the
    last one wins for a key met twice. *)
Definition zipObject (ks : list Z) (vs : list nat) : gmap Z nat :=
  foldl (fun d kv => <[kv.1 := kv.2]> d) ∅ (zip ks vs).

(** [chunkBufSize(c)]. *)
Definition chunkBufSize (c : Parser.Chunk) : Z :=
  3 + (if Parser.streamId c =? 0 then 2 else Parser.dataLength c + 1).

Section WithEnvironment.

(** [crc16(buf, crc)] of [./crc16]. *)
Variable crc16 : Buffer -> Z -> Z.

(** [JSON.parse]; [None] when it throws. *)
Variable parseJSON : Buffer -> option Json.

(** The argument [useRealOffsets] of [demultiplexStream]. *)
Variable useRealOffsets : bool.

(** Whether [stream] has a method [end]: a [PassThrough] has, the
    [fs.ReadStream] that [demultiplexFile] passes has not. *)
Variable endable : bool.

(** Whether the stream at a place has a listener for ['error'] when an
    error is emitted on it. *)
Variable heard : nat -> bool.

(** [emit('error', e)] on the streams of the keys [ks], in order: on a
    stream with no listener for ['error'], [emit] throws [e]. *)
Fixpoint emitAll (e : Error) (ks : list Z) (st : State) : Outcome :=
  match ks with
  | [] => Returned st
  | k :: ks' =>
      match streamDict st !! k with
      | Some i =>
          let st := call i (EmitError e) st in
          if heard i then emitAll e ks' st else Thrown e st
      | None => emitAll e ks' st
      end
  end.

(** [broadcastError(e)]. *)
Definition broadcastError (e : Error) (st : State) : Outcome :=
  emitAll e (keys (streamDict st)) st.

(** [stream.end()]: a [TypeError] when [stream] has no such method. *)
Definition endInput (st : State) : Outcome :=
  if endable then Returned (setInput (input st ++ [End]) st)
  else Thrown TypeError st.

(** The second half of [processChunks]: the first chunk of the queue is
    taken off and written to its stream, and a timeout is set for the
    next one. *)
Definition sendChunk (now : Z) (chunk : Parser.Chunk)
    (rest : list Parser.Chunk) (st : State) : Outcome :=
  let st := setLastChunkSent now (setUnprocessedChunks rest st) in
  let written :=
    if Parser.streamId chunk =? 0 then Returned st
    else
      match streamDict st !! Parser.streamId chunk with
      | Some i => Returned (call i (Write (Parser.dataData chunk)) st)
      | None => Thrown TypeError st
      end in
  andThen written (fun st =>
    match unprocessedChunks st with
    | [] => Returned st
    | next :: _ =>
        Returned
          (setChunkProcessor
             (Some (if useRealOffsets then Parser.offset next else 0)) st)
    end).

(** [processChunks], with [now] the value of [Date.now()]. *)
Definition processChunks (now : Z) (st : State) : Outcome :=
  let st := setChunkProcessor None st in
  match unprocessedChunks st with
  | [] => Returned st
  | chunk :: rest =>
      let chunkOffset := Parser.offset chunk in
      match lastChunkSent st with
      | Some sent =>
          if useRealOffsets && (now - sent <? chunkOffset)
          then
            Returned
              (setChunkProcessor (Some (chunkOffset - (now - sent))) st)
          else sendChunk now chunk rest st
      | None => sendChunk now chunk rest st
      end
  end.

(** The [while (true)] loop of [parseBuffer]: one chunk a turn, until the
    parser throws.  [fuel] bounds the number of turns. *)
Fixpoint parseChunks (fuel : nat) (st : State) : Outcome :=
  match fuel with
  | O => Returned st
  | S fuel' =>
      match Parser.streamChunkParser (buffered st) with
      | None => Returned st
      | Some c =>
          let st :=
            if Parser.streamId c =? 0 then st
            else setUnprocessedChunks (unprocessedChunks st ++ [c]) st in
          let size := chunkBufSize c in
          if (Parser.streamId c =? 0)
             && negb (bool_decide (Parser.dataCrc c = Some (chunksCrc st)))
          then Thrown CRCValidationError st
          else
            let st :=
              setChunksCrc (crc16 (slice (buffered st) 0 size) (chunksCrc st))
                st in
            parseChunks fuel' (setBuffered (sliceFrom (buffered st) size) st)
      end
  end.

(** The branch of [parseBuffer] that parses the head. *)
Definition parseHead (st : State) : Outcome :=
  match Parser.headParser (buffered st) with
  | None => Thrown HeaderParseError st
  | Some h =>
      let st := setHead h st in
      let headContentsBuf := slice (buffered st) 5 (Parser.headerLen h - 2) in
      let st := setBuffered (sliceFrom (buffered st) (Parser.headerLen h)) st in
      if negb (Parser.crc h =? crc16 headContentsBuf 0)
      then Thrown CRCValidationError st
      else
        let streamKeys := map Parser.metaStreamId (Parser.meta h) in
        let streams := seq (length (sinks st)) (length (Parser.meta h)) in
        let st :=
          setSinks (sinks st ++ repeat [] (length (Parser.meta h))) st in
        match Mux.mapThrow parseJSON (map Parser.metaString (Parser.meta h)) with
        | None => Thrown JSONParseError st
        | Some metadata =>
            let st := setStreams (zipObject streamKeys streams) st in
            Returned (setCallbacks (callbacks st ++ [Ready streams metadata]) st)
        end
  end.

(** [parseBuffer]. *)
Definition parseBuffer (now : Z) (st : State) : Outcome :=
  match buffered st with
  | [] => Returned st
  | _ :: _ =>
      andThen
        (if negb (parsedHead st) then parseHead st
         else parseChunks (length (buffered st)) st)
        (fun st =>
           andThen (processChunks now (setChunkProcessor None st))
             (fun st => Returned (setImmediates (S (immediates st)) st)))
  end.

(** [parseBufferWrapped]. *)
Definition parseBufferWrapped (now : Z) (st : State) : Outcome :=
  match parseBuffer now st with
  | Returned st' => Returned st'
  | Thrown e st' =>
      if negb (parsedHead st') && negb (bool_decide (e = HeaderParseError))
      then
        andThen (endInput st')
          (fun st => Returned (setCallbacks (callbacks st ++ [Failed e]) st))
      else if bool_decide (e = CRCValidationError) then
        andThen (broadcastError e st') endInput
      else Thrown e st'
  end.

(** What happens to the demultiplexer: [stream] emits ['data'] or
    ['finish'], a pending [setImmediate] callback runs, the pending timeout
    fires. *)
Inductive Event :=
  | Data (data : Buffer)
  | Finish
  | Immediate
  | Timeout.

(** One event, at time [now].  An [Immediate] with no callback pending and
    a [Timeout] with no timeout pending do nothing. *)
Definition step (now : Z) (ev : Event) (st : State) : Outcome :=
  match ev with
  | Data data => parseBufferWrapped now (setBuffered (buffered st ++ data) st)
  | Finish => Returned (endStreams st)
  | Immediate =>
      match immediates st with
      | O => Returned st
      | S n => parseBufferWrapped now (setImmediates n st)
      end
  | Timeout =>
      match chunkProcessor st with
      | None => Returned st
      | Some _ => processChunks now st
      end
  end.

(** The events [evs], each with the time at which it is handled; an
    exception that no handler catches stops the run. *)
Fixpoint run (evs : list (Z * Event)) (st : State) : Outcome :=
  match evs with
  | [] => Returned st
  | (now, ev) :: evs' => andThen (step now ev st) (run evs')
  end.

End WithEnvironment.

(** Nothing is left to do: no callback and no timeout is pending. *)
Definition quiescent (st : State) : Prop :=
  immediates st = O /\ chunkProcessor st = None.

End Demux.

(** ** The recorder *)

Module Recorder.

(** The variables of [recordStreams]: the multiplexer behind [outStream],
    [buffer], whether the append interval is set, and the buffers handed
    to [fs.appendFile], in order. *)
Record State := mkState {
  mux : Mux.State;
  buffer : Buffer;
  appending : bool;
  appended : list Buffer
}.

(** What happens to the recorder: something happens to the multiplexer
    ([Mux.Stop] being the ['end'] of [outStream] here), the append
    interval fires, [outStream] emits ['finish'] or ['close']. *)
Inductive Event :=
  | Source (ev : Mux.Event)
  | Append
  | Finished
  | Closed.

Section WithChecksum.

Variable crc16 : Buffer -> Z -> Z.
Variable cfg : Mux.Config.

(** The ['data'] listener of [outStream], for the buffers written by one
    handler of the multiplexer. *)
Definition collect (out : list StreamOp) (buffer : Buffer) : Buffer :=
  foldl (fun b data => b ++ data) buffer (writes out).

(** [recordStreams] up to its [return], for [n] sources: the head waits
    in [outStream] for the ['data'] listener, which gets it before
    anything else happens. *)
Definition recordStreams (n : nat) (now : Z) : option State :=
  '(m, head) ← Mux.multiplexStreams crc16 n now;
  Some {| mux := m; buffer := collect head []; appending := true;
          appended := [] |}.

(** One event, at time [now]. *)
Definition step (now : Z) (ev : Event) (st : State) : option State :=
  match ev with
  | Source e =>
      '(m, out) ← Mux.step crc16 cfg now e (mux st);
      Some {| mux := m; buffer := collect out (buffer st);
              appending := appending st; appended := appended st |}
  | Append =>
      if appending st
      then Some {| mux := mux st; buffer := [];
                   appending := true;
                   appended := appended st ++ [buffer st] |}
      else Some st
  | Finished =>
      '(m, out) ← Mux.step crc16 cfg now Mux.Stop (mux st);
      Some {| mux := m; buffer := collect out (buffer st);
              appending := false; appended := appended st |}
  | Closed =>
      Some {| mux := mux st; buffer := buffer st; appending := false;
              appended := appended st |}
  end.

Fixpoint run (evs : list (Z * Event)) (st : State) : option State :=
  match evs with
  | [] => Some st
  | (now, ev) :: evs' => st1 ← step now ev st; run evs' st1
  end.

End WithChecksum.

(** The events of the multiplexer among the events of the recorder. *)
Fixpoint sources (evs : list (Z * Event)) : list (Z * Mux.Event) :=
  match evs with
  | [] => []
  | (now, Source e) :: evs' => (now, e) :: sources evs'
  | (now, Finished) :: evs' => (now, Mux.Stop) :: sources evs'
  | _ :: evs' => sources evs'
  end.

End Recorder.

(** [demultiplexBuffer]: the buffer is written to a new [PassThrough],
    which hands it to the ['data'] listener of [demultiplexStream] in one
    piece. *)
Definition demultiplexBuffer (crc16 : Buffer -> Z -> Z)
    (parseJSON : Buffer -> option Json) (useRealOffsets : bool)
    (heard : nat -> bool) (now : Z) (buf : Buffer) : Demux.Outcome :=
  Demux.step crc16 parseJSON useRealOffsets true heard now (Demux.Data buf)
    Demux.initial.

(** ** A checksum and a JSON reader to run the code with *)

(** One step of the CRC-16 of polynomial [0x1021] on the top bit. *)
Definition crc16Bit (c : Z) : Z :=
  if Z.testbit c 15
  then Z.land (Z.lxor (Z.shiftl c 1) 4129) 65535
  else Z.land (Z.shiftl c 1) 65535.

Definition crc16Byte (c : Z) (b : byte) : Z :=
  Nat.iter 8 crc16Bit (Z.lxor c (Z.shiftl (byteToZ b) 8)).

(** Modelled from the spec: [./crc16] is not among the sources.  Section 6
    asks of it a pure function [checksum(bytes, seed=0)] with 16-bit
    values, which a prior checksum seeds so that checksums chain over
    successive writes.  The CRC-16 of polynomial [0x1021], taken byte by
    byte from the seed, is such a function; the examples are run with
    it. *)
Definition crc16_ccitt (buf : Buffer) (seed : Z) : Z :=
  fold_left crc16Byte buf seed.

(** The digits of [s] up to a closing brace that ends [s], as a number. *)
Fixpoint readDigits (s : Buffer) (acc : option Z) : option Z :=
  match s with
  | [] => None
  | b :: s' =>
      let d := byteToZ b in
      if (48 <=? d) && (d <=? 57)
      then readDigits s' (Some (10 * default 0 acc + (d - 48)))
      else if d =? 125 then match s' with [] => acc | _ :: _ => None end
      else None
  end.

(** [JSON.parse] on the texts that [stringifyMeta] builds, [{"id":<n>}];
    every other text is refused.  The examples are run with it. *)
Definition parseIdObject (s : Buffer) : option Json :=
  if bool_decide (map byteToZ (take 6 s) = [123; 34; 105; 100; 34; 58])
  then
    n ← readDigits (drop 6 s) None;
    Some (JMember [x69; x64] (JNumber n) JEmpty)
  else None.

(** ** What the claims speak of *)

(** The running checksum after the buffers [frames], from [c]. *)
Definition foldCrc (crc16 : Buffer -> Z -> Z) (c : Z) (frames : list Buffer)
    : Z :=
  fold_left (fun c buf => crc16 buf c) frames c.

(** Every control frame among the buffers [frames] (a buffer whose first
    byte is 0) carries the running checksum of all the buffers before it,
    [c] being the running checksum before [frames]; a control frame is
    folded into the running checksum whole, like every other buffer. *)
Fixpoint checkpoints (crc16 : Buffer -> Z -> Z) (c : Z)
    (frames : list Buffer) : Prop :=
  match frames with
  | [] => True
  | buf :: frames' =>
      (buf !! 0%nat = Some x00 -> exists off, buf = crcFrameBytes off c) /\
      checkpoints crc16 (crc16 buf c) frames'
  end.

(** The events [evs] come in the order of their times, from time [t] on,
    and none later than [gap] after the last firing of the interval,
    which [tick] is (the start counts as a firing). *)
Fixpoint paced (gap tick t : Z) (evs : list (Z * Mux.Event)) : Prop :=
  match evs with
  | [] => True
  | (now, ev) :: evs' =>
      t <= now <= tick + gap /\
      paced gap (match ev with Mux.Tick => now | _ => tick end) now evs'
  end.

(** One of the three conditions of [maybeSendCrc] holds. *)
Definition trigger (cfg : Mux.Config) (now : Z) (st : Mux.State) : Prop :=
  Mux.maxDataGap cfg < now - Mux.lastMsgTime st \/
  Mux.crcBufferSize cfg < Mux.crcProcessedBytes st \/
  Mux.streamsAlive st = 0.

(** [maybeSendCrc] writes a control frame. *)
Definition emits (crc16 : Buffer -> Z -> Z) (cfg : Mux.Config) (now : Z)
    (st : Mux.State) : Prop :=
  exists st' buf, Mux.maybeSendCrc crc16 cfg now st = Some (st', [Write buf]).

(** The checksum function has 16-bit values on 16-bit seeds. *)
Definition uint16 (crc16 : Buffer -> Z -> Z) : Prop :=
  forall buf seed, 0 <= seed <= 65535 -> 0 <= crc16 buf seed <= 65535.

(** What a handler of the multiplexer keeps: its writes continue the
    running checksum, every control frame it writes carries the running
    checksum of the writes before it, and it calls nothing but [write]. *)
Definition keepsChecksum (crc16 : Buffer -> Z -> Z) (h : Mux.Handler) : Prop :=
  forall st st' out,
    h st = Some (st', out) ->
    Mux.crc st' = foldCrc crc16 (Mux.crc st) (writes out) /\
    checkpoints crc16 (Mux.crc st) (writes out) /\
    Forall (fun op => exists buf, op = Write buf) out.

(** The offset field of a buffer written reads back as a time of at most
    [maxDataGap + gap]. *)
Definition offsetFits (cfg : Mux.Config) (gap : Z) (buf : Buffer) : Prop :=
  exists off,
    readUInt16LE buf 1 = Some off /\ 0 <= off <= Mux.maxDataGap cfg + gap.

(** What holds of the multiplexer between two events, [tick] being the
    time of the last firing of the interval and [t] the time of the last
    event. *)
Definition onTime (cfg : Mux.Config) (tick t : Z) (st : Mux.State) : Prop :=
  (length (Mux.listening st) <= 254)%nat /\
  0 <= Mux.crc st <= 65535 /\
  (Mux.canWrite st = true ->
   Mux.interval st = true /\
   tick - Mux.maxDataGap cfg <= Mux.lastMsgTime st <= t).





(** [processChunks] holds the chunk [chunk] back, at time [now]. *)
Definition heldBack (useRealOffsets : bool) (now : Z) (st : Demux.State)
    (chunk : Parser.Chunk) : Prop :=
  exists sent,
    Demux.lastChunkSent st = Some sent /\ useRealOffsets = true /\
    now - sent < Parser.offset chunk.

(** ** The frames of a session *)

(** The bytes of a chunk on the wire. *)
Definition encodeChunk (c : Parser.Chunk) : Buffer :=
  match c with
  | Parser.Crc off crc => crcFrameBytes off crc
  | Parser.Stream id off _ d => dataFrameBytes id off d
  end.

Definition encodeChunks (fs : list Parser.Chunk) : Buffer :=
  concat (map encodeChunk fs).

(** A chunk that a multiplexer of [n] sources writes: its fields are in
    range, a data chunk is for one of the streams 1 to [n] and holds as
    many bytes as its length says, at most 255. *)
Definition wfChunk (n : nat) (c : Parser.Chunk) : Prop :=
  match c with
  | Parser.Crc off crc => 0 <= off <= 65535 /\ 0 <= crc <= 65535
  | Parser.Stream id off len d =>
      1 <= id <= Z.of_nat n /\ 0 <= off <= 65535 /\
      len = Z.of_nat (length d) /\ (length d <= 255)%nat
  end.

(** The chunks [fs] are well formed and every control chunk among them
    carries the checksum of all the chunks before it, continued from
    [c]. *)
Fixpoint consistent (crc16 : Buffer -> Z -> Z) (n : nat) (c : Z)
    (fs : list Parser.Chunk) : Prop :=
  match fs with
  | [] => True
  | f :: fs' =>
      wfChunk n f /\ (Parser.streamId f = 0 -> Parser.dataCrc f = Some c) /\
      consistent crc16 n (crc16 (encodeChunk f) c) fs'
  end.

(** The bytes for the stream [id] among the chunks [fs], in order. *)
Fixpoint payloadOf (id : Z) (fs : list Parser.Chunk) : Buffer :=
  match fs with
  | [] => []
  | f :: fs' =>
      (if Parser.streamId f =? id then Parser.dataData f else [])
      ++ payloadOf id fs'
  end.

(** The bytes that the source [id] hands over in the events [evs], in
    order. *)
Fixpoint emitted (id : nat) (evs : list (Z * Mux.Event)) : Buffer :=
  match evs with
  | [] => []
  | (_, Mux.Data id' data) :: evs' =>
      (if Nat.eqb id' id then data else []) ++ emitted id evs'
  | _ :: evs' => emitted id evs'
  end.

(** In the events [evs] a source hands data over only while it is open,
    [opened] telling which sources are, and the output is not stopped. *)
Fixpoint orderly (opened : list bool) (evs : list (Z * Mux.Event)) : Prop :=
  match evs with
  | [] => True
  | (_, Mux.Data id _) :: evs' =>
      opened !! id = Some true /\ orderly opened evs'
  | (_, Mux.Finish id) :: evs' => orderly (<[id := false]> opened) evs'
  | (_, Mux.Tick) :: evs' => orderly opened evs'
  | (_, Mux.Stop) :: _ => False
  end.

(** The checksum of two buffers in a row is the checksum of the second
    continued from the checksum of the first. *)
Definition chains (crc16 : Buffer -> Z -> Z) : Prop :=
  forall a b seed, crc16 (a ++ b) seed = crc16 b (crc16 a seed).

(** The running checksum after the chunks [fs], from [c]. *)
Definition foldChunks (crc16 : Buffer -> Z -> Z) (c : Z)
    (fs : list Parser.Chunk) : Z :=
  fold_left (fun c f => crc16 (encodeChunk f) c) fs c.

(** The chunks among [fs] that the chunk loop pushes on the queue: those
    for a stream, in order. *)
Definition dataChunks (fs : list Parser.Chunk) : list Parser.Chunk :=
  List.filter (fun f => negb (Parser.streamId f =? 0)) fs.

(** The continuation chunks of the stream [id]. *)
Definition continuations (id : Z) (conts : list Buffer) : list Parser.Chunk :=
  map (fun d => Parser.Stream id 0 (Z.of_nat (length d)) d) conts.

(** What a handler of the multiplexer writes, as chunks: from a state that
    takes writes and counts [n] sources, the handler writes the chunks
    [fs], which are consistent from the running checksum and hold the
    bytes [pay id] for the stream [id]; it leaves a state of the same
    kind. *)
Definition framed (crc16 : Buffer -> Z -> Z) (n : nat) (h : Mux.Handler)
    (pay : Z -> Buffer) (opened' : list bool -> list bool) : Prop :=
  forall st st' out,
    h st = Some (st', out) ->
    Mux.canWrite st = true -> length (Mux.listening st) = n ->
    0 <= Mux.crc st <= 65535 ->
    exists fs,
      concat (writes out) = encodeChunks fs /\
      consistent crc16 n (Mux.crc st) fs /\
      Mux.crc st' = foldChunks crc16 (Mux.crc st) fs /\
      Mux.canWrite st' = true /\
      Mux.listening st' = opened' (Mux.listening st) /\
      forall id, payloadOf id fs = pay id.

(** ** What the demultiplexer keeps while it reads the chunks *)

(** Each of the [n] streams carries, with the chunks that wait in the
    queue and the chunks [pending] that are still to be parsed, the bytes
    [total] of its source; no stream is ended. *)
Definition sinksHold (n : nat) (total : nat -> Buffer) (st : Demux.State)
    (pending : list Parser.Chunk) : Prop :=
  forall i, (i < n)%nat ->
    exists log,
      Demux.sinks st !! i = Some log /\
      Forall (fun op => exists buf, op = Write buf) log /\
      carried log
      ++ payloadOf (Z.of_nat i + 1) (Demux.unprocessedChunks st)
      ++ payloadOf (Z.of_nat i + 1) pending = total i.

(** The demultiplexer is past the head, with [rest] the bytes that its
    input has still to hand over: the bytes buffered and [rest] are the
    chunks still to be parsed, which are consistent from the running
    checksum; the stream ids 1 to [n] name the streams 0 to [n - 1]; the
    queue holds well-formed data chunks. *)
Definition tracks (crc16 : Buffer -> Z -> Z) (n : nat)
    (total : nat -> Buffer) (st : Demux.State) (rest : Buffer) : Prop :=
  exists pending,
    Demux.buffered st ++ rest = encodeChunks pending /\
    consistent crc16 n (Demux.chunksCrc st) pending /\
    Demux.parsedHead st = true /\
    (forall i, (i < n)%nat ->
       Demux.streamDict st !! (Z.of_nat i + 1) = Some i) /\
    Forall (fun f => wfChunk n f /\ Parser.streamId f <> 0)
      (Demux.unprocessedChunks st) /\
    sinksHold n total st pending.

(** A timeout is pending exactly when the queue is not empty, and a
    [setImmediate] callback is pending whenever the buffer starts with a
    whole chunk. *)
Definition settled (st : Demux.State) : Prop :=
  (Demux.chunkProcessor st = None <-> Demux.unprocessedChunks st = []) /\
  (Parser.streamChunkParser (Demux.buffered st) <> None ->
   (0 < Demux.immediates st)%nat).

(** The bytes that the events [evs] hand to the demultiplexer. *)
Fixpoint fed (evs : list (Z * Demux.Event)) : Buffer :=
  match evs with
  | [] => []
  | (_, Demux.Data data) :: evs' => data ++ fed evs'
  | _ :: evs' => fed evs'
  end.

(** The input does not finish among the events [evs]. *)
Fixpoint noFinish (evs : list (Z * Demux.Event)) : Prop :=
  match evs with
  | [] => True
  | (_, Demux.Finish) :: _ => False
  | _ :: evs' => noFinish evs'
  end.

(** [k] turns of the event loop with nothing new on the input: a pending
    [setImmediate] callback runs, then the pending timeout fires. *)
Fixpoint drain (now : Z) (k : nat) : list (Z * Demux.Event) :=
  match k with
  | O => []
  | S k' => (now, Demux.Immediate) :: (now, Demux.Timeout) :: drain now k'
  end.

(** The metadata record that the head declares for the stream [id]. *)
Definition metaOf (id : Z) : Parser.StreamMeta :=
  {| Parser.metaStreamId := id;
     Parser.metaLength := Z.of_nat (length (stringifyMeta id));
     Parser.metaString := stringifyMeta id |}.

(** What is left to do: the callbacks pending, the chunks queued and the
    bytes buffered. *)
Definition backlog (st : Demux.State) : nat :=
  Demux.immediates st + length (Demux.unprocessedChunks st)
  + length (Demux.buffered st).

(** ** What the further properties speak of *)

(** The number of sources that still have their listeners. *)
Definition countOpen (listening : list bool) : Z :=
  Z.of_nat (length (List.filter (fun b : bool => b) listening)).

(** No event of [evs] is the end of the output. *)
Definition noStop (evs : list (Z * Mux.Event)) : Prop :=
  Forall (fun e => e.2 <> Mux.Stop) evs.

(** The multiplexer runs: its output takes writes, its interval is set,
    and it counts as open the sources that have their listeners. *)
Definition alive (st : Mux.State) : Prop :=
  Mux.canWrite st = true /\ Mux.interval st = true /\
  Mux.streamsAlive st = countOpen (Mux.listening st) /\
  0 <= Mux.crc st <= 65535.

(** ** Examples *)

(** Every stream has a listener for ['error']. *)
Definition attended : nat -> bool := fun _ => true.


(** One source that hands over one byte and ends. *)
Definition exampleEvents : list (Z * Mux.Event) :=
  [(1010, Mux.Data 0 [x41]); (1020, Mux.Finish 0)].

(** The multiplexer after the head and one data frame of one byte. *)
Definition exampleState : Mux.State :=
  {| Mux.lastMsgTime := 1010; Mux.crc := 43310; Mux.crcProcessedBytes := 5;
     Mux.streamsAlive := 1; Mux.canWrite := true; Mux.listening := [true];
     Mux.interval := true |}.

(** The head of one stream, as [multiplexStreams] writes it at time 1000
    with the checksum of the examples. *)
Definition exampleHead : Buffer :=
  match Mux.multiplexStreams crc16_ccitt 1 1000 with
  | Some (_, ops) => concat (writes ops)
  | None => []
  end.

(** The demultiplexer once it has been handed [exampleHead] followed by
    [rest]. *)
Definition exampleDemux (rest : Buffer) : Demux.State :=
  Demux.stateOf
    (Demux.step crc16_ccitt parseIdObject false true attended 0
       (Demux.Data (exampleHead ++ rest)) Demux.initial).


(** [exampleHead] with its last byte, the high byte of the checksum,
    changed. *)
Definition exampleBadHead : Buffer :=
  take (length exampleHead - 1) exampleHead ++ [x00].

(** The demultiplexer holding a chunk for stream 2, which the head does
    not declare. *)
Definition exampleStray : Demux.State :=
  Demux.stateOf
    (Demux.parseChunks crc16_ccitt 5
       (exampleDemux (dataFrameBytes 2 0 [x41]))).

(** The demultiplexer holding, after the head, a control frame whose
    checksum is 1 while the running checksum is 0. *)
Definition exampleCorrupt : Demux.State :=
  exampleDemux (crcFrameBytes 0 1).

(** A head of one stream whose metadata is not a JSON text, with the
    right checksum. *)
Definition exampleBrokenMeta : Buffer :=
  let body := [x01; x00; x00; x7a; x44; x01; x01; x00; x00; x00; x78] in
  [x01; x12; x00; x00; x00] ++ body
  ++ [byteOfZ (crc16_ccitt body 0); byteOfZ (crc16_ccitt body 0 / 256)].


(** One source hands over one byte and ends, and the append interval
    fires. *)
Definition exampleRecording : list (Z * Recorder.Event) :=
  [(1010, Recorder.Source (Mux.Data 0 [x41]));
   (1020, Recorder.Source (Mux.Finish 0));
   (2000, Recorder.Append)].

(** * Properties *)

(** ** Buffers and frames *)

Lemma byteToZ_byteOfZ n : byteToZ (byteOfZ n) = n mod 256.
Proof.
  unfold byteToZ, byteOfZ.
  assert (H : 0 <= n mod 256 < 256) by (apply Z.mod_pos_bound; lia).
  destruct (Byte.of_N (Z.to_N (n mod 256))) as [b|] eqn:E.
  - apply Byte.to_of_N in E. rewrite E. lia.
  - apply Byte.of_N_None_iff in E. lia.
Qed.

Lemma byteToZ_range b : 0 <= byteToZ b <= 255.
Proof. unfold byteToZ. pose proof (Byte.to_N_bounded b). lia. Qed.

Lemma writeUInt8_Some v : 0 <= v <= 255 -> writeUInt8 v = Some [byteOfZ v].
Proof.
  intros H. unfold writeUInt8.
  destruct (Z.leb_spec 0 v), (Z.leb_spec v 255); simpl; try lia; reflexivity.
Qed.

Lemma writeUInt16LE_Some v :
  0 <= v <= 65535 -> writeUInt16LE v = Some [byteOfZ v; byteOfZ (v / 256)].
Proof.
  intros H. unfold writeUInt16LE.
  destruct (Z.leb_spec 0 v), (Z.leb_spec v 65535); simpl; try lia; reflexivity.
Qed.

Lemma mkStart_Some sid off len :
  0 <= sid <= 255 -> 0 <= off <= 65535 -> 0 <= len <= 255 ->
  mkStart sid off len =
    Some [byteOfZ sid; byteOfZ off; byteOfZ (off / 256); byteOfZ len].
Proof.
  intros Hs Ho Hl. unfold mkStart.
  rewrite writeUInt8_Some, writeUInt16LE_Some, writeUInt8_Some by lia.
  reflexivity.
Qed.

Lemma mkStreamChunkBuf_fuel_S fuel chunk sid off :
  mkStreamChunkBuf_fuel (S fuel) chunk sid off =
    '(chunk', continuationBuf) ←
      mkStreamChunkBuf_while (fun c => mkStreamChunkBuf_fuel fuel c sid 0)
        (length chunk) chunk [];
    start ← mkStart sid off (Z.of_nat (length chunk'));
    Some (start ++ chunk' ++ continuationBuf).
Proof. reflexivity. Qed.

Lemma mkStreamChunkBuf_fuel_short fuel chunk sid off :
  (length chunk <= 255)%nat -> 0 <= sid <= 255 -> 0 <= off <= 65535 ->
  mkStreamChunkBuf_fuel (S fuel) chunk sid off =
    Some (dataFrameBytes sid off chunk).
Proof.
  intros Hl Hs Ho. simpl.
  destruct chunk as [|b chunk]; simpl.
  - rewrite mkStart_Some by lia. reflexivity.
  - destruct (Nat.ltb_spec 255 (S (length chunk))); [simpl in Hl; lia|].
    simpl. rewrite mkStart_Some by (simpl in Hl; lia).
    simpl. unfold dataFrameBytes. simpl. rewrite app_nil_r. reflexivity.
Qed.

(** What the loop returns. *)
Lemma mkStreamChunkBuf_while_spec (rec : Buffer -> option Buffer) sid :
  (forall c, length c = 255%nat -> rec c = Some (dataFrameBytes sid 0 c)) ->
  forall n chunk cont, (length chunk <= n)%nat ->
  exists head conts,
    mkStreamChunkBuf_while rec n chunk cont =
      Some (head, concat (map (dataFrameBytes sid 0) conts) ++ cont) /\
    head ++ concat conts = chunk /\
    (length head <= 255)%nat /\
    Forall (fun c => length c = 255%nat) conts /\
    (conts <> [] -> (0 < length head)%nat).
Proof.
  intros Hrec n. induction n as [|n IH]; intros chunk cont Hn;
    cbn [mkStreamChunkBuf_while].
  - exists chunk, []. simpl.
    destruct (Nat.ltb_spec 255 (length chunk)); [lia|].
    rewrite app_nil_r. repeat split; auto; try lia. congruence.
  - destruct (Nat.ltb_spec 255 (length chunk)) as [Hlt|Hge].
    + rewrite Hrec by (rewrite length_drop; lia). cbn [mbind option_bind].
      destruct (IH (take (length chunk - 255) chunk)
                  (dataFrameBytes sid 0 (drop (length chunk - 255) chunk) ++ cont))
        as (head & conts & Heq & Hcat & Hh & Hall & Hpos).
      { rewrite length_take. lia. }
      exists head, (conts ++ [drop (length chunk - 255) chunk]).
      rewrite Heq. split.
      { rewrite map_app, concat_app. simpl. rewrite app_nil_r, <- app_assoc. reflexivity. }
      split.
      { rewrite concat_app. simpl. rewrite app_nil_r, app_assoc, Hcat.
        apply take_drop. }
      split; [exact Hh|]. split.
      { apply Forall_app. split; [exact Hall|].
        constructor; [|constructor]. rewrite length_drop. lia. }
      intros _. destruct conts as [|c conts].
      * simpl in Hcat. rewrite app_nil_r in Hcat. subst head.
        rewrite length_take. lia.
      * apply Hpos. discriminate.
    + exists chunk, []. simpl. rewrite app_nil_r.
      repeat split; auto; try lia. congruence.
Qed.

Lemma length_concat_255 (conts : list Buffer) :
  Forall (fun c => length c = 255%nat) conts ->
  length (concat conts) = (255 * length conts)%nat.
Proof.
  induction 1 as [|c conts Hc _ IH]; simpl; [reflexivity|].
  rewrite length_app, IH, Hc. lia.
Qed.

(** The buffer that [mkStreamChunkBuf] builds: a head frame and the
    continuation frames, cut from the tail of the payload. *)
Lemma mkStreamChunkBuf_split (chunk : Buffer) (streamId offset : Z) :
  0 <= streamId <= 255 -> 0 <= offset <= 65535 ->
  exists head conts,
    mkStreamChunkBuf chunk streamId offset =
      Some (dataFrameBytes streamId offset head
            ++ concat (map (dataFrameBytes streamId 0) conts)) /\
    head ++ concat conts = chunk /\
    (length head <= 255)%nat /\
    Forall (fun c => length c = 255%nat) conts /\
    (conts <> [] -> (0 < length head)%nat).
Proof.
  intros Hs Ho. unfold mkStreamChunkBuf.
  rewrite mkStreamChunkBuf_fuel_S.
  destruct (mkStreamChunkBuf_while_spec
              (fun c => mkStreamChunkBuf_fuel 1 c streamId 0) streamId)
    with (n := length chunk) (chunk := chunk) (cont := @nil byte)
    as (head & conts & Heq & Hcat & Hh & Hall & Hpos); [| lia |].
  { intros c Hc. apply mkStreamChunkBuf_fuel_short; lia. }
  exists head, conts. rewrite Heq. cbn [mbind option_bind].
  rewrite mkStart_Some by lia. cbn [mbind option_bind].
  rewrite app_nil_r. auto.
Qed.

(** C3.  A payload is cut from its tail into slices of 255 bytes until at
    most 255 bytes are left: the buffer built is the head frame, which
    carries the offset given and the bytes left, followed by the
    continuation frames, which carry offset 0 and 255 bytes each; the
    payloads in this order make up the payload given.  A payload of at
    most 255 bytes is one frame, and a payload of 600 bytes is a head
    frame of 90 bytes and two continuation frames. *)
Theorem mkStreamChunkBuf_frames (chunk : Buffer) (streamId offset : Z) :
  0 <= streamId <= 255 -> 0 <= offset <= 65535 ->
  exists head conts,
    mkStreamChunkBuf chunk streamId offset =
      Some (dataFrameBytes streamId offset head
            ++ concat (map (dataFrameBytes streamId 0) conts)) /\
    head ++ concat conts = chunk /\
    (length head <= 255)%nat /\
    Forall (fun c => length c = 255%nat) conts /\
    (conts <> [] -> (0 < length head)%nat) /\
    ((length chunk <= 255)%nat -> conts = []) /\
    (length chunk = 600%nat -> length head = 90%nat /\ length conts = 2%nat).
Proof.
  intros Hs Ho.
  destruct (mkStreamChunkBuf_split chunk streamId offset Hs Ho)
    as (head & conts & Heq & Hcat & Hh & Hall & Hpos).
  exists head, conts.
  pose proof (length_concat_255 conts Hall) as Hlen.
  assert (Htot : length chunk = (length head + 255 * length conts)%nat).
  { rewrite <- Hcat, length_app, Hlen. reflexivity. }
  assert (Hk : (length conts = 0 \/ 0 < length head)%nat).
  { destruct conts; [left; reflexivity|right; apply Hpos; discriminate]. }
  repeat split; auto.
  - intros Hle. destruct conts; [reflexivity|]. cbn [length] in *. lia.
  - lia.
  - lia.
Qed.

Lemma mkStreamChunkBuf_frames_witness :
  0 <= 1 <= 255 /\ 0 <= 300 <= 65535 /\
  exists head conts,
    mkStreamChunkBuf (repeat x41 600) 1 300 =
      Some (dataFrameBytes 1 300 head
            ++ concat (map (dataFrameBytes 1 0) conts)) /\
    head ++ concat conts = repeat x41 600 /\
    (length head <= 255)%nat /\
    Forall (fun c => length c = 255%nat) conts /\
    (conts <> [] -> (0 < length head)%nat) /\
    ((length (repeat x41 600) <= 255)%nat -> conts = []) /\
    (length (repeat x41 600) = 600%nat ->
     length head = 90%nat /\ length conts = 2%nat).
Proof.
  split; [lia|]. split; [lia|].
  apply (mkStreamChunkBuf_frames (repeat x41 600) 1 300); lia.
Defined.

(** ** The multiplexer *)

Lemma mkStreamCrcBuf_Some off c :
  0 <= off <= 65535 -> 0 <= c <= 65535 ->
  mkStreamCrcBuf off c = Some (crcFrameBytes off c).
Proof.
  intros Ho Hc. unfold mkStreamCrcBuf.
  rewrite writeUInt8_Some, !writeUInt16LE_Some by lia. reflexivity.
Qed.

Lemma mkStreamCrcBuf_inv off c buf :
  mkStreamCrcBuf off c = Some buf ->
  0 <= off <= 65535 /\ 0 <= c <= 65535 /\ buf = crcFrameBytes off c.
Proof.
  unfold mkStreamCrcBuf, writeUInt16LE. cbn [writeUInt8 mbind option_bind].
  destruct (Z.leb_spec 0 off), (Z.leb_spec off 65535),
    (Z.leb_spec 0 c), (Z.leb_spec c 65535); simpl; try discriminate.
  intros [= <-]. repeat split; try lia.
Qed.

Section MuxFacts.

Variable crc16 : Buffer -> Z -> Z.
Variable cfg : Mux.Config.

Lemma due_spec now st : Mux.due cfg now st = true <-> trigger cfg now st.
Proof.
  unfold Mux.due, trigger.
  rewrite !orb_true_iff, !Z.ltb_lt, Z.eqb_eq. tauto.
Qed.

Lemma maybeSendCrc_closed now st :
  Mux.canWrite st = false -> Mux.maybeSendCrc crc16 cfg now st = Some (st, []).
Proof. intros H. unfold Mux.maybeSendCrc. rewrite H. reflexivity. Qed.

Lemma maybeSendCrc_quiet now st :
  Mux.canWrite st = true -> ~ trigger cfg now st ->
  Mux.maybeSendCrc crc16 cfg now st = Some (st, []).
Proof.
  intros Hw Ht. unfold Mux.maybeSendCrc. rewrite Hw. cbn [negb].
  destruct (Mux.due cfg now st) eqn:E; [|reflexivity].
  apply due_spec in E. contradiction.
Qed.

Lemma maybeSendCrc_sends now st :
  Mux.canWrite st = true -> trigger cfg now st ->
  Mux.maybeSendCrc crc16 cfg now st =
    buf ← mkStreamCrcBuf (now - Mux.lastMsgTime st) (Mux.crc st);
    Some ({| Mux.lastMsgTime := now;
             Mux.crc := crc16 buf (Mux.crc st);
             Mux.crcProcessedBytes := 0;
             Mux.streamsAlive := Mux.streamsAlive st;
             Mux.canWrite := Mux.canWrite st;
             Mux.listening := Mux.listening st;
             Mux.interval := Mux.interval st |}, [Write buf]).
Proof.
  intros Hw Ht. unfold Mux.maybeSendCrc. rewrite Hw. cbn [negb].
  apply due_spec in Ht. rewrite Ht. reflexivity.
Qed.

(** C6, as the code has it.  While the output takes writes and the
    elapsed time and the running checksum fit their 16-bit fields,
    [maybeSendCrc] writes a control frame exactly when the elapsed time
    exceeds [maxDataGap], or the bytes counted exceed [crcBufferSize], or
    no source is left open; any one of the three is enough.  The frame
    carries the elapsed time and the running checksum, and the clock and
    the byte count start again. *)
Theorem maybeSendCrc_exactly_when (now : Z) (st : Mux.State) :
  Mux.canWrite st = true ->
  0 <= now - Mux.lastMsgTime st <= 65535 ->
  0 <= Mux.crc st <= 65535 ->
  (emits crc16 cfg now st <-> trigger cfg now st) /\
  (trigger cfg now st ->
   exists st',
     Mux.maybeSendCrc crc16 cfg now st =
       Some (st', [Write (crcFrameBytes (now - Mux.lastMsgTime st) (Mux.crc st))]) /\
     Mux.lastMsgTime st' = now /\ Mux.crcProcessedBytes st' = 0) /\
  (~ trigger cfg now st -> Mux.maybeSendCrc crc16 cfg now st = Some (st, [])).
Proof.
  intros Hw Hd Hc.
  assert (Hsend : trigger cfg now st ->
    exists st',
     Mux.maybeSendCrc crc16 cfg now st =
       Some (st', [Write (crcFrameBytes (now - Mux.lastMsgTime st) (Mux.crc st))]) /\
     Mux.lastMsgTime st' = now /\ Mux.crcProcessedBytes st' = 0).
  { intros Ht. rewrite maybeSendCrc_sends by assumption.
    rewrite mkStreamCrcBuf_Some by assumption. cbn [mbind option_bind].
    eexists. split; [reflexivity|]. split; reflexivity. }
  split; [|split; [exact Hsend|]].
  - split.
    + intros (st' & buf & He).
      destruct (decide (Mux.due cfg now st = true)) as [Ht|Hn].
      * apply due_spec; exact Ht.
      * rewrite maybeSendCrc_quiet in He; [discriminate|assumption|].
        intros Ht. apply Hn, due_spec, Ht.
    + intros Ht. destruct (Hsend Ht) as (st' & He & _).
      exists st'. eexists. exact He.
  - intros Hn. apply maybeSendCrc_quiet; assumption.
Qed.


(** *** The running checksum of the multiplexer *)

Lemma foldCrc_app c a b :
  foldCrc crc16 c (a ++ b) = foldCrc crc16 (foldCrc crc16 c a) b.
Proof. unfold foldCrc. apply fold_left_app. Qed.

Lemma checkpoints_app c a b :
  checkpoints crc16 c (a ++ b) <->
  checkpoints crc16 c a /\ checkpoints crc16 (foldCrc crc16 c a) b.
Proof.
  revert c. induction a as [|x a IH]; intros c; simpl.
  - tauto.
  - rewrite IH. unfold foldCrc. simpl. tauto.
Qed.

Lemma writes_app a b : writes (a ++ b) = writes a ++ writes b.
Proof.
  induction a as [|[buf| |e] a IH]; simpl; rewrite ?IH; reflexivity.
Qed.

Lemma maybeSendCrc_keeps now : keepsChecksum crc16 (Mux.maybeSendCrc crc16 cfg now).
Proof.
  intros st st' out. unfold Mux.maybeSendCrc.
  destruct (Mux.canWrite st); cbn [negb].
  2:{ intros [= <- <-]. simpl. auto. }
  destruct (Mux.due cfg now st).
  2:{ intros [= <- <-]. simpl. auto. }
  destruct (mkStreamCrcBuf _ _) as [buf|] eqn:E; [|discriminate].
  cbn [mbind option_bind]. intros [= <- <-].
  apply mkStreamCrcBuf_inv in E as (_ & _ & ->).
  simpl. repeat split; eauto.
Qed.

Lemma byteOfZ_nonzero v : 1 <= v <= 255 -> byteOfZ v <> x00.
Proof.
  intros H E. apply (f_equal byteToZ) in E.
  rewrite byteToZ_byteOfZ, Z.mod_small in E by lia.
  change (byteToZ x00) with 0 in E. lia.
Qed.

Lemma mkStart_inv sid off len start :
  mkStart sid off len = Some start ->
  0 <= sid <= 255 /\ 0 <= off <= 65535 /\ 0 <= len <= 255.
Proof.
  unfold mkStart, writeUInt8, writeUInt16LE.
  destruct (Z.leb_spec 0 sid), (Z.leb_spec sid 255); simpl; try discriminate.
  destruct (Z.leb_spec 0 off), (Z.leb_spec off 65535); simpl; try discriminate.
  destruct (Z.leb_spec 0 len), (Z.leb_spec len 255); simpl; try discriminate.
  intros _. lia.
Qed.

Lemma mkStreamChunkBuf_inv chunk sid off buf :
  mkStreamChunkBuf chunk sid off = Some buf ->
  0 <= sid <= 255 /\ 0 <= off <= 65535.
Proof.
  unfold mkStreamChunkBuf. rewrite mkStreamChunkBuf_fuel_S.
  destruct (mkStreamChunkBuf_while _ _ _ _) as [[c k]|]; [|discriminate].
  cbn [mbind option_bind].
  destruct (mkStart _ _ _) as [start|] eqn:E; [|discriminate].
  intros _. apply mkStart_inv in E. lia.
Qed.

Lemma mkStreamChunkBuf_first chunk sid off buf :
  mkStreamChunkBuf chunk sid off = Some buf ->
  exists rest,
    buf = byteOfZ sid :: byteOfZ off :: byteOfZ (off / 256) :: rest.
Proof.
  intros H. destruct (mkStreamChunkBuf_inv _ _ _ _ H) as [Hs Ho].
  destruct (mkStreamChunkBuf_split chunk sid off Hs Ho)
    as (head & conts & Heq & _).
  rewrite H in Heq. injection Heq as ->.
  unfold dataFrameBytes at 1. simpl. eauto.
Qed.

Lemma listener_keeps id data now :
  keepsChecksum crc16 (Mux.listener crc16 cfg id data now).
Proof.
  intros st st' out. unfold Mux.listener.
  destruct (Mux.canWrite st); cbn [negb].
  2:{ intros [= <- <-]. simpl. auto. }
  destruct (mkStreamChunkBuf _ _ _) as [buf|] eqn:E; [|discriminate].
  cbn [mbind option_bind].
  destruct (Mux.maybeSendCrc _ _ _ _) as [[st1 out1]|] eqn:E1; [|discriminate].
  cbn [mbind option_bind]. intros [= <- <-].
  apply maybeSendCrc_keeps in E1 as (Hc & Hk & Hw). simpl in Hc, Hk.
  destruct (mkStreamChunkBuf_inv _ _ _ _ E) as [Hs _].
  destruct (mkStreamChunkBuf_first _ _ _ _ E) as (rest & ->).
  simpl. repeat split; eauto.
  intros [= E0]. exfalso. revert E0. apply byteOfZ_nonzero. lia.
Qed.

Lemma finishStream_keeps id now :
  keepsChecksum crc16 (Mux.finishStream crc16 cfg id now).
Proof.
  intros st st' out. unfold Mux.finishStream.
  destruct (Mux.maybeSendCrc _ _ _ _) as [[st1 out1]|] eqn:E1; [|discriminate].
  cbn [mbind option_bind]. intros [= <- <-].
  apply maybeSendCrc_keeps in E1. exact E1.
Qed.

Lemma keepsChecksum_seq (h1 h2 : Mux.Handler) :
  keepsChecksum crc16 h1 -> keepsChecksum crc16 h2 ->
  keepsChecksum crc16 (fun st =>
    '(st1, out1) ← h1 st; '(st2, out2) ← h2 st1; Some (st2, out1 ++ out2)).
Proof.
  intros H1 H2 st st' out.
  destruct (h1 st) as [[st1 out1]|] eqn:E1; [|discriminate].
  cbn [mbind option_bind].
  destruct (h2 st1) as [[st2 out2]|] eqn:E2; [|discriminate].
  cbn [mbind option_bind]. intros [= <- <-].
  apply H1 in E1 as (Hc1 & Hk1 & Hw1). apply H2 in E2 as (Hc2 & Hk2 & Hw2).
  rewrite writes_app, foldCrc_app, checkpoints_app, <- Hc1.
  repeat split; auto. apply Forall_app; auto.
Qed.

Lemma keepsChecksum_skip : keepsChecksum crc16 (fun st => Some (st, [])).
Proof. intros st st' out [= <- <-]. simpl. auto. Qed.

Lemma finishAll_keeps ids now : keepsChecksum crc16 (Mux.finishAll crc16 cfg ids now).
Proof.
  induction ids as [|id ids IH]; cbn [Mux.finishAll].
  - apply keepsChecksum_skip.
  - apply keepsChecksum_seq; [apply finishStream_keeps|exact IH].
Qed.

Lemma step_keeps now ev : keepsChecksum crc16 (Mux.step crc16 cfg now ev).
Proof.
  intros st. destruct ev as [id data|id| |]; cbn [Mux.step].
  - case_bool_decide; [apply listener_keeps|apply keepsChecksum_skip].
  - case_bool_decide; [apply finishStream_keeps|apply keepsChecksum_skip].
  - destruct (Mux.interval st);
      [apply maybeSendCrc_keeps|apply keepsChecksum_skip].
  - intros st' out H. unfold Mux.stop in H.
    apply finishAll_keeps in H. exact H.
Qed.

Lemma run_keeps evs : keepsChecksum crc16 (Mux.run crc16 cfg evs).
Proof.
  induction evs as [|[now ev] evs IH]; cbn [Mux.run].
  - apply keepsChecksum_skip.
  - apply keepsChecksum_seq; [apply step_keeps|exact IH].
Qed.


End MuxFacts.

(** *** The head *)

Lemma writeUInt32LE_Some v :
  0 <= v <= 4294967295 ->
  writeUInt32LE v =
    Some [byteOfZ v; byteOfZ (v / 256); byteOfZ (v / 65536);
          byteOfZ (v / 16777216)].
Proof.
  intros H. unfold writeUInt32LE.
  destruct (Z.leb_spec 0 v), (Z.leb_spec v 4294967295); simpl; try lia.
  reflexivity.
Qed.

Lemma decimalDigits_length fuel n acc :
  (length (decimalDigits fuel n acc) <= fuel + S (length acc))%nat.
Proof.
  revert n acc. induction fuel as [|fuel IH]; intros n acc; simpl; [lia|].
  destruct (n <? 10); simpl; [lia|].
  specialize (IH (n / 10) (digitByte (n mod 10) :: acc)). simpl in IH. lia.
Qed.

Lemma stringifyMeta_length id :
  (length (stringifyMeta id) <= Z.to_nat id + 8)%nat.
Proof.
  unfold stringifyMeta, decimal. rewrite !length_app. simpl.
  pose proof (decimalDigits_length (Z.to_nat id) id []). simpl in *. lia.
Qed.

Lemma mkStreamMetaBuf_Some id :
  1 <= id <= 254 ->
  mkStreamMetaBuf id =
    Some ([byteOfZ id; byteOfZ (Z.of_nat (length (stringifyMeta id)));
           byteOfZ (Z.of_nat (length (stringifyMeta id)) / 256);
           byteOfZ (Z.of_nat (length (stringifyMeta id)) / 65536);
           byteOfZ (Z.of_nat (length (stringifyMeta id)) / 16777216)]
          ++ stringifyMeta id).
Proof.
  intros H. unfold mkStreamMetaBuf.
  pose proof (stringifyMeta_length id).
  rewrite writeUInt8_Some, writeUInt32LE_Some by lia. reflexivity.
Qed.

Lemma mapThrow_metas ids :
  Forall (fun id => 1 <= id <= 254) ids ->
  exists metas,
    Mux.mapThrow mkStreamMetaBuf ids = Some metas /\
    (length (concat metas) <= 267 * length ids)%nat.
Proof.
  induction 1 as [|id ids Hid _ (metas & IH & Hlen)]; simpl.
  - exists []. split; [reflexivity|simpl; lia].
  - rewrite mkStreamMetaBuf_Some by assumption. cbn [mbind option_bind].
    rewrite IH. cbn [mbind option_bind]. eexists. split; [reflexivity|].
    pose proof (stringifyMeta_length id).
    cbn [concat]. rewrite !length_app. cbn [length]. lia.
Qed.

Lemma streamsMeta_range n :
  (n <= 254)%nat -> Forall (fun id => 1 <= id <= 254) (Mux.streamsMeta n).
Proof.
  intros Hn. unfold Mux.streamsMeta. apply List.Forall_forall.
  intros id Hin. apply in_map_iff in Hin as (k & <- & Hk).
  apply in_seq in Hk. lia.
Qed.

Lemma mkBufFloatLe_length v : length (mkBufFloatLe v) = 4%nat.
Proof. reflexivity. Qed.

Lemma headerBuf_Some n now :
  (n <= 254)%nat ->
  exists metas,
    Mux.mapThrow mkStreamMetaBuf (Mux.streamsMeta n) = Some metas /\
    Mux.headerBuf n now =
      Some ([byteOfZ (Z.of_nat n)] ++ mkBufFloatLe now ++ concat metas) /\
    (length (concat metas) <= 267 * n)%nat.
Proof.
  intros Hn.
  destruct (mapThrow_metas (Mux.streamsMeta n) (streamsMeta_range n Hn))
    as (metas & Hm & Hlen).
  unfold Mux.streamsMeta in Hlen. rewrite length_map, length_seq in Hlen.
  exists metas. split; [exact Hm|]. split; [|exact Hlen].
  unfold Mux.headerBuf, mkBuf8. rewrite Hm.
  rewrite writeUInt8_Some by lia. reflexivity.
Qed.

Section MuxStart.

Variable crc16 : Buffer -> Z -> Z.
Hypothesis crc16_uint16 : uint16 crc16.

Lemma multiplexStreams_Some n now :
  (n <= 254)%nat ->
  exists head,
    Mux.multiplexStreams crc16 n now =
      Some ({| Mux.lastMsgTime := now; Mux.crc := 0;
               Mux.crcProcessedBytes := 0; Mux.streamsAlive := Z.of_nat n;
               Mux.canWrite := true; Mux.listening := repeat true n;
               Mux.interval := true |}, head) /\
    length (writes head) = 4%nat /\
    Forall (fun op => exists buf, op = Write buf) head.
Proof.
  intros Hn. unfold Mux.multiplexStreams.
  destruct (Nat.ltb_spec 254 n); [lia|].
  destruct (headerBuf_Some n now Hn) as (metas & _ & Hbody & Hlen).
  assert (Hblen : (length ([byteOfZ (Z.of_nat n)] ++ mkBufFloatLe now
                           ++ concat metas) <= 5 + 267 * n)%nat).
  { rewrite !length_app, mkBufFloatLe_length. cbn [length]. lia. }
  revert Hbody Hblen.
  generalize ([byteOfZ (Z.of_nat n)] ++ mkBufFloatLe now ++ concat metas).
  intros body -> Hblen. cbn [mbind option_bind].
  unfold mkBuf8, mkBuf32le, mkBuf16le.
  rewrite writeUInt8_Some by lia. cbn [mbind option_bind].
  rewrite writeUInt32LE_Some by lia. cbn [mbind option_bind].
  rewrite writeUInt16LE_Some by (apply crc16_uint16; lia).
  cbn [mbind option_bind].
  eexists. split; [reflexivity|]. split; [reflexivity|].
  repeat constructor; eauto.
Qed.

End MuxStart.

(** *** Offsets *)

Lemma readUInt16LE_at1 b0 lo hi rest :
  readUInt16LE (b0 :: lo :: hi :: rest) 1 =
    Some (byteToZ lo + 256 * byteToZ hi).
Proof. reflexivity. Qed.

Lemma uint16_bytes v :
  0 <= v <= 65535 ->
  byteToZ (byteOfZ v) + 256 * byteToZ (byteOfZ (v / 256)) = v.
Proof.
  intros H. rewrite !byteToZ_byteOfZ.
  rewrite (Z.mod_small (v / 256)).
  2:{ split; [apply Z.div_pos; lia|apply Z.div_lt_upper_bound; lia]. }
  pose proof (Z.div_mod v 256). lia.
Qed.

Section MuxPace.

Variable crc16 : Buffer -> Z -> Z.
Variable cfg : Mux.Config.
Variable gap : Z.
Hypothesis crc16_uint16 : uint16 crc16.
Hypothesis gap_fits : 0 <= Mux.maxDataGap cfg /\ Mux.maxDataGap cfg + gap <= 65535.

Lemma maybeSendCrc_onTime tick t now st :
  onTime cfg tick t st -> t <= now <= tick + gap ->
  exists st' out,
    Mux.maybeSendCrc crc16 cfg now st = Some (st', out) /\
    onTime cfg now now st' /\ onTime cfg tick now st' /\
    Mux.listening st' = Mux.listening st /\
    Forall (offsetFits cfg gap) (writes out).
Proof.
  intros (Hl & Hc & Hw) Hnow.
  destruct (Mux.canWrite st) eqn:Ew.
  2:{ rewrite maybeSendCrc_closed by assumption.
      exists st, []. split; [reflexivity|]. unfold onTime. rewrite Ew.
      repeat split; auto; try lia; discriminate. }
  destruct (Hw eq_refl) as (Hi & Hlast).
  destruct (Mux.due cfg now st) eqn:Ed.
  - apply due_spec in Ed. rewrite maybeSendCrc_sends by assumption.
    rewrite mkStreamCrcBuf_Some by lia. cbn [mbind option_bind].
    eexists. eexists. split; [reflexivity|].
    unfold onTime. cbn. rewrite Ew, Hi.
    repeat split; auto; try lia; try (apply crc16_uint16; lia).
    constructor; [|constructor].
    exists (now - Mux.lastMsgTime st). split; [|lia].
    unfold crcFrameBytes.
    rewrite readUInt16LE_at1.
    rewrite uint16_bytes by lia. reflexivity.
  - assert (Hn : ~ trigger cfg now st).
    { intros Ht. apply due_spec in Ht. congruence. }
    rewrite maybeSendCrc_quiet by assumption.
    exists st, []. split; [reflexivity|].
    unfold trigger in Hn. unfold onTime. rewrite Ew, Hi.
    repeat split; auto; try lia.
Qed.


Lemma dataFrame_offsetFits sid off head rest :
  0 <= off <= Mux.maxDataGap cfg + gap ->
  (offsetFits cfg gap) (dataFrameBytes sid off head ++ rest).
Proof.
  intros H. exists off. split; [|lia].
  unfold dataFrameBytes. cbn [app].
  rewrite readUInt16LE_at1.
  rewrite uint16_bytes by lia. reflexivity.
Qed.

Lemma listener_onTime tick t now id data st :
  onTime cfg tick t st -> t <= now <= tick + gap ->
  Mux.listening st !! id = Some true ->
  exists st' out,
    Mux.listener crc16 cfg id data now st = Some (st', out) /\
    onTime cfg tick now st' /\ Forall (offsetFits cfg gap) (writes out).
Proof.
  intros (Hl & Hc & Hw) Hnow Hid. unfold Mux.listener.
  destruct (Mux.canWrite st) eqn:Ew; cbn [negb].
  2:{ exists st, []. split; [reflexivity|]. unfold onTime. rewrite Ew.
      repeat split; auto; try lia; discriminate. }
  destruct (Hw eq_refl) as (Hi & Hlast).
  apply lookup_lt_Some in Hid.
  destruct (mkStreamChunkBuf_split data (Z.of_nat id + 1)
              (now - Mux.lastMsgTime st)) as (head & conts & -> & _);
    [lia|lia|].
  cbn [mbind option_bind].
  match goal with
  | |- context [Mux.maybeSendCrc crc16 cfg now ?s] =>
      destruct (maybeSendCrc_onTime tick now now s)
        as (st' & out & -> & _ & Hon & _ & Hout)
  end.
  { unfold onTime. cbn. rewrite ?Ew, ?Hi.
    repeat split; auto; try lia; apply crc16_uint16; lia. }
  { lia. }
  cbn [mbind option_bind]. exists st'. eexists. split; [reflexivity|].
  split; [exact Hon|]. cbn [writes]. constructor; [|exact Hout].
  apply dataFrame_offsetFits. lia.
Qed.

Lemma finishStream_onTime tick t now id st :
  onTime cfg tick t st -> t <= now <= tick + gap ->
  exists st' out,
    Mux.finishStream crc16 cfg id now st = Some (st', out) /\
    onTime cfg tick now st' /\ Forall (offsetFits cfg gap) (writes out).
Proof.
  intros Hon Hnow. unfold Mux.finishStream.
  match goal with
  | |- context [Mux.maybeSendCrc crc16 cfg now ?s] =>
      destruct (maybeSendCrc_onTime tick t now s)
        as (st' & out & -> & _ & (Hl & Hc & Hw) & Hlis & Hout)
  end; [exact Hon|exact Hnow|].
  cbn [mbind option_bind]. eexists. eexists. split; [reflexivity|].
  split; [|exact Hout].
  unfold onTime. cbn. rewrite length_insert. auto.
Qed.

Lemma finishAll_closed ids now st :
  Mux.canWrite st = false ->
  exists st',
    Mux.finishAll crc16 cfg ids now st = Some (st', []) /\
    Mux.canWrite st' = false /\ Mux.crc st' = Mux.crc st /\
    length (Mux.listening st') = length (Mux.listening st).
Proof.
  revert st. induction ids as [|id ids IH]; intros st Hw; cbn [Mux.finishAll].
  - exists st. auto.
  - unfold Mux.finishStream. rewrite maybeSendCrc_closed by exact Hw.
    cbn [mbind option_bind].
    match goal with
    | |- context [Mux.finishAll crc16 cfg ids now ?s] =>
        destruct (IH s) as (st' & -> & Hw' & Hc' & Hl'); [exact Hw|]
    end.
    cbn [mbind option_bind]. exists st'. split; [reflexivity|].
    cbn in Hc', Hl'. rewrite length_insert in Hl'. auto.
Qed.

Lemma onTime_later tick tick' t now st :
  onTime cfg tick t st -> t <= now ->
  tick' <= tick \/ Mux.canWrite st = false ->
  onTime cfg tick' now st.
Proof.
  intros (Hl & Hc & Hw) Hnow Ht. split; [exact Hl|]. split; [exact Hc|].
  intros Hcw. destruct Ht as [Ht|Ht]; [|congruence].
  destruct (Hw Hcw) as [Hi Hlast]. split; [exact Hi|lia].
Qed.

Lemma step_onTime tick t now ev st :
  onTime cfg tick t st -> t <= now <= tick + gap ->
  exists st' out,
    Mux.step crc16 cfg now ev st = Some (st', out) /\
    onTime cfg (match ev with Mux.Tick => now | _ => tick end) now st' /\
    Forall (offsetFits cfg gap) (writes out).
Proof.
  intros Hon Hnow.
  destruct ev as [id data|id| |]; cbn [Mux.step].
  - case_bool_decide as Hid.
    + apply (listener_onTime tick t); assumption.
    + exists st, []. split; [reflexivity|]. split; [|constructor].
      apply (onTime_later tick tick t); [exact Hon|lia|left; lia].
  - case_bool_decide as Hid.
    + apply (finishStream_onTime tick t); assumption.
    + exists st, []. split; [reflexivity|]. split; [|constructor].
      apply (onTime_later tick tick t); [exact Hon|lia|left; lia].
  - destruct (Mux.interval st) eqn:Ei.
    + destruct (maybeSendCrc_onTime tick t now st Hon Hnow)
        as (st' & out & -> & Hon' & _ & _ & Hout).
      exists st', out. auto.
    + exists st, []. split; [reflexivity|]. split; [|constructor].
      apply (onTime_later tick now t); [exact Hon|lia|right].
      destruct Hon as (_ & _ & Hw).
      destruct (Mux.canWrite st); [|reflexivity].
      destruct (Hw eq_refl). congruence.
  - unfold Mux.stop.
    match goal with
    | |- context [Mux.finishAll crc16 cfg ?ids now ?s] =>
        destruct (finishAll_closed ids now s)
          as (st' & -> & Hw' & Hc' & Hl'); [reflexivity|]
    end.
    exists st', []. split; [reflexivity|]. split; [|constructor].
    destruct Hon as (Hl & Hc & Hw). cbn in Hc', Hl'.
    split; [lia|]. split; [lia|]. congruence.
Qed.

Lemma run_onTime evs : forall tick t st,
  onTime cfg tick t st -> paced gap tick t evs ->
  exists st' out,
    Mux.run crc16 cfg evs st = Some (st', out) /\
    Forall (offsetFits cfg gap) (writes out).
Proof.
  induction evs as [|[now ev] evs IH]; intros tick t st Hon Hp;
    cbn [Mux.run].
  - exists st, []. split; [reflexivity|constructor].
  - destruct Hp as [Hnow Hp].
    destruct (step_onTime tick t now ev st Hon Hnow)
      as (st1 & out1 & -> & Hon1 & Hout1).
    cbn [mbind option_bind].
    destruct (IH _ _ _ Hon1 Hp) as (st2 & out2 & -> & Hout2).
    cbn [mbind option_bind]. exists st2, (out1 ++ out2).
    split; [reflexivity|]. rewrite writes_app. apply Forall_app; auto.
Qed.

(** C7.  When the interval fires at least every [gap] milliseconds and
    [maxDataGap + gap] is at most 65535 (60000 and 1000 give 61000), no
    write of the session is refused and the offset field of every buffer
    written after the head reads back as at most [maxDataGap + gap],
    however long the sources stay silent. *)
Theorem offsets_never_overflow (n : nat) (start : Z)
    (evs : list (Z * Mux.Event)) :
  (n <= 254)%nat ->
  paced gap start start evs ->
  exists st out,
    Mux.session crc16 cfg n start evs = Some (st, out) /\
    Forall (fun buf =>
              exists off,
                readUInt16LE buf 1 = Some off /\
                0 <= off <= Mux.maxDataGap cfg + gap /\ off <= 65535)
      (drop 4 (writes out)).
Proof.
  intros Hn Hp. unfold Mux.session.
  destruct (multiplexStreams_Some crc16 crc16_uint16 n start Hn)
    as (head & -> & Hlen & _).
  cbn [mbind option_bind].
  match goal with
  | |- context [Mux.run crc16 cfg evs ?s] =>
      destruct (run_onTime evs start start s) as (st & out & -> & Hout)
  end.
  { unfold onTime. cbn. rewrite repeat_length. repeat split; auto; lia. }
  { exact Hp. }
  cbn [mbind option_bind]. exists st, (head ++ out).
  split; [reflexivity|].
  rewrite writes_app, drop_app_length' by (symmetry; exact Hlen).
  eapply Forall_impl; [exact Hout|].
  intros buf (off & Hr & Ho). exists off. repeat split; auto; lia.
Qed.

End MuxPace.

(** ** The demultiplexer *)

(** ** Slices and reads *)

Lemma slice_take buf n : 0 <= n -> slice buf 0 n = take (Z.to_nat n) buf.
Proof.
  intros Hn. unfold slice, clampIndex.
  destruct (Z.ltb_spec 0 0); [lia|].
  destruct (Z.ltb_spec n 0); [lia|].
  rewrite (Z.min_l 0) by lia. rewrite Z.sub_0_r.
  change (drop (Z.to_nat 0) buf) with buf.
  destruct (Z.le_ge_cases n (Z.of_nat (length buf))).
  - rewrite Z.min_l by lia. reflexivity.
  - rewrite Z.min_r by lia. rewrite Nat2Z.id.
    rewrite !take_ge by lia. reflexivity.
Qed.

Lemma sliceFrom_drop buf n : 0 <= n -> sliceFrom buf n = drop (Z.to_nat n) buf.
Proof.
  intros Hn. unfold sliceFrom, slice, clampIndex.
  destruct (Z.ltb_spec n 0); [lia|].
  destruct (Z.ltb_spec (Z.of_nat (length buf)) 0); [lia|].
  rewrite (Z.min_l (Z.of_nat (length buf))) by lia.
  destruct (Z.le_ge_cases n (Z.of_nat (length buf))).
  - rewrite Z.min_l by lia. apply take_ge. rewrite length_drop. lia.
  - rewrite Z.min_r by lia. rewrite Z.sub_diag, Nat2Z.id.
    rewrite !drop_ge by lia. reflexivity.
Qed.

Lemma readUInt8_length buf off v :
  readUInt8 buf off = Some v -> (off < length buf)%nat.
Proof.
  unfold readUInt8. destruct (buf !! off) eqn:E; [|discriminate].
  intros _. eapply lookup_lt_Some, E.
Qed.

Lemma readUInt16LE_length buf off v :
  readUInt16LE buf off = Some v -> (off + 1 < length buf)%nat.
Proof.
  unfold readUInt16LE. destruct (buf !! off); [|discriminate].
  cbn [mbind option_bind].
  destruct (buf !! (off + 1)%nat) eqn:E; [|discriminate].
  intros _. eapply lookup_lt_Some, E.
Qed.

Lemma readBytes_inv buf off len d :
  readBytes buf off len = Some d ->
  (off + len <= length buf)%nat /\ d = take len (drop off buf).
Proof.
  unfold readBytes. destruct (Nat.leb_spec (off + len) (length buf));
    [|discriminate].
  intros [= <-]. auto.
Qed.


(** What the chunk parser returns: a control chunk for stream id 0, a data
    chunk otherwise, and in both cases the buffer holds the whole frame. *)
Lemma streamChunkParser_inv buf c :
  Parser.streamChunkParser buf = Some c ->
  (exists off crc, c = Parser.Crc off crc /\ (5 <= length buf)%nat) \/
  (exists id off len d,
     c = Parser.Stream id off len d /\ 1 <= id <= 255 /\ 0 <= len <= 255 /\
     (4 + Z.to_nat len <= length buf)%nat /\
     d = take (Z.to_nat len) (drop 4 buf)).
Proof.
  unfold Parser.streamChunkParser.
  destruct (readUInt8 buf 0) as [id|] eqn:E0; [|discriminate].
  cbn [mbind option_bind].
  destruct (readUInt16LE buf 1) as [off|] eqn:E1; [|discriminate].
  cbn [mbind option_bind].
  destruct (Z.eqb_spec id 0) as [->|Hid].
  - destruct (readUInt16LE buf 3) as [crc|] eqn:E3; [|discriminate].
    cbn [mbind option_bind]. intros [= <-]. left.
    apply readUInt16LE_length in E3. eauto with lia.
  - destruct (readUInt8 buf 3) as [len|] eqn:E3; [|discriminate].
    cbn [mbind option_bind].
    destruct (readBytes buf 4 (Z.to_nat len)) as [d|] eqn:E4; [|discriminate].
    cbn [mbind option_bind]. intros [= <-]. right.
    apply readBytes_inv in E4 as [Hlen ->].
    unfold readUInt8 in E0, E3.
    destruct (buf !! 0%nat) as [b0|]; [|discriminate].
    destruct (buf !! 3%nat) as [b3|]; [|discriminate].
    injection E0 as <-. injection E3 as <-.
    pose proof (byteToZ_range b0). pose proof (byteToZ_range b3).
    exists (byteToZ b0), off, (byteToZ b3). eexists.
    repeat split; try reflexivity; lia.
Qed.

Lemma chunkBufSize_bounds buf c :
  Parser.streamChunkParser buf = Some c ->
  4 <= Demux.chunkBufSize c <= Z.of_nat (length buf).
Proof.
  intros H. apply streamChunkParser_inv in H
    as [(off & crc & -> & Hl)|(id & off & len & d & -> & Hid & Hlen & Hl & _)];
    unfold Demux.chunkBufSize; cbn.
  - lia.
  - destruct (Z.eqb_spec id 0); lia.
Qed.

(** ** The stream dictionary *)

Lemma zipObject_foldl_in (l : list (Z * nat)) (m : gmap Z nat) k v :
  foldl (fun d kv => <[kv.1 := kv.2]> d) m l !! k = Some v ->
  m !! k = Some v \/ (k, v) ∈ l.
Proof.
  revert m. induction l as [|[k0 v0] l IH]; intros m; simpl.
  - auto.
  - intros H. apply IH in H as [H|H].
    + destruct (decide (k0 = k)) as [->|Hne].
      * rewrite lookup_insert_eq in H. injection H as ->.
        right. left.
      * rewrite lookup_insert_ne in H by assumption. auto.
    + right. right. exact H.
Qed.


Lemma zipObject_lookup_None ks vs k :
  k ∉ ks -> Demux.zipObject ks vs !! k = None.
Proof.
  intros Hk. destruct (Demux.zipObject ks vs !! k) as [v|] eqn:E;
    [|reflexivity].
  exfalso. apply Hk. unfold Demux.zipObject in E.
  apply zipObject_foldl_in in E as [E|E];
    [rewrite lookup_empty in E; discriminate|].
  apply list_elem_of_lookup in E as [j E].
  apply lookup_zip_with_Some in E as (a & b & E & Ha & _).
  injection E as -> ->. eapply list_elem_of_lookup_2, Ha.
Qed.

(** ** Calls on every stream *)

Lemma setSinks_same st : Demux.setSinks (Demux.sinks st) st = st.
Proof. destruct st. reflexivity. Qed.

Lemma callAll_foldl op (ks : list Z) st :
  foldl (fun st k =>
           match Demux.streamDict st !! k with
           | Some i => Demux.call i op st
           | None => st
           end) st ks =
  Demux.setSinks
    (foldl (fun ss k =>
              match Demux.streamDict st !! k with
              | Some i => alter (fun ops => ops ++ [op]) i ss
              | None => ss
              end) (Demux.sinks st) ks) st.
Proof.
  revert st. induction ks as [|k ks IH]; intros st; simpl.
  - symmetry. apply setSinks_same.
  - rewrite IH. destruct (Demux.streamDict st !! k) as [i|]; reflexivity.
Qed.


Lemma callAll_fields op st :
  let st' := Demux.callAll op st in
  Demux.buffered st' = Demux.buffered st /\
  Demux.parsedHead st' = Demux.parsedHead st /\
  Demux.streamDict st' = Demux.streamDict st /\
  Demux.unprocessedChunks st' = Demux.unprocessedChunks st /\
  Demux.chunkProcessor st' = Demux.chunkProcessor st /\
  Demux.input st' = Demux.input st /\
  Demux.immediates st' = Demux.immediates st /\
  Demux.callbacks st' = Demux.callbacks st.
Proof. unfold Demux.callAll. rewrite callAll_foldl. cbn. auto 10. Qed.




(** Projections of updated states. *)
Ltac demux_simpl :=
  cbn [Demux.buffered Demux.parsedHead Demux.head Demux.streamDict
       Demux.unprocessedChunks Demux.chunksCrc Demux.chunkProcessor
       Demux.lastChunkSent Demux.sinks Demux.input Demux.immediates
       Demux.callbacks Demux.setBuffered Demux.setHead Demux.setStreams
       Demux.setUnprocessedChunks Demux.setChunksCrc Demux.setChunkProcessor
       Demux.setLastChunkSent Demux.setSinks Demux.setInput
       Demux.setImmediates Demux.setCallbacks Demux.call Demux.andThen
       Demux.stateOf negb andb] in *.

(** *** Errors on the streams and the end of the input *)

Section Broadcast.

Variable endable : bool.
Variable heard : nat -> bool.

Lemma emitAll_fields e ks : forall st,
  let st' := Demux.stateOf (Demux.emitAll heard e ks st) in
  Demux.buffered st' = Demux.buffered st /\
  Demux.parsedHead st' = Demux.parsedHead st /\
  Demux.streamDict st' = Demux.streamDict st /\
  Demux.unprocessedChunks st' = Demux.unprocessedChunks st /\
  Demux.chunksCrc st' = Demux.chunksCrc st /\
  Demux.chunkProcessor st' = Demux.chunkProcessor st /\
  Demux.input st' = Demux.input st /\
  Demux.immediates st' = Demux.immediates st /\
  Demux.callbacks st' = Demux.callbacks st.
Proof.
  induction ks as [|k ks IH]; intros st; cbn [Demux.emitAll].
  - cbn. auto 10.
  - destruct (Demux.streamDict st !! k) as [i|]; [|apply IH].
    cbv zeta. destruct (heard i).
    + specialize (IH (Demux.call i (EmitError e) st)). exact IH.
    + cbn. auto 10.
Qed.

(** When every registered stream has a listener for ['error'], the error
    is emitted on all of them and nothing is thrown. *)
Lemma broadcastError_heard e st :
  (forall k i, Demux.streamDict st !! k = Some i -> heard i = true) ->
  Demux.broadcastError heard e st
  = Demux.Returned (Demux.callAll (EmitError e) st).
Proof.
  unfold Demux.broadcastError, Demux.callAll.
  generalize (Demux.keys (Demux.streamDict st)). intros ks. revert st.
  induction ks as [|k ks IH]; intros st Hh; cbn [Demux.emitAll foldl];
    [reflexivity|].
  destruct (Demux.streamDict st !! k) as [i|] eqn:Ek; [|apply IH, Hh].
  cbv zeta. rewrite (Hh k i Ek). apply IH. exact Hh.
Qed.


(** What the handler of a checksum error after the head leaves alone. *)
Lemma checksum_catch_fields e st :
  let st' := Demux.stateOf
               (Demux.andThen (Demux.broadcastError heard e st)
                  (Demux.endInput endable)) in
  Demux.buffered st' = Demux.buffered st /\
  Demux.parsedHead st' = Demux.parsedHead st /\
  Demux.streamDict st' = Demux.streamDict st /\
  Demux.unprocessedChunks st' = Demux.unprocessedChunks st /\
  Demux.chunksCrc st' = Demux.chunksCrc st /\
  Demux.immediates st' = Demux.immediates st /\
  Demux.callbacks st' = Demux.callbacks st.
Proof.
  unfold Demux.broadcastError.
  pose proof (emitAll_fields e (Demux.keys (Demux.streamDict st)) st) as Hf.
  cbv zeta in Hf.
  destruct (Demux.emitAll heard e _ st) as [st1|e1 st1];
    cbn [Demux.stateOf Demux.andThen] in *;
    destruct Hf as (H1 & H2 & H3 & H4 & H5 & _ & _ & H8 & H9).
  - unfold Demux.endInput. destruct endable; cbn [Demux.stateOf];
      demux_simpl; auto 10.
  - auto 10.
Qed.

End Broadcast.

Section DemuxFacts.

Variable crc16 : Buffer -> Z -> Z.
Variable parseJSON : Buffer -> option Json.
Variable useRealOffsets : bool.
Variable endable : bool.
Variable heard : nat -> bool.

Abbreviation parseChunks := (Demux.parseChunks crc16).
Abbreviation parseHead := (Demux.parseHead crc16 parseJSON).
Abbreviation processChunks := (Demux.processChunks useRealOffsets).
Abbreviation parseBuffer := (Demux.parseBuffer crc16 parseJSON useRealOffsets).
Abbreviation parseBufferWrapped :=
  (Demux.parseBufferWrapped crc16 parseJSON useRealOffsets endable heard).
Abbreviation step := (Demux.step crc16 parseJSON useRealOffsets endable heard).

(** The chunk loop touches the buffer, the queue and the running checksum
    only. *)
Lemma parseChunks_fields fuel st :
  let st' := Demux.stateOf (parseChunks fuel st) in
  Demux.parsedHead st' = Demux.parsedHead st /\
  Demux.head st' = Demux.head st /\
  Demux.streamDict st' = Demux.streamDict st /\
  Demux.chunkProcessor st' = Demux.chunkProcessor st /\
  Demux.lastChunkSent st' = Demux.lastChunkSent st /\
  Demux.sinks st' = Demux.sinks st /\
  Demux.input st' = Demux.input st /\
  Demux.immediates st' = Demux.immediates st /\
  Demux.callbacks st' = Demux.callbacks st.
Proof.
  revert st. induction fuel as [|fuel IH]; intros st; cbn [Demux.parseChunks].
  - cbn. auto 10.
  - destruct (Parser.streamChunkParser (Demux.buffered st)) as [c|];
      [|cbn; auto 10].
    destruct (Parser.streamId c =? 0); cbn [andb].
    + case_bool_decide; cbn [negb]; [|cbn; auto 10].
      match goal with |- context [parseChunks fuel ?s] =>
        specialize (IH s) end.
      cbn in IH |- *. exact IH.
    + match goal with |- context [parseChunks fuel ?s] =>
        specialize (IH s) end.
      cbn in IH |- *. exact IH.
Qed.

(** The chunk loop throws at a control frame whose checksum differs from
    the running checksum, and nowhere else. *)
Lemma parseChunks_Thrown fuel st e st1 :
  parseChunks fuel st = Demux.Thrown e st1 ->
  e = CRCValidationError /\
  exists c,
    Parser.streamChunkParser (Demux.buffered st1) = Some c /\
    Parser.streamId c = 0 /\
    Parser.dataCrc c <> Some (Demux.chunksCrc st1).
Proof.
  revert st. induction fuel as [|fuel IH]; intros st;
    cbn [Demux.parseChunks]; [discriminate|].
  destruct (Parser.streamChunkParser (Demux.buffered st)) as [c|] eqn:Ep;
    [|discriminate].
  destruct (Z.eqb_spec (Parser.streamId c) 0) as [Hz|Hnz]; cbn [andb].
  - case_bool_decide as Hc; cbn [negb].
    + apply IH.
    + intros [= <- <-]. split; [reflexivity|]. exists c. auto.
  - apply IH.
Qed.


(** *** A head whose checksum is wrong *)

(** C4, on the code.  When the head decodes and its checksum field differs
    from the checksum of the bytes between the length field and the
    checksum field, the ['data'] listener calls [stream.end()] and then
    [callback] with the checksum error.  On a stream that has [end],
    [callback] is called once and the input is ended.  On a stream that
    has not, as the [fs.ReadStream] of [demultiplexFile], the call of
    [end] throws a [TypeError] out of the listener and [callback] is not
    called.  Either way the head is taken off the buffer, the head is
    still awaited, no stream is created, none is registered, none gets an
    event, and nothing is scheduled. *)
Theorem head_checksum_mismatch (now : Z) (st : Demux.State) (data : Buffer)
    (h : Parser.Head) :
  Demux.parsedHead st = false ->
  Parser.headParser (Demux.buffered st ++ data) = Some h ->
  Parser.crc h <>
    crc16 (slice (Demux.buffered st ++ data) 5 (Parser.headerLen h - 2)) 0 ->
  exists st',
    step now (Demux.Data data) st =
      (if endable then Demux.Returned st' else Demux.Thrown TypeError st') /\
    Demux.callbacks st' =
      (if endable
       then Demux.callbacks st ++ [Demux.Failed CRCValidationError]
       else Demux.callbacks st) /\
    Demux.input st' =
      (if endable then Demux.input st ++ [End] else Demux.input st) /\
    Demux.sinks st' = Demux.sinks st /\
    Demux.streamDict st' = Demux.streamDict st /\
    Demux.parsedHead st' = false /\
    Demux.buffered st' =
      sliceFrom (Demux.buffered st ++ data) (Parser.headerLen h) /\
    Demux.immediates st' = Demux.immediates st /\
    Demux.chunkProcessor st' = Demux.chunkProcessor st.
Proof.
  intros Hp Hh Hc. cbn [Demux.step].
  unfold Demux.parseBufferWrapped, Demux.parseBuffer.
  cbn [Demux.buffered Demux.setBuffered Demux.parsedHead].
  destruct (Demux.buffered st ++ data) as [|b0 b] eqn:Eb.
  { discriminate Hh. }
  rewrite Hp. cbn [negb]. unfold Demux.parseHead.
  cbn [Demux.buffered Demux.setBuffered]. rewrite Hh.
  cbn [Demux.buffered Demux.setBuffered Demux.setHead].
  destruct (Z.eqb_spec (Parser.crc h)
              (crc16 (slice (b0 :: b) 5 (Parser.headerLen h - 2)) 0))
    as [E|_]; [contradiction|].
  demux_simpl. rewrite Hp. cbn [negb andb].
  rewrite bool_decide_eq_false_2 by discriminate. cbn [negb].
  unfold Demux.endInput. destruct endable; cbn [Demux.andThen];
    eexists; (split; [reflexivity|]); demux_simpl; auto 10.
Qed.

(** *** A head that does not parse *)

(** C9, on the code.  While the head is awaited, a buffer that the head
    parser refuses leaves the bytes buffered, but the [HeaderParseError] is
    thrown again by [parseBufferWrapped] and leaves the ['data'] listener
    uncaught. *)
Theorem head_parse_error_rethrown (now : Z) (st : Demux.State)
    (data : Buffer) :
  Demux.parsedHead st = false ->
  Demux.buffered st ++ data <> [] ->
  Parser.headParser (Demux.buffered st ++ data) = None ->
  step now (Demux.Data data) st =
    Demux.Thrown HeaderParseError
      (Demux.setBuffered (Demux.buffered st ++ data) st).
Proof.
  intros Hp Hne Hh. cbn [Demux.step].
  unfold Demux.parseBufferWrapped, Demux.parseBuffer.
  cbn [Demux.buffered Demux.setBuffered Demux.parsedHead].
  destruct (Demux.buffered st ++ data) as [|b0 b] eqn:Eb; [contradiction|].
  rewrite Hp. cbn [negb]. unfold Demux.parseHead.
  cbn [Demux.buffered Demux.setBuffered]. rewrite Hh.
  demux_simpl. rewrite Hp. reflexivity.
Qed.

(** *** A chunk for a stream that the head does not declare *)

Lemma processChunks_unknown now st chunk rest :
  Demux.unprocessedChunks st = chunk :: rest ->
  Parser.streamId chunk <> 0 ->
  Demux.streamDict st !! Parser.streamId chunk = None ->
  ~ heldBack useRealOffsets now st chunk ->
  processChunks now st =
    Demux.Thrown TypeError
      (Demux.setLastChunkSent now
         (Demux.setUnprocessedChunks rest (Demux.setChunkProcessor None st))).
Proof.
  intros Hq Hid Hd Hh. unfold Demux.processChunks.
  cbn [Demux.unprocessedChunks Demux.setChunkProcessor Demux.lastChunkSent].
  rewrite Hq.
  assert (Hsend : Demux.sendChunk useRealOffsets now chunk rest
                    (Demux.setChunkProcessor None st) =
                  Demux.Thrown TypeError
                    (Demux.setLastChunkSent now
                       (Demux.setUnprocessedChunks rest
                          (Demux.setChunkProcessor None st)))).
  { unfold Demux.sendChunk.
    destruct (Z.eqb_spec (Parser.streamId chunk) 0); [contradiction|].
    cbn [Demux.streamDict Demux.setLastChunkSent Demux.setUnprocessedChunks
         Demux.setChunkProcessor].
    rewrite Hd. reflexivity. }
  destruct (Demux.lastChunkSent st) as [sent|] eqn:El; [|exact Hsend].
  destruct useRealOffsets eqn:Eu; cbn [andb]; [|exact Hsend].
  destruct (Z.ltb_spec (now - sent) (Parser.offset chunk)); [|exact Hsend].
  exfalso. apply Hh. exists sent. auto.
Qed.


Lemma processChunks_cleared now st :
  processChunks now (Demux.setChunkProcessor None st) = processChunks now st.
Proof. reflexivity. Qed.

(** C10.  When the chunk to deliver names a stream id, not 0, that is not
    among the ids from which the dictionary was built, [processChunks]
    throws a [TypeError] at the write: no stream gets an event and
    [callback] is not called.  Nothing catches it: the timeout handler
    lets it through, and so does [parseBufferWrapped]. *)
Theorem unknown_stream_uncaught (now : Z) (st : Demux.State)
    (chunk : Parser.Chunk) (rest : list Parser.Chunk) (ks : list Z)
    (vs : list nat) :
  Demux.parsedHead st = true ->
  Demux.streamDict st = Demux.zipObject ks vs ->
  Demux.unprocessedChunks st = chunk :: rest ->
  Parser.streamId chunk <> 0 ->
  Parser.streamId chunk ∉ ks ->
  ~ heldBack useRealOffsets now st chunk ->
  exists st',
    processChunks now st = Demux.Thrown TypeError st' /\
    Demux.sinks st' = Demux.sinks st /\
    Demux.callbacks st' = Demux.callbacks st /\
    Demux.input st' = Demux.input st /\
    (is_Some (Demux.chunkProcessor st) ->
     step now Demux.Timeout st = Demux.Thrown TypeError st') /\
    (forall st0,
       Demux.parsedHead st0 = true ->
       Demux.buffered st0 <> [] ->
       parseChunks (length (Demux.buffered st0)) st0 = Demux.Returned st ->
       parseBufferWrapped now st0 = Demux.Thrown TypeError st').
Proof.
  intros Hp Hd Hq Hid Hk Hh.
  assert (Hnone : Demux.streamDict st !! Parser.streamId chunk = None).
  { rewrite Hd. apply zipObject_lookup_None, Hk. }
  pose proof (processChunks_unknown now st chunk rest Hq Hid Hnone Hh) as Ht.
  eexists. split; [exact Ht|]. demux_simpl.
  repeat split.
  - intros [d Hd']. cbn [Demux.step]. rewrite Hd'. exact Ht.
  - intros st0 Hp0 Hb0 Hparse.
    unfold Demux.parseBufferWrapped, Demux.parseBuffer.
    destruct (Demux.buffered st0) as [|b0 b] eqn:Eb; [contradiction|].
    rewrite Hp0. cbn [negb]. rewrite Hparse. cbn [Demux.andThen].
    rewrite processChunks_cleared, Ht. demux_simpl. rewrite Hp. reflexivity.
Qed.

Lemma parseChunks_control fuel st off c :
  Parser.streamChunkParser (Demux.buffered st) = Some (Parser.Crc off c) ->
  parseChunks (S fuel) st =
    if bool_decide (c = Demux.chunksCrc st)
    then
      parseChunks fuel
        (Demux.setBuffered (drop 5 (Demux.buffered st))
           (Demux.setChunksCrc
              (crc16 (take 5 (Demux.buffered st)) (Demux.chunksCrc st)) st))
    else Demux.Thrown CRCValidationError st.
Proof.
  intros Hparse. cbn [Demux.parseChunks]. rewrite Hparse.
  cbn [Parser.streamId Parser.dataCrc Z.eqb andb].
  unfold Demux.chunkBufSize. cbn [Parser.streamId Z.eqb].
  rewrite slice_take by lia. demux_simpl. rewrite sliceFrom_drop by lia.
  case_bool_decide as H1; case_bool_decide as H2; try congruence;
    reflexivity.
Qed.

End DemuxFacts.

(** ** The claims about the multiplexer *)

Lemma multiplexStreams_inv crc16 n now st0 head :
  Mux.multiplexStreams crc16 n now = Some (st0, head) ->
  Mux.crc st0 = 0 /\ Mux.lastMsgTime st0 = now /\
  exists version len body check,
    head = [Write version; Write len; Write body; Write check] /\
    version = [x01].
Proof.
  unfold Mux.multiplexStreams. destruct (254 <? n)%nat; [discriminate|].
  destruct (Mux.headerBuf n now) as [body|]; [|discriminate].
  cbn [mbind option_bind].
  destruct (mkBuf32le _) as [len|]; [|discriminate].
  cbn [mbind option_bind].
  destruct (mkBuf16le _) as [check|]; [|discriminate].
  cbn [mbind option_bind]. intros [= <- <-]. cbn. eauto 10.
Qed.

Section MuxClaims.

Variable crc16 : Buffer -> Z -> Z.
Variable cfg : Mux.Config.

Lemma maybeSendCrc_state now st st' out :
  Mux.maybeSendCrc crc16 cfg now st = Some (st', out) ->
  Mux.listening st' = Mux.listening st /\
  Mux.streamsAlive st' = Mux.streamsAlive st /\
  Mux.canWrite st' = Mux.canWrite st /\
  Mux.interval st' = Mux.interval st.
Proof.
  unfold Mux.maybeSendCrc.
  destruct (negb (Mux.canWrite st)); [intros [= <- _]; auto|].
  destruct (Mux.due cfg now st); [|intros [= <- _]; auto].
  destruct (mkStreamCrcBuf _ _) as [buf|]; [|discriminate].
  cbn [mbind option_bind]. intros [= <- _]. auto.
Qed.


End MuxClaims.

(** ** The checksum of the examples *)

Lemma crc16Bit_range c : 0 <= crc16Bit c <= 65535.
Proof.
  unfold crc16Bit. change 65535 with (Z.ones 16).
  destruct (Z.testbit c 15); rewrite Z.land_ones by lia;
    match goal with |- context [?a mod ?b] =>
      pose proof (Z.mod_pos_bound a b) end;
    change (Z.ones 16) with 65535; change (2 ^ 16) with 65536 in *; lia.
Qed.

Lemma crc16Byte_range c b : 0 <= crc16Byte c b <= 65535.
Proof. unfold crc16Byte. cbn [Nat.iter]. apply crc16Bit_range. Qed.

Lemma crc16_ccitt_uint16 : uint16 crc16_ccitt.
Proof.
  intros buf. unfold crc16_ccitt.
  induction buf as [|b buf IH]; intros seed Hs; cbn [fold_left].
  - exact Hs.
  - apply IH, crc16Byte_range.
Qed.

(** ** The claims at examples *)

Lemma maybeSendCrc_exactly_when_witness :
  Mux.canWrite exampleState = true /\
  0 <= 62000 - Mux.lastMsgTime exampleState <= 65535 /\
  0 <= Mux.crc exampleState <= 65535 /\
  (emits crc16_ccitt Mux.defaults 62000 exampleState <->
   trigger Mux.defaults 62000 exampleState).
Proof.
  split; [reflexivity|]. split; [cbn; lia|]. split; [cbn; lia|].
  apply (maybeSendCrc_exactly_when crc16_ccitt Mux.defaults 62000 exampleState);
    [reflexivity|cbn; lia|cbn; lia].
Defined.

(** C6, as the claim has it, fails once the output has ended: after [stop]
    no source is left open, and yet [maybeSendCrc] writes nothing. *)
Lemma closed_output_sends_nothing :
  exists st out,
    Mux.session crc16_ccitt Mux.defaults 1 1000 [(1010, Mux.Stop)] =
      Some (st, out) /\
    trigger Mux.defaults 1020 st /\
    ~ emits crc16_ccitt Mux.defaults 1020 st.
Proof.
  eexists. eexists. split; [vm_compute; reflexivity|].
  split; [right; right; reflexivity|].
  intros (st' & buf & H). vm_compute in H. discriminate H.
Qed.

(** C2, as the claim has it, fails: after the control frame that the end
    of the source brings about, the running checksum is not 0, and the
    checksum that the frame carries is that of the data frame before it,
    not that of the data frame and of the three first bytes of the
    control frame. *)
Lemma checksum_is_not_reset :
  exists st out frame,
    Mux.session crc16_ccitt Mux.defaults 1 1000 exampleEvents =
      Some (st, out) /\
    writes out !! 5%nat = Some frame /\
    frame !! 0%nat = Some x00 /\
    Mux.crc st <> 0 /\
    readUInt16LE frame 3 = Some (crc16_ccitt [x01; x0a; x00; x01; x41] 0) /\
    readUInt16LE frame 3 <>
      Some (crc16_ccitt ([x01; x0a; x00; x01; x41] ++ take 3 frame) 0).
Proof.
  eexists. eexists. eexists. split; [vm_compute; reflexivity|].
  split; [vm_compute; reflexivity|].
  split; [reflexivity|]. split; [vm_compute; discriminate|].
  split; [vm_compute; reflexivity|]. vm_compute. discriminate.
Qed.

Lemma offsets_never_overflow_witness :
  uint16 crc16_ccitt /\
  (0 <= Mux.maxDataGap Mux.defaults /\
   Mux.maxDataGap Mux.defaults + 1000 <= 65535) /\
  (1 <= 254)%nat /\
  paced 1000 1000 1000 [(2000, Mux.Tick); (2500, Mux.Data 0 [x41]);
                        (3000, Mux.Tick); (3900, Mux.Finish 0)] /\
  exists st out,
    Mux.session crc16_ccitt Mux.defaults 1 1000
      [(2000, Mux.Tick); (2500, Mux.Data 0 [x41]); (3000, Mux.Tick);
       (3900, Mux.Finish 0)] = Some (st, out) /\
    Forall (fun buf =>
              exists off,
                readUInt16LE buf 1 = Some off /\
                0 <= off <= Mux.maxDataGap Mux.defaults + 1000 /\
                off <= 65535)
      (drop 4 (writes out)).
Proof.
  assert (Hgap : 0 <= Mux.maxDataGap Mux.defaults /\
                 Mux.maxDataGap Mux.defaults + 1000 <= 65535)
    by (cbn; lia).
  assert (Hp : paced 1000 1000 1000
                 [(2000, Mux.Tick); (2500, Mux.Data 0 [x41]);
                  (3000, Mux.Tick); (3900, Mux.Finish 0)])
    by (cbn; lia).
  split; [exact crc16_ccitt_uint16|]. split; [exact Hgap|].
  split; [lia|]. split; [exact Hp|].
  apply (offsets_never_overflow crc16_ccitt Mux.defaults 1000
           crc16_ccitt_uint16 Hgap 1 1000); [lia|exact Hp].
Defined.



Lemma head_checksum_mismatch_witness :
  exists h,
    Demux.parsedHead Demux.initial = false /\
    Parser.headParser (Demux.buffered Demux.initial ++ exampleBadHead) =
      Some h /\
    Parser.crc h <>
      crc16_ccitt
        (slice (Demux.buffered Demux.initial ++ exampleBadHead) 5
           (Parser.headerLen h - 2)) 0 /\
    exists st',
      Demux.step crc16_ccitt parseIdObject false false attended 0
        (Demux.Data exampleBadHead) Demux.initial
        = Demux.Thrown TypeError st' /\
      Demux.callbacks st' = [] /\
      Demux.input st' = [].
Proof.
  eexists. split; [reflexivity|]. split; [vm_compute; reflexivity|].
  split; [vm_compute; discriminate|].
  edestruct (head_checksum_mismatch crc16_ccitt parseIdObject false false
               attended 0 Demux.initial exampleBadHead)
    as (st' & Hr & Hcb & Hin & _);
    [reflexivity|vm_compute; reflexivity|vm_compute; discriminate|].
  exists st'. split; [exact Hr|]. split; [exact Hcb|exact Hin].
Defined.

Lemma head_parse_error_rethrown_witness :
  Demux.parsedHead Demux.initial = false /\
  Demux.buffered Demux.initial ++ [x01] <> [] /\
  Parser.headParser (Demux.buffered Demux.initial ++ [x01]) = None /\
  Demux.step crc16_ccitt parseIdObject false true attended 0 (Demux.Data [x01])
    Demux.initial =
  Demux.Thrown HeaderParseError
    (Demux.setBuffered (Demux.buffered Demux.initial ++ [x01]) Demux.initial).
Proof.
  assert (Hne : Demux.buffered Demux.initial ++ [x01] <> [])
    by discriminate.
  split; [reflexivity|]. split; [exact Hne|]. split; [reflexivity|].
  apply (head_parse_error_rethrown crc16_ccitt parseIdObject false true attended 0
           Demux.initial [x01] eq_refl Hne eq_refl).
Defined.

Lemma unknown_stream_uncaught_witness :
  Demux.parsedHead exampleStray = true /\
  Demux.streamDict exampleStray = Demux.zipObject [1] [0%nat] /\
  Demux.unprocessedChunks exampleStray = [Parser.Stream 2 0 1 [x41]] /\
  Parser.streamId (Parser.Stream 2 0 1 [x41]) <> 0 /\
(Parser.streamId (Parser.Stream 2 0 1 [x41]) ∉ [1]) /\
  ~ heldBack false 7 exampleStray (Parser.Stream 2 0 1 [x41]) /\
  exists st',
    Demux.processChunks false 7 exampleStray = Demux.Thrown TypeError st' /\
    Demux.sinks st' = Demux.sinks exampleStray /\
    Demux.callbacks st' = Demux.callbacks exampleStray.
Proof.
  assert (H1 : Demux.streamDict exampleStray = Demux.zipObject [1] [0%nat])
    by (vm_compute; reflexivity).
  assert (H2 : Demux.unprocessedChunks exampleStray =
               [Parser.Stream 2 0 1 [x41]]) by (vm_compute; reflexivity).
  assert (H3 : Parser.streamId (Parser.Stream 2 0 1 [x41]) <> 0)
    by (cbn; lia).
  assert (H4 : Parser.streamId (Parser.Stream 2 0 1 [x41]) ∉ [1]).
  { cbn. intros H. apply list_elem_of_singleton in H. lia. }
  assert (H5 : ~ heldBack false 7 exampleStray (Parser.Stream 2 0 1 [x41])).
  { intros (sent & _ & Hu & _). discriminate Hu. }
  split; [reflexivity|]. split; [exact H1|]. split; [exact H2|].
  split; [exact H3|]. split; [exact H4|]. split; [exact H5|].
  destruct (unknown_stream_uncaught crc16_ccitt parseIdObject false true attended 7
              exampleStray _ _ [1] [0%nat] eq_refl H1 H2 H3 H4 H5)
    as (st' & Hp & Hs & Hc & _).
  exists st'. split; [exact Hp|]. split; [exact Hs|exact Hc].
Defined.


(** ** The frames that the multiplexer writes *)

Lemma encodeChunks_app a b : encodeChunks (a ++ b) = encodeChunks a ++ encodeChunks b.
Proof. unfold encodeChunks. rewrite map_app, concat_app. reflexivity. Qed.

Lemma payloadOf_app id a b : payloadOf id (a ++ b) = payloadOf id a ++ payloadOf id b.
Proof.
  induction a as [|f a IH]; cbn [payloadOf app]; [reflexivity|].
  rewrite IH, app_assoc. reflexivity.
Qed.

Section Frames.

Variable crc16 : Buffer -> Z -> Z.
Hypothesis crc16_uint16 : uint16 crc16.
Hypothesis crc16_chains : chains crc16.
Variable cfg : Mux.Config.
Variable n : nat.

Lemma foldChunks_encode fs c :
  crc16 (encodeChunks fs) c = foldChunks crc16 c fs \/ fs = [] .
Proof.
  destruct fs as [|f fs]; [right; reflexivity|left].
  revert f c. induction fs as [|g fs IH]; intros f c.
  - unfold encodeChunks, foldChunks. cbn. rewrite app_nil_r. reflexivity.
  - change (encodeChunks (f :: g :: fs))
      with (encodeChunk f ++ encodeChunks (g :: fs)).
    rewrite crc16_chains, IH. reflexivity.
Qed.

Lemma consistent_app c a b :
  consistent crc16 n c (a ++ b) <->
  consistent crc16 n c a /\ consistent crc16 n (foldChunks crc16 c a) b.
Proof.
  revert c. induction a as [|f a IH]; intros c; cbn [consistent app].
  - unfold foldChunks. cbn. tauto.
  - rewrite IH. unfold foldChunks. cbn [fold_left]. tauto.
Qed.

Lemma foldChunks_app c a b :
  foldChunks crc16 c (a ++ b) = foldChunks crc16 (foldChunks crc16 c a) b.
Proof. unfold foldChunks. apply fold_left_app. Qed.

Lemma foldChunks_range c fs : 0 <= c <= 65535 -> 0 <= foldChunks crc16 c fs <= 65535.
Proof.
  revert c. induction fs as [|f fs IH]; intros c Hc; [exact Hc|].
  apply IH, crc16_uint16, Hc.
Qed.

Lemma encodeChunks_continuations id conts :
  encodeChunks (continuations id conts) =
  concat (map (dataFrameBytes id 0) conts).
Proof.
  unfold encodeChunks, continuations. rewrite map_map. reflexivity.
Qed.

Lemma payloadOf_continuations id id' conts :
  payloadOf id' (continuations id conts) =
  if id =? id' then concat conts else [].
Proof.
  induction conts as [|d conts IH]; cbn [continuations map payloadOf concat].
  - destruct (id =? id'); reflexivity.
  - fold (continuations id conts). rewrite IH. cbn [Parser.streamId Parser.dataData].
    destruct (id =? id'); reflexivity.
Qed.

(** A data block is consistent whatever the running checksum. *)
Lemma consistent_data c fs :
  Forall (fun f => wfChunk n f /\ Parser.streamId f <> 0) fs ->
  consistent crc16 n c fs.
Proof.
  intros H. revert c. induction H as [|f fs [Hw Hid] _ IH]; intros c;
    cbn [consistent]; [exact I|].
  split; [exact Hw|]. split; [intros; contradiction|apply IH].
Qed.


Lemma maybeSendCrc_framed now :
  framed crc16 n (Mux.maybeSendCrc crc16 cfg now) (fun _ => []) (fun l => l).
Proof.
  intros st st' out H Hw Hn Hc. unfold Mux.maybeSendCrc in H.
  rewrite Hw in H. cbn [negb] in H.
  destruct (Mux.due cfg now st).
  - destruct (mkStreamCrcBuf _ _) as [buf|] eqn:E; [|discriminate].
    cbn [mbind option_bind] in H. injection H as <- <-.
    apply mkStreamCrcBuf_inv in E as (Ho & _ & ->).
    exists [Parser.Crc (now - Mux.lastMsgTime st) (Mux.crc st)].
    split; [reflexivity|]. split.
    { cbn [consistent wfChunk]. split; [lia|]. split; [reflexivity|exact I]. }
    split; [reflexivity|]. split; [reflexivity|]. split; [reflexivity|].
    intros id. cbn. destruct id; reflexivity.
  - injection H as <- <-. exists [].
    split; [reflexivity|]. split; [exact I|]. split; [reflexivity|].
    split; [exact Hw|]. split; [reflexivity|]. intros id. reflexivity.
Qed.

Lemma listener_framed id data now :
  (id < n)%nat ->
  framed crc16 n (Mux.listener crc16 cfg id data now)
    (fun id' => if id' =? Z.of_nat id + 1 then data else []) (fun l => l).
Proof.
  intros Hid st st' out H Hw Hn Hc. unfold Mux.listener in H.
  rewrite Hw in H. cbn [negb] in H.
  destruct (mkStreamChunkBuf _ _ _) as [buf|] eqn:E; [|discriminate].
  cbn [mbind option_bind] in H.
  destruct (Mux.maybeSendCrc _ _ _ _) as [[st1 out1]|] eqn:E1; [|discriminate].
  cbn [mbind option_bind] in H. injection H as <- <-.
  destruct (mkStreamChunkBuf_inv _ _ _ _ E) as [Hs Ho].
  destruct (mkStreamChunkBuf_split data (Z.of_nat id + 1)
              (now - Mux.lastMsgTime st) Hs Ho)
    as (head & conts & E' & Hcat & Hh & Hall & _).
  rewrite E in E'. injection E' as ->.
  destruct (maybeSendCrc_framed now _ _ _ E1)
    as (fs1 & Hb1 & Hk1 & Hc1 & Hw1 & Hl1 & Hp1);
    [reflexivity|exact Hn|cbn; apply crc16_uint16, Hc|].
  cbn [Mux.crc Mux.listening] in Hk1, Hc1, Hl1.
  set (block := Parser.Stream (Z.of_nat id + 1) (now - Mux.lastMsgTime st)
                  (Z.of_nat (length head)) head
                :: continuations (Z.of_nat id + 1) conts).
  assert (Henc : encodeChunks block =
                 dataFrameBytes (Z.of_nat id + 1) (now - Mux.lastMsgTime st) head
                 ++ concat (map (dataFrameBytes (Z.of_nat id + 1) 0) conts)).
  { unfold block. change (encodeChunks (?f :: ?fs))
      with (encodeChunk f ++ encodeChunks fs).
    rewrite encodeChunks_continuations. reflexivity. }
  assert (Hfold : crc16 (encodeChunks block) (Mux.crc st) =
                  foldChunks crc16 (Mux.crc st) block).
  { destruct (foldChunks_encode block (Mux.crc st)) as [H|H];
      [exact H|discriminate H]. }
  exists (block ++ fs1).
  rewrite encodeChunks_app, consistent_app, foldChunks_app, <- Hfold, Henc.
  cbn [writes concat]. rewrite Hb1.
  split; [reflexivity|]. split; [split; [|exact Hk1]|].
  { apply consistent_data. unfold block. constructor.
    - cbn [wfChunk Parser.streamId]. split; [|lia].
      repeat split; auto; lia.
    - unfold continuations. apply Forall_map.
      eapply Forall_impl; [exact Hall|]. intros d Hd. cbn beta in Hd.
      cbn [wfChunk Parser.streamId]. split; [|lia].
      repeat split; auto; lia. }
  split; [exact Hc1|]. split; [exact Hw1|]. split; [exact Hl1|].
  intros id'. rewrite payloadOf_app, Hp1, app_nil_r. unfold block.
  cbn [payloadOf Parser.streamId Parser.dataData].
  rewrite payloadOf_continuations.
  rewrite (Z.eqb_sym id'). destruct (Z.of_nat id + 1 =? id');
    [exact Hcat|reflexivity].
Qed.


Lemma finishStream_framed id now :
  framed crc16 n (Mux.finishStream crc16 cfg id now) (fun _ => [])
    (fun l => <[id := false]> l).
Proof.
  intros st st' out H Hw Hn Hc. unfold Mux.finishStream in H.
  destruct (Mux.maybeSendCrc _ _ _ _) as [[st1 out1]|] eqn:E1; [|discriminate].
  cbn [mbind option_bind] in H. injection H as <- <-.
  destruct (maybeSendCrc_framed now _ _ _ E1)
    as (fs1 & Hb1 & Hk1 & Hc1 & Hw1 & Hl1 & Hp1);
    [exact Hw|exact Hn|exact Hc|].
  cbn [Mux.crc Mux.listening Mux.canWrite] in *.
  exists fs1. rewrite Hl1. auto 10.
Qed.

Lemma framed_skip : framed crc16 n (fun st => Some (st, [])) (fun _ => []) (fun l => l).
Proof.
  intros st st' out [= <- <-] Hw Hn Hc. exists [].
  split; [reflexivity|]. split; [exact I|]. split; [reflexivity|].
  split; [exact Hw|]. split; [reflexivity|]. intros id. reflexivity.
Qed.

Lemma run_framed evs : forall st st' out,
  Mux.run crc16 cfg evs st = Some (st', out) ->
  Mux.canWrite st = true -> length (Mux.listening st) = n ->
  0 <= Mux.crc st <= 65535 ->
  orderly (Mux.listening st) evs ->
  exists fs,
    concat (writes out) = encodeChunks fs /\
    consistent crc16 n (Mux.crc st) fs /\
    forall i : nat, payloadOf (Z.of_nat i + 1) fs = emitted i evs.
Proof.
  induction evs as [|[now ev] evs IH]; intros st st' out H Hw Hn Hc Ho;
    cbn [Mux.run] in H.
  - injection H as <- <-. exists []. split; [reflexivity|].
    split; [exact I|]. intros i. reflexivity.
  - destruct (Mux.step crc16 cfg now ev st) as [[st1 out1]|] eqn:E1;
      [|discriminate].
    cbn [mbind option_bind] in H.
    destruct (Mux.run crc16 cfg evs st1) as [[st2 out2]|] eqn:E2;
      [|discriminate].
    cbn [mbind option_bind] in H. injection H as <- <-.
    assert (Hstep : exists fs1,
              concat (writes out1) = encodeChunks fs1 /\
              consistent crc16 n (Mux.crc st) fs1 /\
              Mux.crc st1 = foldChunks crc16 (Mux.crc st) fs1 /\
              Mux.canWrite st1 = true /\
              length (Mux.listening st1) = n /\
              orderly (Mux.listening st1) evs /\
              forall i : nat,
                payloadOf (Z.of_nat i + 1) fs1 = emitted i [(now, ev)]).
    { destruct ev as [id data|id| |]; cbn [Mux.step orderly] in E1, Ho.
      - destruct Ho as [Hid Ho].
        rewrite bool_decide_eq_true_2 in E1 by exact Hid.
        assert (Hlt : (id < n)%nat) by (apply lookup_lt_Some in Hid; lia).
        destruct (listener_framed id data now Hlt _ _ _ E1 Hw Hn Hc)
          as (fs1 & Hb & Hk & Hf & Hw1 & Hl1 & Hp1).
        exists fs1. rewrite Hl1. repeat split; auto.
        intros i. rewrite Hp1. cbn [emitted]. rewrite app_nil_r.
        destruct (Nat.eqb_spec id i) as [->|Hne].
        + rewrite Z.eqb_refl. reflexivity.
        + destruct (Z.eqb_spec (Z.of_nat i + 1) (Z.of_nat id + 1));
            [lia|reflexivity].
      - case_bool_decide as Hid.
        + destruct (finishStream_framed id now _ _ _ E1 Hw Hn Hc)
            as (fs1 & Hb & Hk & Hf & Hw1 & Hl1 & Hp1).
          exists fs1. rewrite Hl1, length_insert. repeat split; auto.
        + injection E1 as <- <-.
          exists []. repeat split; auto.
          replace (Mux.listening st) with (<[id:=false]> (Mux.listening st));
            [exact Ho|].
          destruct (Mux.listening st !! id) as [[|]|] eqn:El.
          * contradiction.
          * apply list_insert_id, El.
          * apply list_insert_ge, lookup_ge_None, El.
      - assert (E1' : Mux.maybeSendCrc crc16 cfg now st = Some (st1, out1) \/
                      Some (st, []) = Some (st1, out1))
          by (destruct (Mux.interval st); auto).
        destruct E1' as [E1'|E1'].
        + destruct (maybeSendCrc_framed now _ _ _ E1' Hw Hn Hc)
            as (fs1 & Hb & Hk & Hf & Hw1 & Hl1 & Hp1).
          exists fs1. rewrite Hl1. repeat split; auto.
        + injection E1' as <- <-. exists []. repeat split; auto.
      - contradiction. }
    destruct Hstep as (fs1 & Hb1 & Hk1 & Hf1 & Hw1 & Hn1 & Ho1 & Hp1).
    destruct (IH _ _ _ E2 Hw1 Hn1) as (fs2 & Hb2 & Hk2 & Hp2);
      [rewrite Hf1; apply foldChunks_range, Hc|exact Ho1|].
    exists (fs1 ++ fs2). rewrite writes_app, concat_app, Hb1, Hb2.
    rewrite encodeChunks_app, consistent_app, <- Hf1.
    split; [reflexivity|]. split; [split; assumption|].
    intros i. rewrite payloadOf_app, Hp1, Hp2.
    destruct ev; cbn [emitted]; rewrite ?app_nil_r; reflexivity.
Qed.

End Frames.

(** ** Reading back what was written *)

Lemma uint8_byte v : 0 <= v <= 255 -> byteToZ (byteOfZ v) = v.
Proof. intros H. rewrite byteToZ_byteOfZ. apply Z.mod_small. lia. Qed.

Lemma uint32_bytes v :
  0 <= v <= 4294967295 ->
  byteToZ (byteOfZ v) + 256 * byteToZ (byteOfZ (v / 256))
  + 65536 * byteToZ (byteOfZ (v / 65536))
  + 16777216 * byteToZ (byteOfZ (v / 16777216)) = v.
Proof.
  intros H. rewrite !byteToZ_byteOfZ.
  assert (E1 : v / 65536 = v / 256 / 256)
    by (rewrite Z.div_div by lia; reflexivity).
  assert (E2 : v / 16777216 = v / 65536 / 256)
    by (rewrite Z.div_div by lia; reflexivity).
  pose proof (Z.div_mod v 256 ltac:(lia)) as D0.
  pose proof (Z.div_mod (v / 256) 256 ltac:(lia)) as D1.
  pose proof (Z.div_mod (v / 65536) 256 ltac:(lia)) as D2.
  rewrite <- E1 in D1. rewrite <- E2 in D2.
  assert (0 <= v / 16777216 < 256).
  { split; [apply Z.div_pos; lia|apply Z.div_lt_upper_bound; lia]. }
  rewrite (Z.mod_small (v / 16777216)) by lia.
  lia.
Qed.

Lemma readUInt8_app pre b rest :
  readUInt8 (pre ++ b :: rest) (length pre) = Some (byteToZ b).
Proof.
  unfold readUInt8. rewrite lookup_app_r by lia.
  rewrite Nat.sub_diag. reflexivity.
Qed.

Lemma lookup_app_plus (pre l : Buffer) k :
  (pre ++ l) !! (length pre + k)%nat = l !! k.
Proof. rewrite lookup_app_r by lia. f_equal. lia. Qed.

Lemma readUInt16LE_app pre lo hi rest :
  readUInt16LE (pre ++ lo :: hi :: rest) (length pre) =
    Some (byteToZ lo + 256 * byteToZ hi).
Proof.
  unfold readUInt16LE.
  rewrite <- (Nat.add_0_r (length pre)) at 1.
  rewrite !lookup_app_plus. reflexivity.
Qed.

Lemma readUInt32LE_app pre b0 b1 b2 b3 rest :
  readUInt32LE (pre ++ b0 :: b1 :: b2 :: b3 :: rest) (length pre) =
    Some (byteToZ b0 + 256 * byteToZ b1 + 65536 * byteToZ b2
          + 16777216 * byteToZ b3).
Proof.
  unfold readUInt32LE.
  rewrite <- (Nat.add_0_r (length pre)) at 1.
  rewrite !lookup_app_plus. reflexivity.
Qed.

Lemma readBytes_app pre d rest :
  readBytes (pre ++ d ++ rest) (length pre) (length d) = Some d.
Proof.
  unfold readBytes. rewrite !length_app.
  destruct (Nat.leb_spec (length pre + length d)
              (length pre + (length d + length rest))); [|lia].
  rewrite drop_app_length, take_app_length. reflexivity.
Qed.

(** ** Parsing the chunks written *)

Lemma readUInt8_at0 b rest : readUInt8 (b :: rest) 0 = Some (byteToZ b).
Proof. reflexivity. Qed.

Lemma readUInt8_at3 a b c d rest :
  readUInt8 (a :: b :: c :: d :: rest) 3 = Some (byteToZ d).
Proof. reflexivity. Qed.

Lemma readUInt16LE_at3 a b c lo hi rest :
  readUInt16LE (a :: b :: c :: lo :: hi :: rest) 3 =
    Some (byteToZ lo + 256 * byteToZ hi).
Proof. reflexivity. Qed.

Lemma readBytes_at4 a b c e d rest :
  readBytes (a :: b :: c :: e :: d ++ rest) 4 (length d) = Some d.
Proof. exact (readBytes_app [a; b; c; e] d rest). Qed.

Lemma streamChunkParser_encode n f rest :
  (n <= 254)%nat -> wfChunk n f ->
  Parser.streamChunkParser (encodeChunk f ++ rest) = Some f.
Proof.
  intros Hn Hf. unfold Parser.streamChunkParser.
  destruct f as [off crc|id off len d]; cbn [encodeChunk wfChunk] in *.
  - destruct Hf as [Ho Hc]. unfold crcFrameBytes. cbn [app].
    rewrite readUInt8_at0, readUInt16LE_at1, readUInt16LE_at3.
    cbn [mbind option_bind]. change (byteToZ x00 =? 0) with true.
    cbn [mbind option_bind]. rewrite !uint16_bytes by lia. reflexivity.
  - destruct Hf as (Hid & Ho & -> & Hl). unfold dataFrameBytes. cbn [app].
    rewrite readUInt8_at0, readUInt16LE_at1, readUInt8_at3.
    cbn [mbind option_bind].
    rewrite !uint8_byte, uint16_bytes by lia.
    destruct (Z.eqb_spec id 0); [lia|].
    cbn [mbind option_bind].
    rewrite (uint8_byte (Z.of_nat (length d))) by lia.
    rewrite Nat2Z.id, readBytes_at4. reflexivity.
Qed.

Lemma readUInt8_mono b rest k v :
  readUInt8 b k = Some v -> readUInt8 (b ++ rest) k = Some v.
Proof.
  unfold readUInt8. destruct (b !! k) as [x|] eqn:E; [|discriminate].
  rewrite (lookup_app_l_Some _ rest _ _ E). auto.
Qed.

Lemma readUInt16LE_mono b rest k v :
  readUInt16LE b k = Some v -> readUInt16LE (b ++ rest) k = Some v.
Proof.
  unfold readUInt16LE. destruct (b !! k) as [x|] eqn:E; [|discriminate].
  cbn [mbind option_bind].
  destruct (b !! (k + 1)%nat) as [y|] eqn:E'; [|discriminate].
  rewrite (lookup_app_l_Some _ rest _ _ E), (lookup_app_l_Some _ rest _ _ E').
  auto.
Qed.

Lemma readBytes_mono b rest k len d :
  readBytes b k len = Some d -> readBytes (b ++ rest) k len = Some d.
Proof.
  intros H. apply readBytes_inv in H as [Hl ->]. unfold readBytes.
  rewrite length_app.
  destruct (Nat.leb_spec (k + len) (length b + length rest)); [|lia].
  rewrite drop_app_le by lia. rewrite take_app_le by (rewrite length_drop; lia).
  reflexivity.
Qed.

Lemma streamChunkParser_app b rest c :
  Parser.streamChunkParser b = Some c ->
  Parser.streamChunkParser (b ++ rest) = Some c.
Proof.
  unfold Parser.streamChunkParser.
  destruct (readUInt8 b 0) as [id|] eqn:E0; [|discriminate].
  rewrite (readUInt8_mono _ rest _ _ E0). cbn [mbind option_bind].
  destruct (readUInt16LE b 1) as [off|] eqn:E1; [|discriminate].
  rewrite (readUInt16LE_mono _ rest _ _ E1). cbn [mbind option_bind].
  destruct (id =? 0).
  - destruct (readUInt16LE b 3) as [crc|] eqn:E3; [|discriminate].
    rewrite (readUInt16LE_mono _ rest _ _ E3). auto.
  - destruct (readUInt8 b 3) as [len|] eqn:E3; [|discriminate].
    rewrite (readUInt8_mono _ rest _ _ E3). cbn [mbind option_bind].
    destruct (readBytes b 4 (Z.to_nat len)) as [d|] eqn:E4; [|discriminate].
    rewrite (readBytes_mono _ rest _ _ _ E4). auto.
Qed.

Lemma encodeChunk_length n f :
  wfChunk n f -> Z.of_nat (length (encodeChunk f)) = Demux.chunkBufSize f.
Proof.
  destruct f as [off crc|id off len d]; cbn [encodeChunk wfChunk].
  - intros _. reflexivity.
  - intros (Hid & _ & -> & _). unfold Demux.chunkBufSize, dataFrameBytes.
    cbn [Parser.streamId Parser.dataLength].
    destruct (Z.eqb_spec id 0); [lia|]. rewrite length_app. cbn [length]. lia.
Qed.

(** ** The chunk loop on the chunks written *)

Lemma carried_writes log d :
  Forall (fun op => exists buf, op = Write buf) log ->
  carried (log ++ [Write d]) = carried log ++ d.
Proof.
  induction 1 as [|op log [buf ->] _ IH]; cbn [carried app].
  - rewrite app_nil_r. reflexivity.
  - rewrite IH, app_assoc. reflexivity.
Qed.

Lemma encodeChunks_cons f fs :
  encodeChunks (f :: fs) = encodeChunk f ++ encodeChunks fs.
Proof. reflexivity. Qed.

Section ChunkLoop.

Variable crc16 : Buffer -> Z -> Z.
Variable n : nat.
Hypothesis n_fits : (n <= 254)%nat.
Variable total : nat -> Buffer.

(** The first of the chunks still to be parsed, when the buffer holds a
    whole chunk. *)
Lemma next_chunk_split b rest pending c0 c :
  b ++ rest = encodeChunks pending ->
  consistent crc16 n c0 pending ->
  Parser.streamChunkParser b = Some c ->
  exists pending',
    pending = c :: pending' /\
    take (Z.to_nat (Demux.chunkBufSize c)) b = encodeChunk c /\
    drop (Z.to_nat (Demux.chunkBufSize c)) b ++ rest = encodeChunks pending'.
Proof.
  intros Hb Hk Hp.
  destruct pending as [|f pending'].
  { cbn in Hb. apply app_eq_nil in Hb as [-> _]. discriminate Hp. }
  destruct Hk as (Hw & _ & _).
  pose proof (streamChunkParser_app b rest c Hp) as Hp'.
  rewrite Hb, encodeChunks_cons in Hp'.
  rewrite (streamChunkParser_encode n f _ n_fits Hw) in Hp'.
  injection Hp' as <-.
  exists pending'. split; [reflexivity|].
  pose proof (chunkBufSize_bounds b f Hp) as Hsz.
  pose proof (encodeChunk_length n f Hw) as Hlen.
  assert (Hsz' : Z.to_nat (Demux.chunkBufSize f) = length (encodeChunk f))
    by lia.
  rewrite Hsz'. rewrite encodeChunks_cons in Hb.
  assert (Htake : take (length (encodeChunk f)) b = encodeChunk f).
  { rewrite <- (take_app_le b rest) by lia. rewrite Hb.
    apply take_app_length. }
  split; [exact Htake|].
  rewrite <- (take_drop (length (encodeChunk f)) b) in Hb.
  rewrite Htake, <- app_assoc in Hb. apply app_inv_head in Hb. exact Hb.
Qed.

Lemma parseChunks_tracks fuel : forall st rest,
  tracks crc16 n total st rest ->
  (length (Demux.buffered st) <= fuel)%nat ->
  exists st',
    Demux.parseChunks crc16 fuel st = Demux.Returned st' /\
    tracks crc16 n total st' rest /\
    Parser.streamChunkParser (Demux.buffered st') = None /\
    Demux.chunkProcessor st' = Demux.chunkProcessor st /\
    Demux.immediates st' = Demux.immediates st /\
    Demux.callbacks st' = Demux.callbacks st /\
    Demux.input st' = Demux.input st /\
    (length (Demux.unprocessedChunks st) <=
     length (Demux.unprocessedChunks st'))%nat.
Proof.
  induction fuel as [|fuel IH]; intros st rest Ht Hfuel;
    cbn [Demux.parseChunks].
  - exists st. split; [reflexivity|]. split; [exact Ht|].
    destruct (Demux.buffered st); [|cbn in Hfuel; lia].
    repeat split; auto.
  - destruct (Parser.streamChunkParser (Demux.buffered st)) as [c|] eqn:Ep.
    2:{ exists st. repeat split; auto. }
    destruct Ht as (pending & Hb & Hk & Hph & Hd & Hq & Hs).
    destruct (next_chunk_split _ _ _ _ _ Hb Hk Ep)
      as (pending' & -> & Htake & Hdrop).
    destruct Hk as (Hw & Hcrc & Hk').
    pose proof (chunkBufSize_bounds _ _ Ep) as Hsz.
    rewrite slice_take by lia.
    destruct (Z.eqb_spec (Parser.streamId c) 0) as [Hz|Hnz]; cbn [andb].
    + rewrite bool_decide_eq_true_2 by (apply Hcrc, Hz). cbn [negb].
      demux_simpl. rewrite sliceFrom_drop by lia. rewrite Htake.
      match goal with |- context [Demux.parseChunks crc16 fuel ?s] =>
        destruct (IH s rest) as (st' & Hr & Ht' & Hnone & Hcp & Him & Hcb & Hin & Hlen)
      end.
      { exists pending'. demux_simpl. repeat split; auto.
        intros i Hi. destruct (Hs i Hi) as (log & Hl & Hf & Hc).
        exists log. demux_simpl. repeat split; auto.
        rewrite <- Hc. cbn [payloadOf].
        destruct (Z.eqb_spec (Parser.streamId c) (Z.of_nat i + 1)); [lia|].
        reflexivity. }
      { demux_simpl. rewrite length_drop. lia. }
      exists st'. demux_simpl. repeat split; auto.
    + demux_simpl. rewrite sliceFrom_drop by lia. rewrite Htake.
      match goal with |- context [Demux.parseChunks crc16 fuel ?s] =>
        destruct (IH s rest) as (st' & Hr & Ht' & Hnone & Hcp & Him & Hcb & Hin & Hlen)
      end.
      { exists pending'. demux_simpl. repeat split; auto.
        - apply Forall_app. split; [exact Hq|]. constructor; [|constructor].
          split; assumption.
        - intros i Hi. destruct (Hs i Hi) as (log & Hl & Hf & Hc).
          exists log. demux_simpl. repeat split; auto.
          rewrite <- Hc. rewrite payloadOf_app. cbn [payloadOf].
          rewrite app_nil_r, <- !app_assoc. reflexivity. }
      { demux_simpl. rewrite length_drop. lia. }
      exists st'. demux_simpl. rewrite length_app in Hlen. cbn in Hlen.
      repeat split; auto. lia.
Qed.


Lemma processChunks_tracks now st rest :
  tracks crc16 n total st rest ->
  exists st',
    Demux.processChunks false now st = Demux.Returned st' /\
    tracks crc16 n total st' rest /\
    (Demux.chunkProcessor st' = None <-> Demux.unprocessedChunks st' = []) /\
    Demux.unprocessedChunks st' = tail (Demux.unprocessedChunks st) /\
    Demux.buffered st' = Demux.buffered st /\
    Demux.immediates st' = Demux.immediates st /\
    Demux.callbacks st' = Demux.callbacks st /\
    Demux.input st' = Demux.input st.
Proof.
  intros (pending & Hb & Hk & Hph & Hd & Hq & Hs).
  unfold Demux.processChunks. demux_simpl.
  destruct (Demux.unprocessedChunks st) as [|f q] eqn:Eq.
  - eexists. split; [reflexivity|]. demux_simpl. rewrite Eq.
    split; [|repeat split; auto].
    exists pending. demux_simpl. rewrite Eq. repeat split; auto.
  - assert (Hsend : exists st',
              Demux.sendChunk false now f q (Demux.setChunkProcessor None st)
                = Demux.Returned st' /\
              tracks crc16 n total st' rest /\
              (Demux.chunkProcessor st' = None <->
               Demux.unprocessedChunks st' = []) /\
              Demux.unprocessedChunks st' = q /\
              Demux.buffered st' = Demux.buffered st /\
              Demux.immediates st' = Demux.immediates st /\
              Demux.callbacks st' = Demux.callbacks st /\
              Demux.input st' = Demux.input st).
    { inversion Hq as [|f' q' [Hwf Hid] Hq']; subst f' q'.
      unfold Demux.sendChunk. demux_simpl.
      destruct (Z.eqb_spec (Parser.streamId f) 0); [contradiction|].
      destruct f as [off crc|id off len d];
        cbn [Parser.streamId Parser.dataData wfChunk] in *; [lia|].
      destruct Hwf as (Hrange & _ & _ & _).
      assert (Hi : (Z.to_nat (id - 1) < n)%nat) by lia.
      pose proof (Hd _ Hi) as Hlook.
      replace (Z.of_nat (Z.to_nat (id - 1)) + 1) with id in Hlook by lia.
      rewrite Hlook. demux_simpl.
      assert (Htracks : forall t,
                tracks crc16 n total
                  (Demux.setChunkProcessor t
                     (Demux.setSinks
                        (alter (fun ops => ops ++ [Write d])
                           (Z.to_nat (id - 1)) (Demux.sinks st))
                        (Demux.setLastChunkSent now
                           (Demux.setUnprocessedChunks q
                              (Demux.setChunkProcessor None st))))) rest).
      { intros t. exists pending. demux_simpl. repeat split; auto.
        intros i Hi'. destruct (Hs i Hi') as (log & Hl & Hf & Hc).
        rewrite Eq in Hc. cbn [payloadOf Parser.streamId Parser.dataData] in Hc.
        demux_simpl.
        destruct (decide (Z.to_nat (id - 1) = i)) as [<-|Hne].
        - exists (log ++ [Write d]).
          rewrite list_lookup_alter, decide_True, Hl by reflexivity.
          split; [reflexivity|].
          split; [apply Forall_app; split; [exact Hf|]; repeat constructor; eauto|].
          rewrite carried_writes by exact Hf.
          destruct (Z.eqb_spec id (Z.of_nat (Z.to_nat (id - 1)) + 1)); [|lia].
          rewrite <- Hc, <- !app_assoc. reflexivity.
        - exists log. rewrite list_lookup_alter_ne by exact Hne.
          split; [exact Hl|]. split; [exact Hf|].
          destruct (Z.eqb_spec id (Z.of_nat i + 1)); [lia|]. exact Hc. }
      destruct q as [|g q].
      - eexists. split; [reflexivity|]. demux_simpl.
        split; [|repeat split; auto].
        specialize (Htracks None). exact Htracks.
      - eexists. split; [reflexivity|]. demux_simpl.
        split; [apply (Htracks (Some 0))|].
        repeat split; auto; discriminate. }
    destruct (Demux.lastChunkSent st); cbn [andb]; exact Hsend.
Qed.


Variable parseJSON : Buffer -> option Json.
Variable endable : bool.
Variable heard : nat -> bool.

Lemma parseBufferWrapped_tracks now st rest :
  tracks crc16 n total st rest ->
  (Demux.chunkProcessor st = None <-> Demux.unprocessedChunks st = []) ->
  exists st',
    Demux.parseBufferWrapped crc16 parseJSON false endable heard now st =
      Demux.Returned st' /\
    tracks crc16 n total st' rest /\
    (Demux.chunkProcessor st' = None <-> Demux.unprocessedChunks st' = []) /\
    Parser.streamChunkParser (Demux.buffered st') = None /\
    Demux.callbacks st' = Demux.callbacks st /\
    Demux.input st' = Demux.input st.
Proof.
  intros Ht Hcp. unfold Demux.parseBufferWrapped, Demux.parseBuffer.
  destruct (Demux.buffered st) as [|b0 b] eqn:Eb.
  { exists st. rewrite Eb. repeat split; auto; apply Hcp. }
  assert (Hph : Demux.parsedHead st = true)
    by (destruct Ht as (? & _ & _ & H & _); exact H).
  rewrite Hph. cbn [negb]. rewrite <- Eb.
  destruct (parseChunks_tracks (length (Demux.buffered st)) st rest Ht
              ltac:(lia))
    as (st1 & -> & Ht1 & Hnone & _ & _ & Hcb1 & Hin1 & _).
  cbn [Demux.andThen].
  destruct (processChunks_tracks now (Demux.setChunkProcessor None st1) rest)
    as (st2 & Hr2 & Ht2 & Hcp2 & _ & Hb2 & _ & Hcb2 & Hin2).
  { destruct Ht1 as (pending & H). exists pending. demux_simpl. exact H. }
  rewrite Hr2. cbn [Demux.andThen]. eexists. split; [reflexivity|].
  demux_simpl. rewrite Hb2, Hcb2, Hin2, Hcb1, Hin1.
  split; [|repeat split; auto; apply Hcp2].
  destruct Ht2 as (pending & H). exists pending. demux_simpl. exact H.
Qed.

(** One event keeps what the demultiplexer tracks. *)
Lemma step_tracks now ev st rest :
  tracks crc16 n total st (match ev with
                           | Demux.Data data => data ++ rest
                           | _ => rest
                           end) ->
  settled st ->
  ev <> Demux.Finish ->
  exists st',
    Demux.step crc16 parseJSON false endable heard now ev st = Demux.Returned st' /\
    tracks crc16 n total st' rest /\ settled st' /\
    Demux.callbacks st' = Demux.callbacks st /\
    Demux.input st' = Demux.input st.
Proof.
  intros Ht [Hcp Him] Hev. destruct ev as [data| | |]; cbn [Demux.step].
  - destruct (parseBufferWrapped_tracks now
                (Demux.setBuffered (Demux.buffered st ++ data) st) rest)
      as (st' & Hr & Ht' & Hcp' & Hnone & Hcb & Hin).
    { destruct Ht as (pending & Hb & H). exists pending. demux_simpl.
      rewrite <- app_assoc. split; [exact Hb|exact H]. }
    { demux_simpl. exact Hcp. }
    exists st'. split; [exact Hr|]. split; [exact Ht'|].
    split; [|split; assumption].
    split; [exact Hcp'|]. intros H. contradiction.
  - contradiction.
  - destruct (Demux.immediates st) as [|m] eqn:Em.
    + exists st. split; [reflexivity|]. split; [exact Ht|].
      split; [|split; reflexivity]. split; [exact Hcp|]. rewrite Em. exact Him.
    + destruct (parseBufferWrapped_tracks now (Demux.setImmediates m st) rest)
        as (st' & Hr & Ht' & Hcp' & Hnone & Hcb & Hin).
      { destruct Ht as (pending & H). exists pending. demux_simpl. exact H. }
      { demux_simpl. exact Hcp. }
      exists st'. split; [exact Hr|]. split; [exact Ht'|].
      split; [|split; assumption].
      split; [exact Hcp'|]. intros H. contradiction.
  - destruct (Demux.chunkProcessor st) as [t|] eqn:Et.
    + destruct (processChunks_tracks now st rest Ht)
        as (st' & Hr & Ht' & Hcp' & _ & Hb & Him' & Hcb & Hin).
      exists st'. split; [exact Hr|]. split; [exact Ht'|].
      split; [|split; assumption].
      split; [exact Hcp'|]. rewrite Hb, Him'. exact Him.
    + exists st. split; [reflexivity|]. split; [exact Ht|].
      split; [|split; reflexivity]. split; [rewrite Et; exact Hcp|exact Him].
Qed.

Lemma run_tracks evs : forall st,
  tracks crc16 n total st (fed evs) -> settled st -> noFinish evs ->
  exists st',
    Demux.run crc16 parseJSON false endable heard evs st = Demux.Returned st' /\
    tracks crc16 n total st' [] /\ settled st' /\
    Demux.callbacks st' = Demux.callbacks st /\
    Demux.input st' = Demux.input st.
Proof.
  induction evs as [|[now ev] evs IH]; intros st Ht Hs Hnf; cbn [Demux.run].
  - exists st. auto.
  - destruct (step_tracks now ev st (fed evs)) as (st1 & -> & Ht1 & Hs1 & Hcb1 & Hin1).
    { destruct ev; exact Ht. }
    { exact Hs. }
    { intros ->. exact Hnf. }
    cbn [Demux.andThen].
    destruct (IH st1 Ht1 Hs1) as (st2 & Hr & Ht2 & Hs2 & Hcb2 & Hin2).
    { destruct ev; try exact Hnf. contradiction. }
    exists st2. rewrite Hcb2, Hin2. auto.
Qed.

(** When nothing is left to do and the input has handed everything over,
    each stream carries the bytes of its source. *)
Lemma quiescent_delivered st :
  tracks crc16 n total st [] -> settled st -> Demux.quiescent st ->
  forall i, (i < n)%nat ->
    exists log, Demux.sinks st !! i = Some log /\ carried log = total i.
Proof.
  intros (pending & Hb & Hk & _ & _ & _ & Hs) [Hcp Him] [Hq0 Hq1] i Hi.
  rewrite app_nil_r in Hb.
  assert (Hp : pending = []).
  { destruct pending as [|f pending]; [reflexivity|]. exfalso.
    destruct Hk as (Hw & _ & _).
    assert (H : Parser.streamChunkParser (Demux.buffered st) <> None).
    { rewrite Hb, encodeChunks_cons.
      rewrite (streamChunkParser_encode n f _ n_fits Hw). discriminate. }
    apply Him in H. lia. }
  subst pending. destruct (Hs i Hi) as (log & Hl & _ & Hc).
  rewrite (proj1 Hcp Hq1) in Hc. cbn [payloadOf] in Hc.
  rewrite !app_nil_r in Hc. exists log. auto.
Qed.

End ChunkLoop.

(** ** Parsing the head written *)

Lemma readUInt8_shift (pre l : Buffer) k :
  readUInt8 (pre ++ l) (length pre + k) = readUInt8 l k.
Proof. unfold readUInt8. rewrite lookup_app_plus. reflexivity. Qed.

Lemma readUInt16LE_shift (pre l : Buffer) k :
  readUInt16LE (pre ++ l) (length pre + k) = readUInt16LE l k.
Proof.
  unfold readUInt16LE. rewrite <- Nat.add_assoc, !lookup_app_plus.
  reflexivity.
Qed.

Lemma readUInt32LE_shift (pre l : Buffer) k :
  readUInt32LE (pre ++ l) (length pre + k) = readUInt32LE l k.
Proof.
  unfold readUInt32LE. rewrite <- !Nat.add_assoc, !lookup_app_plus.
  reflexivity.
Qed.

Lemma readBytes_shift (pre l : Buffer) k len :
  readBytes (pre ++ l) (length pre + k) len = readBytes l k len.
Proof.
  unfold readBytes. rewrite length_app.
  replace (length pre + k + len <=? length pre + length l)%nat
    with (k + len <=? length l)%nat.
  2:{ destruct (Nat.leb_spec (k + len) (length l)),
        (Nat.leb_spec (length pre + k + len) (length pre + length l));
        auto; lia. }
  rewrite drop_app_ge by lia.
  replace (length pre + k - length pre)%nat with k by lia. reflexivity.
Qed.

Lemma readUInt32LE_at1 a b0 b1 b2 b3 rest :
  readUInt32LE (a :: b0 :: b1 :: b2 :: b3 :: rest) 1 =
    Some (byteToZ b0 + 256 * byteToZ b1 + 65536 * byteToZ b2
          + 16777216 * byteToZ b3).
Proof. reflexivity. Qed.

Lemma readBytes_at5 a b0 b1 b2 b3 d rest :
  readBytes (a :: b0 :: b1 :: b2 :: b3 :: d ++ rest) 5 (length d) = Some d.
Proof. exact (readBytes_app [a; b0; b1; b2; b3] d rest). Qed.

Lemma parseMeta_encode pre id rest :
  1 <= id <= 254 ->
  exists m,
    mkStreamMetaBuf id = Some m /\
    Parser.parseMeta (pre ++ m ++ rest) (length pre) =
      Some (metaOf id, (length pre + length m)%nat).
Proof.
  intros Hid. rewrite mkStreamMetaBuf_Some by exact Hid.
  eexists. split; [reflexivity|].
  pose proof (stringifyMeta_length id) as Hlen.
  unfold Parser.parseMeta. cbn [app].
  rewrite readUInt8_app. cbn [mbind option_bind].
  rewrite readUInt32LE_shift, readUInt32LE_at1. cbn [mbind option_bind].
  rewrite uint8_byte, uint32_bytes by lia.
  rewrite readBytes_shift, Nat2Z.id, readBytes_at5. cbn [mbind option_bind].
  unfold metaOf. f_equal. f_equal. cbn [length]. lia.
Qed.

Lemma parseMetas_encode ids : forall pre rest,
  Forall (fun id => 1 <= id <= 254) ids ->
  exists metas,
    Mux.mapThrow mkStreamMetaBuf ids = Some metas /\
    Parser.parseMetas (pre ++ concat metas ++ rest) (length pre) (length ids) =
      Some (map metaOf ids, (length pre + length (concat metas))%nat).
Proof.
  induction ids as [|id ids IH]; intros pre rest Hall.
  - exists []. split; [reflexivity|]. cbn. f_equal. f_equal. lia.
  - inversion Hall as [|? ? Hid Hall']; subst.
    destruct (parseMeta_encode pre id (concat [] ++ rest) Hid) as (m & Hm & _).
    destruct (IH (pre ++ m) rest Hall') as (ms & Hms & Hp).
    exists (m :: ms). cbn [Mux.mapThrow]. rewrite Hm. cbn [mbind option_bind].
    rewrite Hms. cbn [mbind option_bind]. split; [reflexivity|].
    cbn [length Parser.parseMetas concat].
    destruct (parseMeta_encode pre id (concat ms ++ rest) Hid)
      as (m' & Hm' & Hpm).
    rewrite Hm in Hm'. injection Hm' as <-.
    rewrite <- app_assoc. rewrite Hpm. cbn [mbind option_bind].
    rewrite <- length_app.
    replace (pre ++ m ++ concat ms ++ rest)
      with ((pre ++ m) ++ concat ms ++ rest) by (rewrite <- app_assoc; reflexivity).
    rewrite Hp. cbn [mbind option_bind map].
    rewrite !length_app. do 2 f_equal. lia.
Qed.

Lemma streamsMeta_length n : length (Mux.streamsMeta n) = n.
Proof. unfold Mux.streamsMeta. rewrite length_map, length_seq. reflexivity. Qed.

(** The head parser on the bytes of a head: the version, the length [len]
    on four bytes, the body (the number of streams, four bytes of time
    stamp, the metadata of the streams [ids]), the checksum [c] on two
    bytes; [tail] is what follows the head. *)
Lemma headParser_encode ids metas f0 f1 f2 f3 c tail :
  Forall (fun id => 1 <= id <= 254) ids ->
  (length ids <= 254)%nat ->
  Mux.mapThrow mkStreamMetaBuf ids = Some metas ->
  0 <= c <= 65535 ->
  let body := byteOfZ (Z.of_nat (length ids)) :: f0 :: f1 :: f2 :: f3
              :: concat metas in
  let len := Z.of_nat (length body) + 7 in
  len <= 4294967295 ->
  Parser.headParser
    (byteOfZ 1 :: byteOfZ len :: byteOfZ (len / 256) :: byteOfZ (len / 65536)
     :: byteOfZ (len / 16777216) :: body
     ++ byteOfZ c :: byteOfZ (c / 256) :: tail) =
  Some {| Parser.protocolVersion := 1; Parser.headerLen := len;
          Parser.numStreams := Z.of_nat (length ids);
          Parser.timestamp := [f0; f1; f2; f3];
          Parser.meta := map metaOf ids; Parser.crc := c |}.
Proof.
  intros Hall Hn Hm Hc body len Hlen.
  destruct (parseMetas_encode ids
              [byteOfZ 1; byteOfZ len; byteOfZ (len / 256);
               byteOfZ (len / 65536); byteOfZ (len / 16777216);
               byteOfZ (Z.of_nat (length ids)); f0; f1; f2; f3]
              (byteOfZ c :: byteOfZ (c / 256) :: tail) Hall)
    as (metas' & Hm' & Hp).
  rewrite Hm in Hm'. injection Hm' as <-.
  unfold Parser.headParser. subst body. cbn [app] in *.
  rewrite readUInt8_at0, readUInt32LE_at1. cbn [mbind option_bind].
  rewrite uint32_bytes by (cbn [length] in *; lia).
  destruct (Z.ltb_spec
              (Z.of_nat (length (byteOfZ 1 :: byteOfZ len :: byteOfZ (len / 256)
                 :: byteOfZ (len / 65536) :: byteOfZ (len / 16777216)
                 :: byteOfZ (Z.of_nat (length ids)) :: f0 :: f1 :: f2 :: f3
                 :: concat metas ++ byteOfZ c :: byteOfZ (c / 256) :: tail)))
              len) as [Hlt|_].
  { exfalso. subst len. cbn [length] in Hlt. rewrite length_app in Hlt.
    cbn [length] in Hlt. lia. }
  change (readUInt8 (?a0 :: ?a1 :: ?a2 :: ?a3 :: ?a4 :: ?a5 :: ?l) 5)
    with (Some (byteToZ a5)).
  cbn [mbind option_bind].
  change (readBytes (?a0 :: ?a1 :: ?a2 :: ?a3 :: ?a4 :: ?a5 :: ?l) 6 4)
    with (readBytes l 0 4).
  change (readBytes (f0 :: f1 :: f2 :: f3 :: ?l) 0 4)
    with (Some [f0; f1; f2; f3]).
  cbn [mbind option_bind].
  rewrite uint8_byte, uint8_byte by lia.
  rewrite Nat2Z.id. cbn [length] in Hp. rewrite Hp.
  cbn [mbind option_bind].
  match goal with
  | |- context [readUInt16LE (?a0 :: ?a1 :: ?a2 :: ?a3 :: ?a4 :: ?a5 :: ?a6
                              :: ?a7 :: ?a8 :: ?a9 :: ?ms ++ ?rest) ?k] =>
      change (readUInt16LE (a0 :: a1 :: a2 :: a3 :: a4 :: a5 :: a6 :: a7 :: a8
                            :: a9 :: ms ++ rest) k)
        with (readUInt16LE
                (([a0; a1; a2; a3; a4; a5; a6; a7; a8; a9] ++ ms) ++ rest)
                (length ([a0; a1; a2; a3; a4; a5; a6; a7; a8; a9] ++ ms)))
  end.
  rewrite readUInt16LE_app, uint16_bytes by lia. reflexivity.
Qed.

Lemma slice_mid buf s e :
  0 <= s <= e -> e <= Z.of_nat (length buf) ->
  slice buf s e = take (Z.to_nat (e - s)) (drop (Z.to_nat s) buf).
Proof.
  intros Hs He. unfold slice, clampIndex.
  destruct (Z.ltb_spec s 0); [lia|]. destruct (Z.ltb_spec e 0); [lia|].
  rewrite !Z.min_l by lia. reflexivity.
Qed.

Lemma zipObject_foldl_fresh (l : list (Z * nat)) (m : gmap Z nat) k :
  k ∉ l.*1 ->
  foldl (fun d kv => <[kv.1 := kv.2]> d) m l !! k = m !! k.
Proof.
  revert m. induction l as [|[k0 v0] l IH]; intros m Hk; cbn [foldl].
  - reflexivity.
  - cbn [fmap list_fmap fst] in Hk. apply not_elem_of_cons in Hk as [Hne Hk].
    rewrite IH by exact Hk. cbn [fst snd].
    apply lookup_insert_ne. congruence.
Qed.

Lemma zipObject_foldl_lookup (l : list (Z * nat)) (m : gmap Z nat) k v :
  NoDup l.*1 -> (k, v) ∈ l ->
  foldl (fun d kv => <[kv.1 := kv.2]> d) m l !! k = Some v.
Proof.
  revert m. induction l as [|[k0 v0] l IH]; intros m Hnd Hin; cbn [foldl].
  - inversion Hin.
  - cbn [fmap list_fmap fst] in Hnd. apply NoDup_cons in Hnd as [Hk0 Hnd].
    apply elem_of_cons in Hin as [[= -> ->]|Hin].
    + rewrite zipObject_foldl_fresh by exact Hk0. cbn [fst snd].
      apply lookup_insert_eq.
    + apply IH; assumption.
Qed.

(** The dictionary of a head that declares the streams 1 to [n]. *)
Lemma zipObject_streams n i :
  (i < n)%nat ->
  Demux.zipObject (Mux.streamsMeta n) (seq 0 n) !! (Z.of_nat i + 1) = Some i.
Proof.
  intros Hi. unfold Demux.zipObject. apply zipObject_foldl_lookup.
  - rewrite fst_zip by (rewrite streamsMeta_length, length_seq; lia).
    unfold Mux.streamsMeta. apply NoDup_fmap_2.
    + intros a b H. lia.
    + apply NoDup_seq.
  - apply list_elem_of_lookup. exists i. apply lookup_zip_with_Some.
    exists (Z.of_nat i + 1), i. split; [reflexivity|].
    split; [|apply lookup_seq; lia].
    unfold Mux.streamsMeta. rewrite list_lookup_fmap.
    rewrite lookup_seq_lt by lia. reflexivity.
Qed.

Lemma mapThrow_parseJSON (parseJSON : Buffer -> option Json) ids :
  (forall id, 1 <= id <= 254 -> is_Some (parseJSON (stringifyMeta id))) ->
  Forall (fun id => 1 <= id <= 254) ids ->
  is_Some (Mux.mapThrow parseJSON (map Parser.metaString (map metaOf ids))).
Proof.
  intros Hj. induction 1 as [|id ids Hid _ [metadata IH]];
    cbn [Mux.mapThrow map Parser.metaString metaOf].
  - eauto.
  - destruct (Hj id Hid) as [j ->]. cbn [mbind option_bind]. rewrite IH.
    cbn [mbind option_bind]. eauto.
Qed.

Lemma lookup_repeat {A} (x : A) (n i : nat) :
  (i < n)%nat -> repeat x n !! i = Some x.
Proof.
  revert i. induction n as [|n IH]; intros [|i] Hi; try lia.
  - reflexivity.
  - cbn [repeat]. apply IH. lia.
Qed.

Section HeadStage.

Variable crc16 : Buffer -> Z -> Z.
Variable parseJSON : Buffer -> option Json.
Variable n : nat.
Hypothesis crc16_uint16 : uint16 crc16.
Hypothesis n_fits : (n <= 254)%nat.
Hypothesis parseJSON_meta :
  forall id, 1 <= id <= 254 -> is_Some (parseJSON (stringifyMeta id)).
Variable endable : bool.
Variable heard : nat -> bool.

(** The four writes of the head. *)
Lemma multiplexStreams_body start body :
  Mux.headerBuf n start = Some body ->
  (length body <= 5 + 267 * n)%nat ->
  Mux.multiplexStreams crc16 n start =
    Some ({| Mux.lastMsgTime := start; Mux.crc := 0;
             Mux.crcProcessedBytes := 0; Mux.streamsAlive := Z.of_nat n;
             Mux.canWrite := true; Mux.listening := repeat true n;
             Mux.interval := true |},
          [Write [byteOfZ 1];
           Write [byteOfZ (Z.of_nat (length body) + 7);
                  byteOfZ ((Z.of_nat (length body) + 7) / 256);
                  byteOfZ ((Z.of_nat (length body) + 7) / 65536);
                  byteOfZ ((Z.of_nat (length body) + 7) / 16777216)];
           Write body;
           Write [byteOfZ (crc16 body 0); byteOfZ (crc16 body 0 / 256)]]).
Proof.
  intros Hbody Hlen. unfold Mux.multiplexStreams.
  destruct (Nat.ltb_spec 254 n); [lia|].
  rewrite Hbody. cbn [mbind option_bind].
  unfold mkBuf8, mkBuf32le, mkBuf16le.
  rewrite writeUInt8_Some by lia. cbn [mbind option_bind].
  rewrite writeUInt32LE_Some by lia. cbn [mbind option_bind].
  rewrite writeUInt16LE_Some by (apply crc16_uint16; lia).
  reflexivity.
Qed.

Lemma headerBuf_body start :
  exists metas f0 f1 f2 f3,
    Mux.mapThrow mkStreamMetaBuf (Mux.streamsMeta n) = Some metas /\
    Mux.headerBuf n start =
      Some (byteOfZ (Z.of_nat n) :: f0 :: f1 :: f2 :: f3 :: concat metas) /\
    (length (concat metas) <= 267 * n)%nat.
Proof.
  destruct (headerBuf_Some n start n_fits) as (metas & Hm & Hbody & Hlen).
  exists metas. do 4 eexists. split; [exact Hm|]. split; [exact Hbody|exact Hlen].
Qed.


(** [parseBufferWrapped] on a buffer that holds a whole head whose
    checksum is right and whose metadata parses. *)
Lemma parseBufferWrapped_head now st h metadata :
  Demux.parsedHead st = false ->
  Demux.unprocessedChunks st = [] ->
  Parser.headParser (Demux.buffered st) = Some h ->
  Parser.crc h =
    crc16 (slice (Demux.buffered st) 5 (Parser.headerLen h - 2)) 0 ->
  Mux.mapThrow parseJSON (map Parser.metaString (Parser.meta h)) =
    Some metadata ->
  Demux.parseBufferWrapped crc16 parseJSON false endable heard now st =
    Demux.Returned
      {| Demux.buffered := sliceFrom (Demux.buffered st) (Parser.headerLen h);
         Demux.parsedHead := true;
         Demux.head := Some h;
         Demux.streamDict :=
           Demux.zipObject (map Parser.metaStreamId (Parser.meta h))
             (seq (length (Demux.sinks st)) (length (Parser.meta h)));
         Demux.unprocessedChunks := [];
         Demux.chunksCrc := Demux.chunksCrc st;
         Demux.chunkProcessor := None;
         Demux.lastChunkSent := Demux.lastChunkSent st;
         Demux.sinks :=
           Demux.sinks st ++ repeat [] (length (Parser.meta h));
         Demux.input := Demux.input st;
         Demux.immediates := S (Demux.immediates st);
         Demux.callbacks :=
           Demux.callbacks st
           ++ [Demux.Ready
                 (seq (length (Demux.sinks st)) (length (Parser.meta h)))
                 metadata] |}.
Proof.
  intros Hph Hq Hh Hc Hj. destruct st as [b ph hd d q cc cp ls sk inp im cb].
  demux_simpl. subst ph q.
  unfold Demux.parseBufferWrapped, Demux.parseBuffer. demux_simpl.
  destruct b as [|b0 b]; [discriminate Hh|].
  unfold Demux.parseHead. demux_simpl. rewrite Hh.
  demux_simpl. rewrite <- Hc, Z.eqb_refl. cbn [negb]. demux_simpl.
  rewrite Hj. demux_simpl.
  unfold Demux.processChunks. demux_simpl. reflexivity.
Qed.

Lemma head_stage now start st0 ops tail rest fs :
  Mux.multiplexStreams crc16 n start = Some (st0, ops) ->
  tail ++ rest = encodeChunks fs ->
  consistent crc16 n 0 fs ->
  exists st1 metadata,
    Demux.step crc16 parseJSON false endable heard now
      (Demux.Data (concat (writes ops) ++ tail)) Demux.initial =
      Demux.Returned st1 /\
    tracks crc16 n (fun i => payloadOf (Z.of_nat i + 1) fs) st1 rest /\
    settled st1 /\
    Demux.callbacks st1 = [Demux.Ready (seq 0 n) metadata] /\
    Demux.input st1 = [].
Proof.
  intros Hmux Htail Hk.
  destruct (headerBuf_body start) as (metas & f0 & f1 & f2 & f3 & Hm & Hbody & Hlen).
  rewrite (multiplexStreams_body start _ Hbody) in Hmux
    by (cbn [length]; lia).
  injection Hmux as _ <-.
  pose proof (streamsMeta_range n n_fits) as Hids.
  destruct (mapThrow_parseJSON parseJSON _ parseJSON_meta Hids)
    as [metadata Hj].
  pose proof (headParser_encode (Mux.streamsMeta n) metas f0 f1 f2 f3
                (crc16 (byteOfZ (Z.of_nat n) :: f0 :: f1 :: f2 :: f3
                        :: concat metas) 0) tail Hids) as Hh.
  rewrite streamsMeta_length in Hh.
  specialize (Hh n_fits Hm (crc16_uint16 _ 0 ltac:(lia))).
  cbv zeta in Hh. specialize (Hh ltac:(cbn [length]; lia)).
  revert Hh.
  set (body := byteOfZ (Z.of_nat n) :: f0 :: f1 :: f2 :: f3 :: concat metas).
  set (len := Z.of_nat (length body) + 7).
  set (c := crc16 body 0).
  intros Hh.
  assert (Hblen : Z.of_nat (length body) = len - 7) by (subst len; lia).
  assert (Hwire :
    concat (writes
      [Write [byteOfZ 1];
       Write [byteOfZ len; byteOfZ (len / 256); byteOfZ (len / 65536);
              byteOfZ (len / 16777216)];
       Write body; Write [byteOfZ c; byteOfZ (c / 256)]]) ++ tail =
    byteOfZ 1 :: byteOfZ len :: byteOfZ (len / 256) :: byteOfZ (len / 65536)
    :: byteOfZ (len / 16777216) :: body
    ++ byteOfZ c :: byteOfZ (c / 256) :: tail).
  { cbn [writes concat app]. rewrite <- !app_assoc. reflexivity. }
  change (Z.of_nat (S (S (S (S (S (length (concat metas))))))) + 7) with len.
  rewrite Hwire. clear Hwire. revert Hh.
  generalize (byteOfZ 1) (byteOfZ len) (byteOfZ (len / 256))
    (byteOfZ (len / 65536)) (byteOfZ (len / 16777216))
    (byteOfZ c) (byteOfZ (c / 256)).
  intros v l0 l1 l2 l3 c0 c1 Hh.
  assert (Hge : 5 <= len) by lia.
  assert (Hc : c = crc16 body 0) by reflexivity.
  clearbody body len c.
  set (b := v :: l0 :: l1 :: l2 :: l3 :: body ++ c0 :: c1 :: tail) in *.
  assert (Hslice : slice b 5 (len - 2) = body).
  { rewrite slice_mid.
    - subst b. change (Z.to_nat 5) with 5%nat. cbn [drop].
      replace (Z.to_nat (len - 2 - 5)) with (length body) by lia.
      apply take_app_length.
    - lia.
    - subst b. cbn [length]. rewrite length_app. cbn [length]. lia. }
  assert (Hfrom : sliceFrom b len = tail).
  { rewrite sliceFrom_drop by lia. subst b.
    replace (Z.to_nat len) with (5 + (length body + 2))%nat by lia.
    cbn [drop Nat.add].
    replace (body ++ c0 :: c1 :: tail) with ((body ++ [c0; c1]) ++ tail)
      by (rewrite <- app_assoc; reflexivity).
    replace (length body + 2)%nat with (length (body ++ [c0; c1]))
      by (rewrite length_app; reflexivity).
    apply drop_app_length. }
  assert (Hmeta : map Parser.metaStreamId (map metaOf (Mux.streamsMeta n))
                  = Mux.streamsMeta n).
  { rewrite map_map. cbn [metaOf Parser.metaStreamId]. apply map_id. }
  clearbody b. cbn [Demux.step].
  change (Demux.buffered Demux.initial ++ b) with b.
  rewrite (parseBufferWrapped_head now (Demux.setBuffered b Demux.initial)
             _ metadata eq_refl eq_refl Hh).
  2:{ cbn [Parser.crc Parser.headerLen]. demux_simpl.
      rewrite Hslice. exact Hc. }
  2:{ exact Hj. }
  cbn [Parser.meta Parser.headerLen]. demux_simpl.
  cbn [Demux.initial app length]. demux_simpl.
  rewrite Hfrom, Hmeta, length_map, streamsMeta_length.
  eexists. exists metadata. split; [reflexivity|].
  split; [|split; [|split; reflexivity]].
  - exists fs. demux_simpl.
    split; [exact Htail|]. split; [exact Hk|]. split; [reflexivity|].
    split; [intros i Hi; apply zipObject_streams, Hi|].
    split; [constructor|].
    intros i Hi. exists []. demux_simpl.
    split; [apply (lookup_repeat (A := list StreamOp)), Hi|].
    split; [constructor|].
    reflexivity.
  - split; [split; reflexivity|]. demux_simpl. lia.
Qed.

End HeadStage.

(** ** The event loop comes to rest *)

Section Drain.

Variable crc16 : Buffer -> Z -> Z.
Variable n : nat.
Hypothesis n_fits : (n <= 254)%nat.
Variable total : nat -> Buffer.
Variable parseJSON : Buffer -> option Json.
Variable endable : bool.
Variable heard : nat -> bool.

Lemma parseChunks_backlog fuel : forall st st',
  Demux.parseChunks crc16 fuel st = Demux.Returned st' ->
  (length (Demux.unprocessedChunks st') + length (Demux.buffered st')
   <= length (Demux.unprocessedChunks st) + length (Demux.buffered st))%nat.
Proof.
  induction fuel as [|fuel IH]; intros st st'; cbn [Demux.parseChunks].
  - intros [= <-]. lia.
  - destruct (Parser.streamChunkParser (Demux.buffered st)) as [c|] eqn:Ep.
    2:{ intros [= <-]. lia. }
    pose proof (chunkBufSize_bounds _ _ Ep) as Hsz.
    destruct (Z.eqb_spec (Parser.streamId c) 0) as [Hz|Hnz]; cbn [andb].
    + destruct (negb _); [discriminate|]. intros H. apply IH in H.
      demux_simpl. rewrite sliceFrom_drop, length_drop in H by lia. lia.
    + intros H. apply IH in H. demux_simpl.
      rewrite sliceFrom_drop, length_drop, length_app in H by lia.
      cbn [length] in H. lia.
Qed.

(** Once the input has handed everything over, a buffer that does not
    start with a whole chunk is empty. *)
Lemma tracks_drained st :
  tracks crc16 n total st [] ->
  Parser.streamChunkParser (Demux.buffered st) = None ->
  Demux.buffered st = [].
Proof.
  intros (pending & Hb & Hk & _) Hnone. rewrite app_nil_r in Hb.
  destruct pending as [|f pending]; [exact Hb|]. exfalso.
  destruct Hk as (Hw & _ & _).
  rewrite Hb, encodeChunks_cons in Hnone.
  rewrite (streamChunkParser_encode n f _ n_fits Hw) in Hnone. discriminate.
Qed.

Lemma parseBufferWrapped_backlog now st :
  tracks crc16 n total st [] ->
  (Demux.chunkProcessor st = None <-> Demux.unprocessedChunks st = []) ->
  exists st',
    Demux.parseBufferWrapped crc16 parseJSON false endable heard now st =
      Demux.Returned st' /\
    match Demux.buffered st with
    | [] => st' = st
    | _ :: _ =>
        Demux.immediates st' = S (Demux.immediates st) /\
        Demux.buffered st' = [] /\
        (length (Demux.unprocessedChunks st')
         < length (Demux.unprocessedChunks st) + length (Demux.buffered st))%nat
    end.
Proof.
  intros Ht Hcp. unfold Demux.parseBufferWrapped, Demux.parseBuffer.
  destruct (Demux.buffered st) as [|b0 b] eqn:Eb.
  { exists st. split; reflexivity. }
  assert (Hph : Demux.parsedHead st = true)
    by (destruct Ht as (? & _ & _ & H & _); exact H).
  rewrite Hph. cbn [negb]. rewrite <- Eb.
  destruct (parseChunks_tracks crc16 n n_fits total
              (length (Demux.buffered st)) st [] Ht ltac:(lia))
    as (st1 & Hr1 & Ht1 & Hnone & _ & Him1 & _).
  rewrite Hr1. apply parseChunks_backlog in Hr1.
  pose proof (tracks_drained st1 Ht1 Hnone) as Hb1.
  cbn [Demux.andThen].
  destruct (processChunks_tracks crc16 n n_fits total now
              (Demux.setChunkProcessor None st1) [])
    as (st2 & Hr2 & _ & _ & Hq2 & Hb2 & Him2 & _).
  { destruct Ht1 as (pending & H). exists pending. demux_simpl. exact H. }
  rewrite Hr2. cbn [Demux.andThen]. eexists. split; [reflexivity|].
  demux_simpl. rewrite Hb2, Him2, Hq2, Hb1, Him1.
  split; [reflexivity|]. split; [reflexivity|].
  rewrite Hb1 in Hr1. rewrite Eb in *. cbn [length] in *.
  destruct (Demux.unprocessedChunks st1); cbn [tail length] in *; lia.
Qed.

(** A [setImmediate] callback that runs takes from the backlog. *)
Lemma immediate_backlog now st :
  tracks crc16 n total st [] -> settled st ->
  exists st',
    Demux.step crc16 parseJSON false endable heard now Demux.Immediate st
      = Demux.Returned st' /\
    match Demux.immediates st with
    | O => st' = st
    | S _ => (backlog st' < backlog st)%nat
    end.
Proof.
  intros Ht [Hcp _]. cbn [Demux.step].
  destruct (Demux.immediates st) as [|m] eqn:Em.
  { exists st. split; reflexivity. }
  destruct (parseBufferWrapped_backlog now (Demux.setImmediates m st))
    as (st' & Hr & Hm).
  { destruct Ht as (pending & H). exists pending. demux_simpl. exact H. }
  { demux_simpl. exact Hcp. }
  exists st'. split; [exact Hr|]. unfold backlog. demux_simpl. rewrite Em.
  destruct (Demux.buffered st) as [|b0 b] eqn:Eb.
  - subst st'. demux_simpl. rewrite Eb. lia.
  - destruct Hm as (-> & -> & Hq). cbn [length] in *. lia.
Qed.

(** A timeout that fires takes a chunk off the queue. *)
Lemma timeout_backlog now st :
  tracks crc16 n total st [] -> settled st ->
  exists st',
    Demux.step crc16 parseJSON false endable heard now Demux.Timeout st
      = Demux.Returned st' /\
    match Demux.unprocessedChunks st with
    | [] => st' = st
    | _ :: _ => (backlog st' < backlog st)%nat
    end.
Proof.
  intros Ht [Hcp _]. cbn [Demux.step].
  destruct (Demux.chunkProcessor st) as [t|] eqn:Et.
  - destruct (processChunks_tracks crc16 n n_fits total now st [] Ht)
      as (st' & Hr & _ & _ & Hq & Hb & Him & _).
    exists st'. split; [exact Hr|]. unfold backlog. rewrite Hq, Hb, Him.
    destruct (Demux.unprocessedChunks st); cbn [tail length]; [|lia].
    destruct Hcp as [_ Hcp]. discriminate (Hcp eq_refl).
  - exists st. split; [reflexivity|].
    rewrite (proj1 Hcp eq_refl). reflexivity.
Qed.

(** One turn of the event loop with nothing new on the input. *)
Lemma drain_round now st :
  tracks crc16 n total st [] -> settled st ->
  exists st',
    Demux.run crc16 parseJSON false endable heard (drain now 1) st = Demux.Returned st' /\
    tracks crc16 n total st' [] /\ settled st' /\
    Demux.callbacks st' = Demux.callbacks st /\
    Demux.input st' = Demux.input st /\
    (backlog st' <= pred (backlog st))%nat.
Proof.
  intros Ht Hs. cbn [drain Demux.run].
  destruct (step_tracks crc16 n n_fits total parseJSON endable heard now Demux.Immediate
              st [] Ht Hs ltac:(discriminate))
    as (st1 & Hr1 & Ht1 & Hs1 & Hcb1 & Hin1).
  destruct (immediate_backlog now st Ht Hs) as (st1' & Hr1' & Hm1).
  rewrite Hr1 in Hr1'. injection Hr1' as <-.
  rewrite Hr1. cbn [Demux.andThen].
  destruct (step_tracks crc16 n n_fits total parseJSON endable heard now Demux.Timeout
              st1 [] Ht1 Hs1 ltac:(discriminate))
    as (st2 & Hr2 & Ht2 & Hs2 & Hcb2 & Hin2).
  destruct (timeout_backlog now st1 Ht1 Hs1) as (st2' & Hr2' & Hm2).
  rewrite Hr2 in Hr2'. injection Hr2' as <-.
  rewrite Hr2. cbn [Demux.andThen]. exists st2.
  split; [reflexivity|]. split; [exact Ht2|]. split; [exact Hs2|].
  split; [congruence|]. split; [congruence|].
  destruct (Demux.immediates st) as [|m] eqn:Em.
  - subst st1.
    assert (Hb : Demux.buffered st = []).
    { apply tracks_drained; [exact Ht|].
      destruct (Parser.streamChunkParser (Demux.buffered st)) eqn:Ep;
        [|reflexivity].
      destruct Hs as [_ Him]. rewrite Ep, Em in Him.
      specialize (Him ltac:(discriminate)). lia. }
    destruct (Demux.unprocessedChunks st) eqn:Eq.
    + subst st2. unfold backlog. rewrite Em, Eq, Hb. cbn. lia.
    + lia.
  - destruct (Demux.unprocessedChunks st1); [subst st2|]; lia.
Qed.

(** Left alone, the event loop comes to rest within [backlog] turns, and
    stays at rest. *)
Lemma drain_quiescent now k : forall st,
  tracks crc16 n total st [] -> settled st ->
  (backlog st <= k)%nat ->
  exists st',
    Demux.run crc16 parseJSON false endable heard (drain now k) st = Demux.Returned st' /\
    tracks crc16 n total st' [] /\ settled st' /\
    Demux.quiescent st' /\
    Demux.callbacks st' = Demux.callbacks st /\
    Demux.input st' = Demux.input st.
Proof.
  induction k as [|k IH]; intros st Ht Hs Hk.
  - exists st. cbn [drain Demux.run]. split; [reflexivity|].
    split; [exact Ht|]. split; [exact Hs|]. split; [|auto].
    unfold backlog in Hk. split; [lia|]. apply Hs.
    destruct (Demux.unprocessedChunks st); [reflexivity|cbn in Hk; lia].
  - destruct (drain_round now st Ht Hs)
      as (st1 & Hr1 & Ht1 & Hs1 & Hcb1 & Hin1 & Hm).
    destruct (IH st1 Ht1 Hs1 ltac:(lia))
      as (st2 & Hr2 & Ht2 & Hs2 & Hq2 & Hcb2 & Hin2).
    exists st2. rewrite Hcb2, Hin2.
    split; [|split; [exact Ht2|]; split; [exact Hs2|]; split; [exact Hq2|];
             split; assumption].
    change (drain now (S k)) with (drain now 1 ++ drain now k).
    cbn [drain app Demux.run] in *.
    destruct (Demux.step crc16 parseJSON false endable heard now Demux.Immediate st)
      as [sa|e sa]; cbn [Demux.andThen] in *; [|discriminate].
    destruct (Demux.step crc16 parseJSON false endable heard now Demux.Timeout sa)
      as [sb|e sb]; cbn [Demux.andThen] in *; [|discriminate].
    injection Hr1 as ->. exact Hr2.
Qed.

End Drain.

Lemma demux_run_app crc16 parseJSON real endable heard evs1 :
  forall evs2 st,
  Demux.run crc16 parseJSON real endable heard (evs1 ++ evs2) st =
  Demux.andThen (Demux.run crc16 parseJSON real endable heard evs1 st)
    (Demux.run crc16 parseJSON real endable heard evs2).
Proof.
  induction evs1 as [|[now ev] evs1 IH]; intros evs2 st;
    cbn [app Demux.run]; [reflexivity|].
  destruct (Demux.step crc16 parseJSON real endable heard now ev st)
    as [st1|e st1];
    cbn [Demux.andThen]; [apply IH|reflexivity].
Qed.

(** ** The round trip *)

(** X18.  What [n] sources hand to the multiplexer comes out of the
    demultiplexer, stream by stream, when the first ['data'] event holds
    the whole head: however the bytes after it are cut into ['data']
    events, and whenever the callbacks and timeouts run in between, the
    demultiplexer calls back once with [n] streams, throws nothing, comes
    to rest when it is left alone, and at rest each stream has carried the
    bytes of its source, in order. *)
Theorem roundtrip_whole_head crc16 parseJSON endable heard cfg n start evs
    st0 head st out tail post t0 :
  uint16 crc16 -> chains crc16 ->
  (forall id, 1 <= id <= 254 -> is_Some (parseJSON (stringifyMeta id))) ->
  Mux.multiplexStreams crc16 n start = Some (st0, head) ->
  Mux.run crc16 cfg evs st0 = Some (st, out) ->
  orderly (repeat true n) evs ->
  tail ++ fed post = concat (writes out) ->
  noFinish post ->
  exists k metadata, forall j now, (k <= j)%nat ->
    exists st',
      Demux.run crc16 parseJSON false endable heard
        ((t0, Demux.Data (concat (writes head) ++ tail))
         :: post ++ drain now j) Demux.initial = Demux.Returned st' /\
      Demux.quiescent st' /\
      Demux.callbacks st' = [Demux.Ready (seq 0 n) metadata] /\
      Demux.input st' = [] /\
      forall i, (i < n)%nat ->
        exists log,
          Demux.sinks st' !! i = Some log /\ carried log = emitted i evs.
Proof.
  intros Hu Hc Hj Hmux Hrun Hord Hfed Hnf.
  assert (n_fits : (n <= 254)%nat).
  { unfold Mux.multiplexStreams in Hmux.
    destruct (Nat.ltb_spec 254 n); [discriminate|lia]. }
  destruct (multiplexStreams_Some crc16 Hu n start n_fits)
    as (head' & Hmux' & _).
  rewrite Hmux in Hmux'. injection Hmux' as -> _.
  destruct (run_framed crc16 Hu Hc cfg n evs _ _ _ Hrun)
    as (fs & Hout & Hk & Hpay);
    [reflexivity|apply repeat_length|cbn; lia|exact Hord|].
  cbn [Mux.crc] in Hk. rewrite Hout in Hfed.
  destruct (head_stage crc16 parseJSON n Hu n_fits Hj endable heard t0 start _ _ tail
              (fed post) fs Hmux Hfed Hk)
    as (st1 & metadata & Hr1 & Ht1 & Hs1 & Hcb1 & Hin1).
  destruct (run_tracks crc16 n n_fits _ parseJSON endable heard post st1 Ht1 Hs1 Hnf)
    as (st2 & Hr2 & Ht2 & Hs2 & Hcb2 & Hin2).
  exists (backlog st2), metadata. intros j now Hj'.
  destruct (drain_quiescent crc16 n n_fits _ parseJSON endable heard now j st2 Ht2 Hs2 Hj')
    as (st3 & Hr3 & Ht3 & Hs3 & Hq3 & Hcb3 & Hin3).
  exists st3. cbn [Demux.run]. rewrite Hr1. cbn [Demux.andThen].
  rewrite demux_run_app, Hr2. cbn [Demux.andThen].
  split; [exact Hr3|]. split; [exact Hq3|].
  split; [congruence|]. split; [congruence|].
  intros i Hi.
  destruct (quiescent_delivered crc16 n n_fits _ st3 Ht3 Hs3 Hq3 i Hi)
    as (log & Hl & Hcar).
  exists log. split; [exact Hl|]. rewrite Hcar. apply Hpay.
Qed.

(** *** The round trip run *)

Lemma crc16_ccitt_chains : chains crc16_ccitt.
Proof. intros a b seed. apply fold_left_app. Qed.

Lemma parseIdObject_meta (id : Z) :
  1 <= id <= 254 -> is_Some (parseIdObject (stringifyMeta id)).
Proof.
  intros Hid.
  assert (H : forallb (fun k => match parseIdObject (stringifyMeta k) with
                                | Some _ => true
                                | None => false
                                end)
                (Mux.streamsMeta 254) = true) by (vm_compute; reflexivity).
  rewrite forallb_forall in H. specialize (H id).
  destruct (parseIdObject (stringifyMeta id)); [eauto|].
  discriminate H. unfold Mux.streamsMeta.
  apply in_map_iff. exists (Z.to_nat (id - 1)). split; [lia|].
  apply in_seq. lia.
Qed.

(** The session of [exampleEvents] comes out of the demultiplexer when
    the head is handed over whole, here with the first three bytes of the
    data frame, and the rest in a second piece. *)
Example roundtrip_whole_head_example :
  exists k metadata, forall j now, (k <= j)%nat ->
    exists st' log,
      Demux.run crc16_ccitt parseIdObject false true attended
        ((1000, Demux.Data (exampleHead ++ [x01; x0a; x00]))
         :: [(1002, Demux.Immediate);
             (1003, Demux.Data [x01; x41; x00; x0a; x00; x2e; xa9]);
             (1004, Demux.Timeout)]
         ++ drain now j) Demux.initial = Demux.Returned st' /\
      Demux.quiescent st' /\
      Demux.callbacks st' = [Demux.Ready [0%nat] metadata] /\
      Demux.sinks st' !! 0%nat = Some log /\ carried log = [x41].
Proof.
  assert (H : exists st0 head st out,
            Mux.multiplexStreams crc16_ccitt 1 1000 = Some (st0, head) /\
            Mux.run crc16_ccitt Mux.defaults exampleEvents st0
              = Some (st, out) /\
            concat (writes head) = exampleHead /\
            [x01; x0a; x00]
            ++ fed [(1002, Demux.Immediate);
                    (1003, Demux.Data [x01; x41; x00; x0a; x00; x2e; xa9]);
                    (1004, Demux.Timeout)] = concat (writes out)).
  { do 4 eexists. split; [vm_compute; reflexivity|].
    split; [vm_compute; reflexivity|]. split; vm_compute; reflexivity. }
  destruct H as (st0 & head & st & out & Hm & Hr & Hhead & Hfed).
  destruct (roundtrip_whole_head crc16_ccitt parseIdObject true attended
              Mux.defaults 1 1000
              exampleEvents st0 head st out [x01; x0a; x00] _ 1000
              crc16_ccitt_uint16 crc16_ccitt_chains parseIdObject_meta
              Hm Hr ltac:(cbn; auto) Hfed ltac:(exact I))
    as (k & metadata & H).
  exists k, metadata. intros j now Hj.
  destruct (H j now Hj) as (st' & Hrun & Hq & Hcb & _ & Hs).
  destruct (Hs 0%nat ltac:(lia)) as (log & Hl & Hc).
  exists st', log. rewrite Hhead in Hrun. auto.
Defined.

(** ** The head in pieces *)

(** C1, on the code.  The stream that [multiplexStreams] returns holds the
    four writes of the head apart, and hands them to a ['data'] listener
    one write an event.  Handed to [demultiplexStream] so, whatever the
    sources, the first event holds the version byte alone: the head parser
    refuses it, and the [HeaderParseError] leaves the listener uncaught,
    before any stream is made and before the caller is called back. *)
Theorem roundtrip_stops_at_split_head crc16 parseJSON endable heard cfg n
    start evs st out (sched : list (Z * Demux.Event)) :
  Mux.session crc16 cfg n start evs = Some (st, out) ->
  map snd sched = map Demux.Data (writes out) ->
  Demux.run crc16 parseJSON false endable heard sched Demux.initial =
    Demux.Thrown HeaderParseError (Demux.setBuffered [x01] Demux.initial).
Proof.
  unfold Mux.session. intros Hs Hsched.
  destruct (Mux.multiplexStreams crc16 n start) as [[st0 head]|] eqn:Hm;
    [|discriminate].
  cbn [mbind option_bind] in Hs.
  destruct (Mux.run crc16 cfg evs st0) as [[st1 out1]|]; [|discriminate].
  injection Hs as _ <-.
  destruct (multiplexStreams_inv _ _ _ _ _ Hm)
    as (_ & _ & version & len & body & check & -> & ->).
  cbn [writes app map] in Hsched.
  destruct sched as [|[t ev] sched]; [discriminate|].
  cbn [map snd] in Hsched. injection Hsched as -> _.
  reflexivity.
Qed.

Lemma roundtrip_stops_at_split_head_witness :
  exists st out,
    Mux.session crc16_ccitt Mux.defaults 1 1000 exampleEvents
      = Some (st, out) /\
    Demux.run crc16_ccitt parseIdObject false true attended
      (map (fun buf => (1000, Demux.Data buf)) (writes out)) Demux.initial =
    Demux.Thrown HeaderParseError (Demux.setBuffered [x01] Demux.initial).
Proof.
  destruct (Mux.session crc16_ccitt Mux.defaults 1 1000 exampleEvents)
    as [[st out]|] eqn:E; [|vm_compute in E; discriminate].
  exists st, out. split; [reflexivity|].
  apply (roundtrip_stops_at_split_head crc16_ccitt parseIdObject true attended
           Mux.defaults
           1 1000 exampleEvents st out _ E).
  rewrite map_map. reflexivity.
Defined.

(** * Further properties *)

(** ** More on the buffer builders *)

(** X1.  [mkStreamChunkBuf] throws exactly when the stream id does not fit one
    byte or the offset does not fit two: whatever the payload, empty or
    longer than 255 bytes, the recursion on the slices cut off ends at
    once and no other write is refused. *)
Theorem mkStreamChunkBuf_throws_iff (chunk : Buffer) (streamId offset : Z) :
  is_Some (mkStreamChunkBuf chunk streamId offset) <->
  0 <= streamId <= 255 /\ 0 <= offset <= 65535.
Proof.
  split.
  - intros [buf H]. exact (mkStreamChunkBuf_inv _ _ _ _ H).
  - intros [Hs Ho].
    destruct (mkStreamChunkBuf_split chunk streamId offset Hs Ho)
      as (head & conts & -> & _). eauto.
Qed.

Lemma length_continuations (streamId : Z) (conts : list Buffer) :
  Forall (fun c => length c = 255%nat) conts ->
  length (concat (map (dataFrameBytes streamId 0) conts))
  = (259 * length conts)%nat.
Proof.
  induction 1 as [|c conts Hc _ IH]; [reflexivity|].
  cbn [map concat]. rewrite length_app, IH. unfold dataFrameBytes.
  rewrite length_app. cbn [length]. lia.
Qed.

(** X2.  The buffer that [mkStreamChunkBuf] builds holds the payload and four
    more bytes for each frame: one frame for a payload of at most 255
    bytes, and one more for every further 255 bytes or part of them. *)
Theorem mkStreamChunkBuf_length (chunk : Buffer) (streamId offset : Z)
    (buf : Buffer) :
  mkStreamChunkBuf chunk streamId offset = Some buf ->
  length buf = (length chunk + 4 * (1 + (length chunk - 1) / 255))%nat.
Proof.
  intros H. destruct (mkStreamChunkBuf_inv _ _ _ _ H) as [Hs Ho].
  destruct (mkStreamChunkBuf_split chunk streamId offset Hs Ho)
    as (head & conts & Heq & Hcat & Hh & Hall & Hpos).
  rewrite H in Heq. injection Heq as ->.
  cbn [length]. rewrite length_app, (length_continuations _ _ Hall).
  pose proof (length_concat_255 conts Hall) as Hlen.
  assert (Htot : length chunk = (length head + 255 * length conts)%nat).
  { rewrite <- Hcat, length_app, Hlen. reflexivity. }
  assert (Hk : ((length chunk - 1) / 255 = length conts)%nat).
  { destruct conts as [|c conts].
    - cbn [length] in *. apply Nat.div_small. lia.
    - assert (0 < length head)%nat by (apply Hpos; discriminate).
      symmetry. apply (Nat.div_unique _ _ _ (length head - 1)); lia. }
  rewrite Hk. lia.
Qed.

Lemma mkStreamChunkBuf_length_witness :
  exists buf,
    mkStreamChunkBuf (repeat x41 600) 1 300 = Some buf /\
    length buf = 612%nat.
Proof.
  destruct (mkStreamChunkBuf (repeat x41 600) 1 300) as [buf|] eqn:E;
    [|vm_compute in E; discriminate].
  exists buf. split; [reflexivity|].
  rewrite (mkStreamChunkBuf_length (repeat x41 600) 1 300 buf E).
  reflexivity.
Defined.

(** ** More on the head *)

(** X3.  [multiplexStreams] throws exactly when it is given more than 254
    streams: with at most 254, every write of the head is in range. *)
Theorem multiplexStreams_throws_iff (crc16 : Buffer -> Z -> Z) (n : nat)
    (now : Z) :
  uint16 crc16 ->
  is_Some (Mux.multiplexStreams crc16 n now) <-> (n <= 254)%nat.
Proof.
  intros Hu. split.
  - intros [r H]. unfold Mux.multiplexStreams in H.
    destruct (Nat.ltb_spec 254 n); [discriminate|lia].
  - intros Hn. destruct (multiplexStreams_Some crc16 Hu n now Hn)
      as (head & -> & _). eauto.
Qed.

Lemma multiplexStreams_throws_iff_witness :
  uint16 crc16_ccitt /\
  (is_Some (Mux.multiplexStreams crc16_ccitt 3 1000) <-> (3 <= 254)%nat).
Proof.
  split; [exact crc16_ccitt_uint16|].
  apply (multiplexStreams_throws_iff crc16_ccitt 3 1000 crc16_ccitt_uint16).
Defined.

(** X4.  The head that [multiplexStreams] writes describes itself: it starts
    with the version 1, its length field holds the number of its bytes, the
    byte after the length field is the number of streams, and its last two
    bytes are the checksum of the bytes between the length field and the
    checksum. *)
Theorem head_layout (crc16 : Buffer -> Z -> Z) (n : nat) (now : Z)
    (st0 : Mux.State) (head : list StreamOp) :
  uint16 crc16 ->
  Mux.multiplexStreams crc16 n now = Some (st0, head) ->
  let wire := concat (writes head) in
  readUInt8 wire 0 = Some 1 /\
  readUInt32LE wire 1 = Some (Z.of_nat (length wire)) /\
  readUInt8 wire 5 = Some (Z.of_nat n) /\
  readUInt16LE wire (length wire - 2) =
    Some (crc16 (slice wire 5 (Z.of_nat (length wire) - 2)) 0).
Proof.
  intros Hu Hmux.
  assert (n_fits : (n <= 254)%nat).
  { unfold Mux.multiplexStreams in Hmux.
    destruct (Nat.ltb_spec 254 n); [discriminate|lia]. }
  destruct (headerBuf_Some n now n_fits) as (metas & _ & Hbody & Hlen).
  revert Hbody. unfold mkBufFloatLe, writeFloatLE.
  generalize (float32Bits now). intros bits Hbody. cbn [app] in Hbody.
  rewrite (multiplexStreams_body crc16 n Hu n_fits now _ Hbody) in Hmux
    by (cbn [length]; lia).
  injection Hmux as _ <-.
  set (body := byteOfZ (Z.of_nat n) :: _) in *.
  assert (Hblen : (5 <= length body <= 5 + 267 * n)%nat)
    by (subst body; cbn [length]; lia).
  set (len := Z.of_nat (length body) + 7).
  set (c := crc16 body 0).
  assert (Hc : 0 <= c <= 65535) by (apply Hu; lia).
  cbn [writes concat app].
  change (Z.of_nat (S (S (S (S (S (length (concat metas))))))) + 7) with len.
  assert (Hwlen : length (byteOfZ 1 :: byteOfZ len :: byteOfZ (len / 256)
                     :: byteOfZ (len / 65536) :: byteOfZ (len / 16777216)
                     :: body ++ [byteOfZ c; byteOfZ (c / 256)])
                  = Z.to_nat len).
  { cbn [length]. rewrite length_app. cbn [length]. lia. }
  cbv zeta. rewrite Hwlen.
  split; [reflexivity|]. split.
  { rewrite readUInt32LE_at1, uint32_bytes by lia. f_equal. lia. }
  split.
  { subst body. cbn. rewrite uint8_byte by lia. reflexivity. }
  assert (Hsplit : byteOfZ 1 :: byteOfZ len :: byteOfZ (len / 256)
                   :: byteOfZ (len / 65536) :: byteOfZ (len / 16777216)
                   :: body ++ [byteOfZ c; byteOfZ (c / 256)]
                   = ([byteOfZ 1; byteOfZ len; byteOfZ (len / 256);
                       byteOfZ (len / 65536); byteOfZ (len / 16777216)]
                      ++ body) ++ [byteOfZ c; byteOfZ (c / 256)])
    by (rewrite <- app_assoc; reflexivity).
  rewrite Hsplit.
  replace (Z.to_nat len - 2)%nat
    with (length ([byteOfZ 1; byteOfZ len; byteOfZ (len / 256);
                   byteOfZ (len / 65536); byteOfZ (len / 16777216)]
                  ++ body) + 0)%nat
    by (rewrite length_app; cbn [length]; lia).
  rewrite readUInt16LE_shift.
  cbn [readUInt16LE lookup list_lookup Nat.add mbind option_bind].
  rewrite uint16_bytes by exact Hc. f_equal. f_equal.
  rewrite <- Hsplit. rewrite slice_mid.
  - change (Z.to_nat 5) with 5%nat. cbn [drop].
    replace (Z.to_nat (Z.of_nat (Z.to_nat len) - 2 - 5)) with (length body)
      by lia.
    symmetry. apply take_app_length.
  - lia.
  - cbn [length]. rewrite length_app. cbn [length]. lia.
Qed.

Lemma head_layout_witness :
  exists st0 head,
    Mux.multiplexStreams crc16_ccitt 2 1000 = Some (st0, head) /\
    readUInt32LE (concat (writes head)) 1
      = Some (Z.of_nat (length (concat (writes head)))) /\
    readUInt8 (concat (writes head)) 5 = Some 2.
Proof.
  destruct (Mux.multiplexStreams crc16_ccitt 2 1000) as [[st0 head]|] eqn:E;
    [|vm_compute in E; discriminate].
  exists st0, head. split; [reflexivity|].
  destruct (head_layout crc16_ccitt 2 1000 st0 head crc16_ccitt_uint16 E)
    as (_ & H1 & H2 & _).
  split; [exact H1|exact H2].
Defined.

(** ** More on the multiplexer *)

Section MuxMore.

Variable crc16 : Buffer -> Z -> Z.
Variable cfg : Mux.Config.

(** X5.  What a listener writes for one ['data'] event: the data frames first
    and, when the bytes counted now exceed [crcBufferSize] or no source is
    counted open, one control frame after them.  That control frame
    carries the offset 0 and the checksum of everything up to the data
    frames included; the elapsed time is never what brings it about. *)
Theorem listener_writes (id : nat) (data : Buffer) (now : Z)
    (st st' : Mux.State) (out : list StreamOp) :
  0 <= Mux.maxDataGap cfg ->
  Mux.canWrite st = true ->
  Mux.listener crc16 cfg id data now st = Some (st', out) ->
  exists buf,
    mkStreamChunkBuf data (Z.of_nat id + 1) (now - Mux.lastMsgTime st)
      = Some buf /\
    Mux.lastMsgTime st' = now /\
    let counted := Mux.crcProcessedBytes st + Z.of_nat (length buf) in
    let sum := crc16 buf (Mux.crc st) in
    if (Mux.crcBufferSize cfg <? counted) || (Mux.streamsAlive st =? 0)
    then out = [Write buf; Write (crcFrameBytes 0 sum)] /\
         Mux.crcProcessedBytes st' = 0 /\
         Mux.crc st' = crc16 (crcFrameBytes 0 sum) sum
    else out = [Write buf] /\
         Mux.crcProcessedBytes st' = counted /\
         Mux.crc st' = sum.
Proof.
  intros Hgap Hw. unfold Mux.listener. rewrite Hw. cbn [negb].
  destruct (mkStreamChunkBuf _ _ _) as [buf|]; [|discriminate].
  cbn [mbind option_bind]. unfold Mux.maybeSendCrc, Mux.due.
  cbn [Mux.canWrite Mux.lastMsgTime Mux.crcProcessedBytes Mux.streamsAlive
       Mux.crc Mux.listening Mux.interval].
  rewrite ?Hw. cbn [negb]. rewrite Z.sub_diag.
  destruct (Z.ltb_spec (Mux.maxDataGap cfg) 0) as [Hlt|_]; [lia|].
  cbn [orb]. intros H. exists buf. split; [reflexivity|]. cbv zeta.
  destruct ((Mux.crcBufferSize cfg <?
             Mux.crcProcessedBytes st + Z.of_nat (length buf))
            || (Mux.streamsAlive st =? 0)).
  - destruct (mkStreamCrcBuf 0 (crc16 buf (Mux.crc st))) as [cbuf|] eqn:E;
      [|discriminate].
    apply mkStreamCrcBuf_inv in E as (_ & _ & ->).
    cbn [mbind option_bind] in H. injection H as <- <-. auto.
  - cbn [mbind option_bind] in H. injection H as <- <-. auto.
Qed.

(** X6.  A time since the last frame that does not fit two bytes, because the
    clock went back or because more than 65535 milliseconds passed,
    makes the listener of a source throw, and [maybeSendCrc] too when it
    has a control frame to write: the offset is never wrapped around or
    cut. *)
Theorem offset_out_of_range_throws (id : nat) (data : Buffer) (now : Z)
    (st : Mux.State) :
  Mux.canWrite st = true ->
  ~ (0 <= now - Mux.lastMsgTime st <= 65535) ->
  Mux.listener crc16 cfg id data now st = None /\
  (trigger cfg now st -> Mux.maybeSendCrc crc16 cfg now st = None).
Proof.
  intros Hw Hd. split.
  - unfold Mux.listener. rewrite Hw. cbn [negb].
    destruct (mkStreamChunkBuf _ _ _) as [buf|] eqn:E; [|reflexivity].
    apply mkStreamChunkBuf_inv in E. lia.
  - intros Ht. rewrite (maybeSendCrc_sends crc16 cfg now st Hw Ht).
    destruct (mkStreamCrcBuf _ _) as [buf|] eqn:E; [|reflexivity].
    apply mkStreamCrcBuf_inv in E. lia.
Qed.

Lemma step_closed now ev st :
  Mux.canWrite st = false ->
  exists st',
    Mux.step crc16 cfg now ev st = Some (st', []) /\
    Mux.canWrite st' = false /\ Mux.crc st' = Mux.crc st.
Proof.
  intros Hw. destruct ev as [id data|id| |]; cbn [Mux.step].
  - destruct (bool_decide _); [|eauto].
    unfold Mux.listener. rewrite Hw. cbn [negb]. eauto.
  - destruct (bool_decide _); [|eauto].
    unfold Mux.finishStream. rewrite maybeSendCrc_closed by exact Hw.
    cbn [mbind option_bind]. eexists. split; [reflexivity|]. auto.
  - destruct (Mux.interval st); [|eauto].
    rewrite maybeSendCrc_closed by exact Hw. eauto.
  - unfold Mux.stop.
    match goal with |- context [Mux.finishAll _ _ ?ids _ ?s] =>
      destruct (finishAll_closed crc16 cfg ids now s eq_refl)
        as (st' & -> & Hw' & Hc' & _)
    end.
    exists st'. auto.
Qed.

Lemma run_closed evs : forall st,
  Mux.canWrite st = false ->
  exists st',
    Mux.run crc16 cfg evs st = Some (st', []) /\
    Mux.canWrite st' = false /\ Mux.crc st' = Mux.crc st.
Proof.
  induction evs as [|[now ev] evs IH]; intros st Hw; cbn [Mux.run].
  - eauto.
  - destruct (step_closed now ev st Hw) as (st1 & -> & Hw1 & Hc1).
    cbn [mbind option_bind].
    destruct (IH st1 Hw1) as (st2 & -> & Hw2 & Hc2).
    cbn [mbind option_bind]. exists st2. split; [reflexivity|].
    split; [exact Hw2|congruence].
Qed.

(** X7.  Once the output has ended or finished, the multiplexer writes nothing
    more, not even a last control frame, and none of its handlers
    throws, whatever the sources and the interval do afterwards. *)
Theorem stop_silences (now : Z) (evs : list (Z * Mux.Event))
    (st : Mux.State) :
  exists st',
    Mux.run crc16 cfg ((now, Mux.Stop) :: evs) st = Some (st', []) /\
    Mux.canWrite st' = false /\ Mux.crc st' = Mux.crc st.
Proof.
  cbn [Mux.run Mux.step]. unfold Mux.stop.
  match goal with |- context [Mux.finishAll _ _ ?ids _ ?s] =>
    destruct (finishAll_closed crc16 cfg ids now s eq_refl)
      as (st1 & -> & Hw1 & Hc1 & _)
  end.
  cbn [mbind option_bind].
  destruct (run_closed evs st1 Hw1) as (st2 & -> & Hw2 & Hc2).
  cbn [mbind option_bind]. exists st2. split; [reflexivity|].
  split; [exact Hw2|]. rewrite Hc2, Hc1. reflexivity.
Qed.

End MuxMore.

Section MuxInvariants.

Variable crc16 : Buffer -> Z -> Z.
Variable cfg : Mux.Config.

Lemma maybeSendCrc_counted now st st' out :
  0 <= Mux.crcBufferSize cfg ->
  Mux.maybeSendCrc crc16 cfg now st = Some (st', out) ->
  (Mux.canWrite st = true ->
   0 <= Mux.crcProcessedBytes st ->
   0 <= Mux.crcProcessedBytes st' <= Mux.crcBufferSize cfg) /\
  (0 <= Mux.crcProcessedBytes st <= Mux.crcBufferSize cfg ->
   0 <= Mux.crcProcessedBytes st' <= Mux.crcBufferSize cfg).
Proof.
  intros Hsz. unfold Mux.maybeSendCrc, Mux.due.
  destruct (Mux.canWrite st); cbn [negb].
  2:{ intros [= <- _]. split; [discriminate|auto]. }
  destruct (Z.ltb_spec (Mux.crcBufferSize cfg) (Mux.crcProcessedBytes st)).
  - rewrite orb_true_r. cbn [orb].
    destruct (mkStreamCrcBuf _ _); [|discriminate].
    cbn [mbind option_bind]. intros [= <- _]. cbn. split; intros; lia.
  - destruct (_ || _ || _).
    + destruct (mkStreamCrcBuf _ _); [|discriminate].
      cbn [mbind option_bind]. intros [= <- _]. cbn. split; intros; lia.
    + intros [= <- _]. split; intros; lia.
Qed.

Lemma step_counted now ev st st' out :
  0 <= Mux.crcBufferSize cfg ->
  Mux.step crc16 cfg now ev st = Some (st', out) ->
  0 <= Mux.crcProcessedBytes st <= Mux.crcBufferSize cfg ->
  0 <= Mux.crcProcessedBytes st' <= Mux.crcBufferSize cfg.
Proof.
  intros Hsz H Hc. destruct ev as [id data|id| |]; cbn [Mux.step] in H.
  - destruct (bool_decide _); [|injection H as <- _; exact Hc].
    unfold Mux.listener in H.
    destruct (Mux.canWrite st) eqn:Hw; cbn [negb] in H;
      [|injection H as <- _; exact Hc].
    destruct (mkStreamChunkBuf _ _ _) as [buf|]; [|discriminate].
    cbn [mbind option_bind] in H.
    destruct (Mux.maybeSendCrc _ _ _ _) as [[st1 out1]|] eqn:E;
      [|discriminate].
    cbn [mbind option_bind] in H. injection H as <- _.
    apply (maybeSendCrc_counted _ _ _ _ Hsz) in E as [E _].
    apply E; cbn; [reflexivity|lia].
  - destruct (bool_decide _); [|injection H as <- _; exact Hc].
    unfold Mux.finishStream in H.
    destruct (Mux.maybeSendCrc _ _ _ _) as [[st1 out1]|] eqn:E;
      [|discriminate].
    cbn [mbind option_bind] in H. injection H as <- _.
    apply (maybeSendCrc_counted _ _ _ _ Hsz) in E as [_ E].
    cbn. apply E. exact Hc.
  - destruct (Mux.interval st); [|injection H as <- _; exact Hc].
    apply (maybeSendCrc_counted _ _ _ _ Hsz) in H as [_ H]. auto.
  - unfold Mux.stop in H. revert H.
    generalize (seq 0 (length (Mux.listening st))). intros ids.
    set (s := {| Mux.lastMsgTime := _ |}).
    assert (Hs : 0 <= Mux.crcProcessedBytes s <= Mux.crcBufferSize cfg)
      by exact Hc.
    clearbody s. revert s st' out Hs.
    induction ids as [|i ids IH]; intros s st' out Hs; cbn [Mux.finishAll].
    + intros [= <- _]. exact Hs.
    + unfold Mux.finishStream at 1.
      destruct (Mux.maybeSendCrc _ _ _ _) as [[s1 o1]|] eqn:E;
        [|discriminate].
      cbn [mbind option_bind].
      destruct (Mux.finishAll _ _ _ _ _) as [[s2 o2]|] eqn:E2;
        [|discriminate].
      cbn [mbind option_bind]. intros [= <- _].
      apply (IH _ _ _) in E2; [exact E2|].
      apply (maybeSendCrc_counted _ _ _ _ Hsz) in E as [_ E].
      cbn. apply E. exact Hs.
Qed.

Lemma run_counted evs : forall st st' out,
  0 <= Mux.crcBufferSize cfg ->
  Mux.run crc16 cfg evs st = Some (st', out) ->
  0 <= Mux.crcProcessedBytes st <= Mux.crcBufferSize cfg ->
  0 <= Mux.crcProcessedBytes st' <= Mux.crcBufferSize cfg.
Proof.
  induction evs as [|[now ev] evs IH]; intros st st' out Hsz;
    cbn [Mux.run].
  - intros [= <- _]. auto.
  - destruct (Mux.step crc16 cfg now ev st) as [[st1 out1]|] eqn:E1;
      [|discriminate].
    cbn [mbind option_bind].
    destruct (Mux.run crc16 cfg evs st1) as [[st2 out2]|] eqn:E2;
      [|discriminate].
    cbn [mbind option_bind]. intros [= <- _] Hc.
    eapply IH; [exact Hsz|exact E2|]. eapply step_counted; eauto.
Qed.

(** X8.  Between two events the bytes counted since the last control frame
    never exceed [crcBufferSize]: a listener that brings the count above
    it writes a control frame in the same call and starts the count
    again. *)
Theorem counted_bytes_bounded (n : nat) (start : Z)
    (evs : list (Z * Mux.Event)) (st : Mux.State) (out : list StreamOp) :
  0 <= Mux.crcBufferSize cfg ->
  Mux.session crc16 cfg n start evs = Some (st, out) ->
  0 <= Mux.crcProcessedBytes st <= Mux.crcBufferSize cfg.
Proof.
  intros Hsz H. unfold Mux.session in H.
  destruct (Mux.multiplexStreams crc16 n start) as [[st0 head]|] eqn:E0;
    [|discriminate].
  cbn [mbind option_bind] in H.
  destruct (Mux.run crc16 cfg evs st0) as [[st1 out1]|] eqn:E1;
    [|discriminate].
  cbn [mbind option_bind] in H. injection H as <- _.
  eapply run_counted; [exact Hsz|exact E1|].
  unfold Mux.multiplexStreams in E0.
  destruct (254 <? n)%nat; [discriminate|].
  destruct (Mux.headerBuf n start); [|discriminate].
  cbn [mbind option_bind] in E0.
  destruct (mkBuf8 1); [|discriminate]. cbn [mbind option_bind] in E0.
  destruct (mkBuf32le _); [|discriminate]. cbn [mbind option_bind] in E0.
  destruct (mkBuf16le _); [|discriminate]. cbn [mbind option_bind] in E0.
  injection E0 as <- _. cbn. lia.
Qed.

End MuxInvariants.

Lemma foldCrc_range crc16 frames : forall c,
  uint16 crc16 -> 0 <= c <= 65535 -> 0 <= foldCrc crc16 c frames <= 65535.
Proof.
  induction frames as [|buf frames IH]; intros c Hu Hc; cbn; [exact Hc|].
  apply IH; [exact Hu|]. apply Hu, Hc.
Qed.

Lemma countOpen_close (l : list bool) : forall id,
  l !! id = Some true -> countOpen (<[id := false]> l) = countOpen l - 1.
Proof.
  unfold countOpen.
  induction l as [|b l IH]; intros [|id] H; try discriminate.
  - injection H as ->. cbn. lia.
  - change (<[S id := false]> (b :: l)) with (b :: <[id := false]> l).
    change ((b :: l) !! S id) with (l !! id) in H. apply IH in H.
    destruct b; cbn [List.filter length]; lia.
Qed.

Lemma countOpen_repeat n : countOpen (repeat true n) = Z.of_nat n.
Proof.
  unfold countOpen. induction n as [|n IH]; [reflexivity|].
  cbn [repeat List.filter length]. lia.
Qed.

Lemma mux_run_app crc16 cfg evs1 : forall evs2 st,
  Mux.run crc16 cfg (evs1 ++ evs2) st =
  '(st1, out1) ← Mux.run crc16 cfg evs1 st;
  '(st2, out2) ← Mux.run crc16 cfg evs2 st1;
  Some (st2, out1 ++ out2).
Proof.
  induction evs1 as [|[now ev] evs1 IH]; intros evs2 st;
    cbn [app Mux.run mbind option_bind].
  - destruct (Mux.run crc16 cfg evs2 st) as [[st2 out2]|]; reflexivity.
  - destruct (Mux.step crc16 cfg now ev st) as [[sa oa]|];
      cbn [mbind option_bind]; [|reflexivity].
    rewrite IH.
    destruct (Mux.run crc16 cfg evs1 sa) as [[sb ob]|];
      cbn [mbind option_bind]; [|reflexivity].
    destruct (Mux.run crc16 cfg evs2 sb) as [[sc oc]|];
      cbn [mbind option_bind]; [|reflexivity].
    rewrite app_assoc. reflexivity.
Qed.

Section MuxAlive.

Variable crc16 : Buffer -> Z -> Z.
Variable cfg : Mux.Config.
Hypothesis crc16_uint16 : uint16 crc16.
Hypothesis crc16_chains : chains crc16.

Lemma step_alive now ev st st' out :
  alive st -> ev <> Mux.Stop ->
  Mux.step crc16 cfg now ev st = Some (st', out) ->
  alive st'.
Proof.
  intros (Hw & Hi & Ha & Hc) Hev H.
  assert (Hcrc : 0 <= Mux.crc st' <= 65535).
  { destruct (step_keeps crc16 cfg now ev st st' out H) as (-> & _).
    apply foldCrc_range; assumption. }
  destruct ev as [id data|id| |]; cbn [Mux.step] in H; [| | |contradiction].
  - destruct (bool_decide _);
      [|injection H as <- _; repeat split; auto; lia].
    unfold Mux.listener in H. rewrite Hw in H. cbn [negb] in H.
    destruct (mkStreamChunkBuf _ _ _) as [buf|]; [|discriminate].
    cbn [mbind option_bind] in H.
    destruct (Mux.maybeSendCrc _ _ _ _) as [[st1 out1]|] eqn:E;
      [|discriminate].
    cbn [mbind option_bind] in H. injection H as <- _.
    apply maybeSendCrc_state in E as (El & Ea & Ew & Ei). cbn in *.
    unfold alive. rewrite El, Ea, Ew, Ei. auto.
  - destruct (bool_decide_reflect (Mux.listening st !! id = Some true))
      as [Hid|_]; [|injection H as <- _; repeat split; auto; lia].
    unfold Mux.finishStream in H.
    destruct (Mux.maybeSendCrc _ _ _ _) as [[st1 out1]|] eqn:E;
      [|discriminate].
    cbn [mbind option_bind] in H. injection H as <- _.
    apply maybeSendCrc_state in E as (El & Ea & Ew & Ei). cbn in *.
    unfold alive. cbn. rewrite El, Ea, Ew, Ei.
    rewrite countOpen_close by exact Hid. repeat split; auto; lia.
  - rewrite Hi in H.
    apply maybeSendCrc_state in H as (El & Ea & Ew & Ei).
    unfold alive. rewrite El, Ea, Ew, Ei. auto.
Qed.

Lemma run_alive evs : forall st st' out,
  alive st -> noStop evs ->
  Mux.run crc16 cfg evs st = Some (st', out) ->
  alive st'.
Proof.
  induction evs as [|[now ev] evs IH]; intros st st' out Ha Hns;
    cbn [Mux.run].
  - intros [= <- _]. exact Ha.
  - inversion Hns as [|e evs' Hev Hns']; subst.
    destruct (Mux.step crc16 cfg now ev st) as [[st1 out1]|] eqn:E1;
      [|discriminate].
    cbn [mbind option_bind].
    destruct (Mux.run crc16 cfg evs st1) as [[st2 out2]|] eqn:E2;
      [|discriminate].
    cbn [mbind option_bind]. intros [= <- _].
    eapply IH; [|exact Hns'|exact E2]. eapply step_alive; eauto.
Qed.

Lemma session_alive n start evs st out :
  Mux.session crc16 cfg n start evs = Some (st, out) ->
  noStop evs -> alive st.
Proof.
  unfold Mux.session. intros H Hns.
  destruct (Mux.multiplexStreams crc16 n start) as [[st0 head]|] eqn:E0;
    [|discriminate].
  cbn [mbind option_bind] in H.
  destruct (Mux.run crc16 cfg evs st0) as [[st1 out1]|] eqn:E1;
    [|discriminate].
  cbn [mbind option_bind] in H. injection H as <- _.
  eapply run_alive; [|exact Hns|exact E1].
  assert (n_fits : (n <= 254)%nat).
  { unfold Mux.multiplexStreams in E0.
    destruct (Nat.ltb_spec 254 n); [discriminate|lia]. }
  destruct (multiplexStreams_Some crc16 crc16_uint16 n start n_fits)
    as (head' & E0' & _).
  rewrite E0 in E0'. injection E0' as -> _.
  unfold alive. cbn. rewrite countOpen_repeat. repeat split; auto; lia.
Qed.


(** X10.  When every source has finished and the output has not ended, the
    interval goes on writing: each firing writes one more control frame,
    with the time since the last frame and the running checksum. *)
Theorem ticks_after_the_end (n : nat) (start : Z)
    (evs : list (Z * Mux.Event)) (st : Mux.State) (out : list StreamOp)
    (now : Z) :
  Mux.session crc16 cfg n start evs = Some (st, out) ->
  noStop evs ->
  countOpen (Mux.listening st) = 0 ->
  0 <= now - Mux.lastMsgTime st <= 65535 ->
  exists st',
    Mux.session crc16 cfg n start (evs ++ [(now, Mux.Tick)])
      = Some (st', out ++ [Write (crcFrameBytes (now - Mux.lastMsgTime st)
                                    (Mux.crc st))]) /\
    Mux.lastMsgTime st' = now /\
    countOpen (Mux.listening st') = 0.
Proof.
  intros H Hns Hz Hd.
  destruct (session_alive _ _ _ _ _ H Hns) as (Hw & Hi & Ha & Hc).
  unfold Mux.session in *.
  destruct (Mux.multiplexStreams crc16 n start) as [[st0 head]|];
    [|discriminate].
  cbn [mbind option_bind] in *. rewrite mux_run_app.
  destruct (Mux.run crc16 cfg evs st0) as [[st1 out1]|]; [|discriminate].
  cbn [mbind option_bind] in *. injection H as -> <-.
  cbn [Mux.run Mux.step]. rewrite Hi.
  rewrite maybeSendCrc_sends
    by (try exact Hw; right; right; rewrite Ha; exact Hz).
  rewrite mkStreamCrcBuf_Some by assumption.
  cbn [mbind option_bind]. eexists. rewrite app_nil_r, app_assoc.
  split; [reflexivity|]. cbn. auto.
Qed.

(** X11.  What the multiplexer writes after the head is a row of frames and
    nothing else: data frames for the streams 1 to [n] with at most 255
    payload bytes each, and control frames, each with the checksum of all
    the frame bytes before it.  The payloads for a stream, in the order
    written, are the bytes that its source handed over, as long as no
    source hands data over after its end and the output is not ended. *)
Theorem session_frames (n : nat) (start : Z) (evs : list (Z * Mux.Event))
    (st : Mux.State) (out : list StreamOp) :
  Mux.session crc16 cfg n start evs = Some (st, out) ->
  orderly (repeat true n) evs ->
  exists fs,
    concat (drop 4 (writes out)) = encodeChunks fs /\
    consistent crc16 n 0 fs /\
    forall i : nat, payloadOf (Z.of_nat i + 1) fs = emitted i evs.
Proof.
  unfold Mux.session. intros H Hord.
  destruct (Mux.multiplexStreams crc16 n start) as [[st0 head]|] eqn:E0;
    [|discriminate].
  cbn [mbind option_bind] in H.
  destruct (Mux.run crc16 cfg evs st0) as [[st1 out1]|] eqn:E1;
    [|discriminate].
  cbn [mbind option_bind] in H. injection H as _ <-.
  assert (n_fits : (n <= 254)%nat).
  { unfold Mux.multiplexStreams in E0.
    destruct (Nat.ltb_spec 254 n); [discriminate|lia]. }
  destruct (multiplexStreams_Some crc16 crc16_uint16 n start n_fits)
    as (head' & E0' & Hlen & Hall).
  rewrite E0 in E0'. injection E0' as -> <-.
  destruct (run_framed crc16 crc16_uint16 crc16_chains cfg n evs _ _ _ E1)
    as (fs & Hout & Hk & Hpay);
    [reflexivity|apply repeat_length|cbn; lia|exact Hord|].
  exists fs. rewrite writes_app, drop_app_length' by (symmetry; exact Hlen).
  auto.
Qed.

End MuxAlive.

Lemma listener_writes_witness :
  exists st' out buf,
    Mux.listener crc16_ccitt Mux.defaults 0 [x42] 1015 exampleState
      = Some (st', out) /\
    mkStreamChunkBuf [x42] 1 5 = Some buf /\
    out = [Write buf] /\
    Mux.crcProcessedBytes st' = 10.
Proof.
  destruct (Mux.listener crc16_ccitt Mux.defaults 0 [x42] 1015 exampleState)
    as [[st' out]|] eqn:E; [|vm_compute in E; discriminate].
  destruct (listener_writes crc16_ccitt Mux.defaults 0 [x42] 1015
              exampleState st' out ltac:(cbn; lia) eq_refl E)
    as (buf & Hb & _ & H).
  exists st', out, buf. split; [reflexivity|]. split; [exact Hb|].
  injection Hb as <-. exact (conj (proj1 H) (proj1 (proj2 H))).
Defined.

Lemma offset_out_of_range_throws_witness :
  Mux.canWrite exampleState = true /\
  ~ (0 <= 70000 - Mux.lastMsgTime exampleState <= 65535) /\
  Mux.listener crc16_ccitt Mux.defaults 0 [x42] 70000 exampleState = None.
Proof.
  assert (H : ~ (0 <= 70000 - Mux.lastMsgTime exampleState <= 65535))
    by (cbn; lia).
  split; [reflexivity|]. split; [exact H|].
  exact (proj1 (offset_out_of_range_throws crc16_ccitt Mux.defaults 0 [x42]
                  70000 exampleState eq_refl H)).
Defined.

Lemma counted_bytes_bounded_witness :
  exists st out,
    Mux.session crc16_ccitt Mux.defaults 1 1000 exampleEvents
      = Some (st, out) /\
    0 <= Mux.crcProcessedBytes st <= Mux.crcBufferSize Mux.defaults.
Proof.
  destruct (Mux.session crc16_ccitt Mux.defaults 1 1000 exampleEvents)
    as [[st out]|] eqn:E; [|vm_compute in E; discriminate].
  exists st, out. split; [reflexivity|].
  apply (counted_bytes_bounded crc16_ccitt Mux.defaults 1 1000 exampleEvents
           st out ltac:(cbn; lia) E).
Defined.


Lemma ticks_after_the_end_witness :
  exists st out st',
    Mux.session crc16_ccitt Mux.defaults 1 1000 exampleEvents
      = Some (st, out) /\
    Mux.session crc16_ccitt Mux.defaults 1 1000
      (exampleEvents ++ [(2020, Mux.Tick)])
      = Some (st', out ++ [Write (crcFrameBytes 1000 (Mux.crc st))]).
Proof.
  eexists. eexists.
  match goal with |- exists st', ?E = Some (?st, ?out) /\ _ =>
    assert (H : E = Some (st, out)) by (vm_compute; reflexivity)
  end.
  destruct (ticks_after_the_end crc16_ccitt Mux.defaults crc16_ccitt_uint16
              1 1000 exampleEvents _ _ 2020 H
              ltac:(repeat constructor; discriminate) eq_refl
              ltac:(cbn; lia))
    as (st' & H' & _).
  exists st'. split; [exact H|exact H'].
Defined.

Lemma session_frames_witness :
  exists st out fs,
    Mux.session crc16_ccitt Mux.defaults 1 1000 exampleEvents
      = Some (st, out) /\
    orderly (repeat true 1) exampleEvents /\
    concat (drop 4 (writes out)) = encodeChunks fs /\
    payloadOf 1 fs = [x41].
Proof.
  assert (Hord : orderly (repeat true 1) exampleEvents) by (cbn; auto).
  destruct (Mux.session crc16_ccitt Mux.defaults 1 1000 exampleEvents)
    as [[st out]|] eqn:E; [|vm_compute in E; discriminate].
  destruct (session_frames crc16_ccitt Mux.defaults crc16_ccitt_uint16
              crc16_ccitt_chains 1 1000 exampleEvents st out E Hord)
    as (fs & Hfs & _ & Hpay).
  exists st, out, fs. split; [reflexivity|]. split; [exact Hord|].
  split; [exact Hfs|]. exact (Hpay 0%nat).
Defined.

(** ** More on the demultiplexer *)

Lemma callAll_rest op st :
  let st' := Demux.callAll op st in
  Demux.chunksCrc st' = Demux.chunksCrc st /\
  Demux.head st' = Demux.head st /\
  Demux.lastChunkSent st' = Demux.lastChunkSent st.
Proof. unfold Demux.callAll. rewrite callAll_foldl. cbn. auto. Qed.

Section DemuxMore.

Variable crc16 : Buffer -> Z -> Z.
Variable parseJSON : Buffer -> option Json.
Variable useRealOffsets : bool.
Variable endable : bool.
Variable heard : nat -> bool.

Lemma parseChunks_rest fuel : forall st st',
  (length (Demux.buffered st) <= fuel)%nat ->
  Demux.parseChunks crc16 fuel st = Demux.Returned st' ->
  Parser.streamChunkParser (Demux.buffered st') = None.
Proof.
  induction fuel as [|fuel IH]; intros st st' Hlen;
    cbn [Demux.parseChunks].
  - intros [= <-]. destruct (Demux.buffered st); [reflexivity|].
    cbn in Hlen. lia.
  - destruct (Parser.streamChunkParser (Demux.buffered st)) as [c|] eqn:Ep.
    2:{ intros [= <-]. exact Ep. }
    pose proof (chunkBufSize_bounds _ _ Ep) as Hsz.
    destruct (_ && _); [discriminate|].
    apply IH. demux_simpl.
    destruct (Parser.streamId c =? 0); demux_simpl;
      rewrite sliceFrom_drop, length_drop by lia; lia.
Qed.

Lemma parseChunks_fuel fuel1 : forall fuel2 st,
  (length (Demux.buffered st) <= fuel1)%nat ->
  (length (Demux.buffered st) <= fuel2)%nat ->
  Demux.parseChunks crc16 fuel1 st = Demux.parseChunks crc16 fuel2 st.
Proof.
  induction fuel1 as [|fuel1 IH]; intros [|fuel2] st H1 H2;
    cbn [Demux.parseChunks]; try reflexivity.
  - destruct (Demux.buffered st); [reflexivity|cbn in H1; lia].
  - destruct (Demux.buffered st); [reflexivity|cbn in H2; lia].
  - destruct (Parser.streamChunkParser (Demux.buffered st)) as [c|] eqn:Ep;
      [|reflexivity].
    pose proof (chunkBufSize_bounds _ _ Ep) as Hsz.
    destruct (_ && _); [reflexivity|].
    apply IH; demux_simpl;
      destruct (Parser.streamId c =? 0); demux_simpl;
      rewrite sliceFrom_drop, length_drop by lia; lia.
Qed.

(** X12.  The [while (true)] loop of [parseBuffer] ends: every turn takes at
    least four bytes off the buffer, so that as many turns as the buffer
    has bytes are more than enough; it ends with a buffer that does not
    start with a whole chunk, or with the checksum error. *)
Theorem chunk_loop_ends (fuel : nat) (st : Demux.State) :
  (length (Demux.buffered st) <= fuel)%nat ->
  Demux.parseChunks crc16 fuel st
    = Demux.parseChunks crc16 (length (Demux.buffered st)) st /\
  match Demux.parseChunks crc16 fuel st with
  | Demux.Returned st' =>
      Parser.streamChunkParser (Demux.buffered st') = None
  | Demux.Thrown e _ => e = CRCValidationError
  end.
Proof.
  intros Hlen. split; [apply parseChunks_fuel; [exact Hlen|lia]|].
  destruct (Demux.parseChunks crc16 fuel st) as [st'|e st'] eqn:E.
  - exact (parseChunks_rest fuel st st' Hlen E).
  - exact (proj1 (parseChunks_Thrown crc16 fuel st e st' E)).
Qed.

Lemma processChunks_fields now st :
  let st' := Demux.stateOf (Demux.processChunks useRealOffsets now st) in
  Demux.buffered st' = Demux.buffered st /\
  Demux.parsedHead st' = Demux.parsedHead st /\
  Demux.streamDict st' = Demux.streamDict st /\
  Demux.chunksCrc st' = Demux.chunksCrc st /\
  Demux.input st' = Demux.input st /\
  Demux.immediates st' = Demux.immediates st /\
  Demux.callbacks st' = Demux.callbacks st.
Proof.
  unfold Demux.processChunks. demux_simpl.
  destruct (Demux.unprocessedChunks st) as [|c q]; [cbn; auto 10|].
  assert (Hsend :
    let st' := Demux.stateOf
                 (Demux.sendChunk useRealOffsets now c q
                    (Demux.setChunkProcessor None st)) in
    Demux.buffered st' = Demux.buffered st /\
    Demux.parsedHead st' = Demux.parsedHead st /\
    Demux.streamDict st' = Demux.streamDict st /\
    Demux.chunksCrc st' = Demux.chunksCrc st /\
    Demux.input st' = Demux.input st /\
    Demux.immediates st' = Demux.immediates st /\
    Demux.callbacks st' = Demux.callbacks st).
  { unfold Demux.sendChunk. demux_simpl.
    destruct (Parser.streamId c =? 0); demux_simpl.
    - destruct q; cbn; auto 10.
    - destruct (Demux.streamDict st !! Parser.streamId c); demux_simpl;
        [destruct q|]; cbn; auto 10. }
  destruct (Demux.lastChunkSent st) as [sent|]; [|exact Hsend].
  destruct (useRealOffsets && _); [cbn; auto 10|exact Hsend].
Qed.

Lemma parseBufferWrapped_parsed now st :
  Demux.parsedHead st = true ->
  let st' := Demux.stateOf
               (Demux.parseBufferWrapped crc16 parseJSON useRealOffsets
                  endable heard now st) in
  Demux.parsedHead st' = true /\ Demux.callbacks st' = Demux.callbacks st.
Proof.
  intros Hp. unfold Demux.parseBufferWrapped, Demux.parseBuffer.
  destruct (Demux.buffered st) as [|b0 b] eqn:Eb; [cbn; auto|].
  rewrite Hp. cbn [negb]. rewrite <- Eb.
  pose proof (parseChunks_fields crc16 (length (Demux.buffered st)) st) as Hf.
  destruct (Demux.parseChunks crc16 _ st) as [st1|e st1] eqn:E;
    cbn [Demux.stateOf] in Hf;
    destruct Hf as (Hp1 & _ & _ & _ & _ & _ & _ & _ & Hc1);
    cbn [Demux.andThen].
  - pose proof (processChunks_fields now (Demux.setChunkProcessor None st1))
      as Hf.
    destruct (Demux.processChunks _ _ _) as [st2|e st2];
      cbn [Demux.stateOf] in Hf; demux_simpl;
      destruct Hf as (_ & Hp2 & _ & _ & _ & _ & Hc2).
    + split; congruence.
    + rewrite Hp2, Hp1, Hp. cbn [negb andb].
      case_bool_decide; cbn [Demux.stateOf]; demux_simpl.
      * pose proof (checksum_catch_fields endable heard e st2) as Hf.
        cbv zeta in Hf. destruct Hf as (_ & Hp3 & _ & _ & _ & _ & Hc3).
        split; congruence.
      * split; congruence.
  - rewrite Hp1, Hp. cbn [negb andb].
    case_bool_decide; cbn [Demux.stateOf]; demux_simpl.
    + pose proof (checksum_catch_fields endable heard e st1) as Hf.
      cbv zeta in Hf. destruct Hf as (_ & Hp3 & _ & _ & _ & _ & Hc3).
      split; congruence.
    + split; congruence.
Qed.

Lemma step_parsed now ev st :
  Demux.parsedHead st = true ->
  let st' := Demux.stateOf
               (Demux.step crc16 parseJSON useRealOffsets endable heard now ev st) in
  Demux.parsedHead st' = true /\ Demux.callbacks st' = Demux.callbacks st.
Proof.
  intros Hp. destruct ev as [data| | |]; cbn [Demux.step].
  - apply (parseBufferWrapped_parsed now
             (Demux.setBuffered (Demux.buffered st ++ data) st) Hp).
  - cbn [Demux.stateOf]. unfold Demux.endStreams.
    pose proof (callAll_fields End st) as Hf. cbn zeta in Hf.
    destruct Hf as (_ & Hp3 & _ & _ & _ & _ & _ & Hc3). split; congruence.
  - destruct (Demux.immediates st) as [|m]; [cbn; auto|].
    apply (parseBufferWrapped_parsed now (Demux.setImmediates m st) Hp).
  - destruct (Demux.chunkProcessor st); [|cbn; auto].
    pose proof (processChunks_fields now st) as Hf. cbn zeta in Hf.
    destruct Hf as (_ & Hp2 & _ & _ & _ & _ & Hc2). split; congruence.
Qed.

(** X13.  Once the head has been parsed, [callback] is not called again,
    whatever arrives and whatever goes wrong: corrupt frames, frames for
    unknown streams and the end of the input are reported elsewhere or
    not at all. *)
Theorem callback_not_called_again (evs : list (Z * Demux.Event))
    (st : Demux.State) :
  Demux.parsedHead st = true ->
  Demux.callbacks
    (Demux.stateOf (Demux.run crc16 parseJSON useRealOffsets endable heard evs st))
  = Demux.callbacks st.
Proof.
  revert st. induction evs as [|[now ev] evs IH]; intros st Hp;
    cbn [Demux.run]; [reflexivity|].
  pose proof (step_parsed now ev st Hp) as Hs. cbn zeta in Hs.
  destruct (Demux.step crc16 parseJSON useRealOffsets endable heard now ev st)
    as [st1|e st1]; cbn [Demux.stateOf Demux.andThen] in *;
    destruct Hs as [Hp1 Hc1]; [|exact Hc1].
  rewrite IH by exact Hp1. exact Hc1.
Qed.

(** X14.  A control frame whose checksum is wrong is never stepped over:
    whether the handler of the error returns or throws, the frame stays
    at the front of the buffer and the running checksum and the queue stay
    as they are, so that every later ['data'] event meets the frame again
    and runs the handler again.  When every registered stream has a
    listener for ['error'] and the input has [end], that is: the same
    error is emitted on every registered stream again and the input is
    ended again. *)
Theorem checksum_error_repeats (now : Z) (st : Demux.State) (data : Buffer)
    (c : Parser.Chunk) :
  Demux.parsedHead st = true ->
  Parser.streamChunkParser (Demux.buffered st) = Some c ->
  Parser.streamId c = 0 ->
  Parser.dataCrc c <> Some (Demux.chunksCrc st) ->
  let st0 := Demux.setBuffered (Demux.buffered st ++ data) st in
  let out :=
    Demux.step crc16 parseJSON useRealOffsets endable heard now
      (Demux.Data data) st in
  out = Demux.andThen (Demux.broadcastError heard CRCValidationError st0)
          (Demux.endInput endable) /\
  Demux.parsedHead (Demux.stateOf out) = true /\
  Parser.streamChunkParser (Demux.buffered (Demux.stateOf out)) = Some c /\
  Demux.chunksCrc (Demux.stateOf out) = Demux.chunksCrc st /\
  Demux.unprocessedChunks (Demux.stateOf out) = Demux.unprocessedChunks st /\
  ((forall k i, Demux.streamDict st !! k = Some i -> heard i = true) ->
   endable = true ->
   out = Demux.Returned
           (Demux.setInput (Demux.input st ++ [End])
              (Demux.callAll (EmitError CRCValidationError) st0))).
Proof.
  intros Hp Hc Hid Hcrc.
  apply (streamChunkParser_app _ data) in Hc.
  set (st0 := Demux.setBuffered (Demux.buffered st ++ data) st).
  assert (Hout :
    Demux.step crc16 parseJSON useRealOffsets endable heard now
      (Demux.Data data) st
    = Demux.andThen (Demux.broadcastError heard CRCValidationError st0)
        (Demux.endInput endable)).
  { cbn [Demux.step]. unfold Demux.parseBufferWrapped, Demux.parseBuffer.
    fold st0. subst st0. demux_simpl.
    destruct (Demux.buffered st ++ data) as [|b0 b] eqn:Eb;
      [discriminate Hc|].
    rewrite Hp. cbn [negb]. cbn [length Demux.parseChunks]. demux_simpl.
    rewrite Hc, Hid. cbn [Z.eqb andb].
    rewrite bool_decide_eq_false_2 by exact Hcrc. cbn [negb Demux.andThen].
    demux_simpl. rewrite Hp. cbn [negb andb].
    rewrite bool_decide_eq_true_2 by reflexivity. reflexivity. }
  cbv zeta. rewrite Hout.
  pose proof (checksum_catch_fields endable heard CRCValidationError st0)
    as Hf.
  cbv zeta in Hf. destruct Hf as (Hb & Hp' & _ & Hq & Hk & _).
  rewrite Hb, Hp', Hq, Hk. subst st0. demux_simpl.
  split; [reflexivity|]. split; [exact Hp|]. split; [exact Hc|].
  split; [reflexivity|]. split; [reflexivity|].
  intros Hh ->. rewrite broadcastError_heard by exact Hh.
  pose proof (callAll_fields (EmitError CRCValidationError)
                (Demux.setBuffered (Demux.buffered st ++ data) st)) as Hf.
  cbn zeta in Hf. destruct Hf as (_ & _ & _ & _ & _ & Hin & _).
  cbn [Demux.andThen]. unfold Demux.endInput. rewrite Hin. reflexivity.
Qed.

End DemuxMore.

Section DemuxEdges.

Variable crc16 : Buffer -> Z -> Z.
Variable parseJSON : Buffer -> option Json.
Variable useRealOffsets : bool.
Variable endable : bool.
Variable heard : nat -> bool.

(** X15.  In the ['data'] event in which the head decodes with the right
    checksum and the metadata of one of its streams is not a JSON text,
    the listener calls [stream.end()] and then [callback] with the
    [JSONParseError]: on a stream that has [end], [callback] is called once
    and the input is ended; on a stream that has not, the call of [end]
    throws a [TypeError] and [callback] is not called.  Either way the
    head is taken off the buffer, the head is still awaited, and the
    streams made for this head are not registered and get no event. *)
Theorem head_metadata_error (now : Z) (st : Demux.State) (data : Buffer)
    (h : Parser.Head) :
  Demux.parsedHead st = false ->
  Parser.headParser (Demux.buffered st ++ data) = Some h ->
  Parser.crc h =
    crc16 (slice (Demux.buffered st ++ data) 5 (Parser.headerLen h - 2)) 0 ->
  Mux.mapThrow parseJSON (map Parser.metaString (Parser.meta h)) = None ->
  exists st',
    Demux.step crc16 parseJSON useRealOffsets endable heard now
      (Demux.Data data) st
      = (if endable then Demux.Returned st'
         else Demux.Thrown TypeError st') /\
    Demux.callbacks st' =
      (if endable then Demux.callbacks st ++ [Demux.Failed JSONParseError]
       else Demux.callbacks st) /\
    Demux.input st' =
      (if endable then Demux.input st ++ [End] else Demux.input st) /\
    Demux.parsedHead st' = false /\
    Demux.streamDict st' = Demux.streamDict st /\
    Demux.sinks st' = Demux.sinks st ++ repeat [] (length (Parser.meta h)) /\
    Demux.buffered st'
      = sliceFrom (Demux.buffered st ++ data) (Parser.headerLen h) /\
    Demux.immediates st' = Demux.immediates st.
Proof.
  intros Hp Hh Hc Hj. cbn [Demux.step].
  unfold Demux.parseBufferWrapped, Demux.parseBuffer.
  cbn [Demux.buffered Demux.setBuffered Demux.parsedHead].
  destruct (Demux.buffered st ++ data) as [|b0 b] eqn:Eb.
  { discriminate Hh. }
  rewrite Hp. cbn [negb]. unfold Demux.parseHead.
  cbn [Demux.buffered Demux.setBuffered]. rewrite Hh.
  cbn [Demux.buffered Demux.setBuffered Demux.setHead].
  rewrite <- Hc, Z.eqb_refl. cbn [negb]. rewrite Hj.
  demux_simpl. rewrite Hp. cbn [negb andb].
  rewrite bool_decide_eq_false_2 by discriminate. cbn [negb].
  unfold Demux.endInput. destruct endable; cbn [Demux.andThen];
    eexists; (split; [reflexivity|]); demux_simpl; auto 10.
Qed.


End DemuxEdges.

Section DemuxEnd.

Variable crc16 : Buffer -> Z -> Z.
Variable parseJSON : Buffer -> option Json.
Variable endable : bool.
Variable heard : nat -> bool.


End DemuxEnd.

Section Prefix.

Variable crc16 : Buffer -> Z -> Z.
Variable n : nat.
Hypothesis n_fits : (n <= 254)%nat.
Variable total : nat -> Buffer.
Variable parseJSON : Buffer -> option Json.
Variable endable : bool.
Variable heard : nat -> bool.

Lemma run_tracks_rest evs : forall st rest,
  tracks crc16 n total st (fed evs ++ rest) -> settled st -> noFinish evs ->
  exists st',
    Demux.run crc16 parseJSON false endable heard evs st = Demux.Returned st' /\
    tracks crc16 n total st' rest /\ settled st' /\
    Demux.callbacks st' = Demux.callbacks st /\
    Demux.input st' = Demux.input st.
Proof.
  induction evs as [|[now ev] evs IH]; intros st rest Ht Hs Hnf;
    cbn [Demux.run].
  - exists st. auto.
  - destruct (step_tracks crc16 n n_fits total parseJSON endable heard now ev st
                (fed evs ++ rest))
      as (st1 & -> & Ht1 & Hs1 & Hcb1 & Hin1).
    { destruct ev; cbn [fed] in Ht; rewrite <- ?app_assoc in Ht; exact Ht. }
    { exact Hs. }
    { intros ->. exact Hnf. }
    cbn [Demux.andThen].
    destruct (IH st1 rest Ht1 Hs1) as (st2 & Hr & Ht2 & Hs2 & Hcb2 & Hin2).
    { destruct ev; try exact Hnf. contradiction. }
    exists st2. rewrite Hcb2, Hin2. auto.
Qed.

Lemma tracks_prefix st rest i :
  tracks crc16 n total st rest -> (i < n)%nat ->
  exists log,
    Demux.sinks st !! i = Some log /\ carried log `prefix_of` total i.
Proof.
  intros (pending & _ & _ & _ & _ & _ & Hs) Hi.
  destruct (Hs i Hi) as (log & Hl & _ & Hc).
  exists log. split; [exact Hl|]. rewrite <- Hc. apply prefix_app_r.
  reflexivity.
Qed.

End Prefix.

(** X17.  With [useRealOffsets] false, and for a multiplexer whose output
    is not stopped and whose sources hand over data only while they are
    open: at every moment each stream of the demultiplexer has carried a
    beginning of what its source handed to the multiplexer, and nothing
    else.  When the first ['data'] event holds the whole head, then
    however much of the rest has arrived, a truncated rest included, and
    however it was cut into events, nothing is thrown and no byte is
    made up, doubled, dropped in between or put out of order. *)
Theorem delivery_is_prefix crc16 parseJSON endable heard cfg n start evs
    st0 head st out tail sched rest t0 :
  uint16 crc16 -> chains crc16 ->
  (forall id, 1 <= id <= 254 -> is_Some (parseJSON (stringifyMeta id))) ->
  Mux.multiplexStreams crc16 n start = Some (st0, head) ->
  Mux.run crc16 cfg evs st0 = Some (st, out) ->
  orderly (repeat true n) evs ->
  tail ++ fed sched ++ rest = concat (writes out) ->
  noFinish sched ->
  exists st',
    Demux.run crc16 parseJSON false endable heard
      ((t0, Demux.Data (concat (writes head) ++ tail)) :: sched)
      Demux.initial = Demux.Returned st' /\
    forall i, (i < n)%nat ->
      exists log,
        Demux.sinks st' !! i = Some log /\
        carried log `prefix_of` emitted i evs.
Proof.
  intros Hu Hc Hj Hmux Hrun Hord Hfed Hnf.
  assert (n_fits : (n <= 254)%nat).
  { unfold Mux.multiplexStreams in Hmux.
    destruct (Nat.ltb_spec 254 n); [discriminate|lia]. }
  destruct (multiplexStreams_Some crc16 Hu n start n_fits)
    as (head' & Hmux' & _).
  rewrite Hmux in Hmux'. injection Hmux' as -> _.
  destruct (run_framed crc16 Hu Hc cfg n evs _ _ _ Hrun)
    as (fs & Hout & Hk & Hpay);
    [reflexivity|apply repeat_length|cbn; lia|exact Hord|].
  cbn [Mux.crc] in Hk. rewrite Hout in Hfed.
  destruct (head_stage crc16 parseJSON n Hu n_fits Hj endable heard t0 start _ _ tail
              (fed sched ++ rest) fs Hmux Hfed Hk)
    as (st1 & metadata & Hr1 & Ht1 & Hs1 & _).
  destruct (run_tracks_rest crc16 n n_fits _ parseJSON endable heard sched st1 rest
              Ht1 Hs1 Hnf)
    as (st2 & Hr2 & Ht2 & _).
  exists st2. cbn [Demux.run]. rewrite Hr1. cbn [Demux.andThen].
  split; [exact Hr2|]. intros i Hi.
  destruct (tracks_prefix crc16 n _ st2 rest i Ht2 Hi) as (log & Hl & Hp).
  exists log. split; [exact Hl|]. rewrite <- Hpay. exact Hp.
Qed.

(** ** Frames read back *)

(** X19.  A frame reads back as it was built: the parser finds the stream id,
    the offset and the payload of a data frame of at most 255 bytes, and
    the offset and the checksum of a control frame, whatever follows the
    frame in the buffer; and [chunkBufSize] of what it finds is the number
    of bytes of the frame. *)
Theorem frame_reads_back (data : Buffer) (id off c : Z) (rest : Buffer) :
  1 <= id <= 254 -> 0 <= off <= 65535 -> 0 <= c <= 65535 ->
  (length data <= 255)%nat ->
  exists dbuf cbuf,
    mkStreamChunkBuf data id off = Some dbuf /\
    mkStreamCrcBuf off c = Some cbuf /\
    Parser.streamChunkParser (dbuf ++ rest)
      = Some (Parser.Stream id off (Z.of_nat (length data)) data) /\
    Demux.chunkBufSize (Parser.Stream id off (Z.of_nat (length data)) data)
      = Z.of_nat (length dbuf) /\
    Parser.streamChunkParser (cbuf ++ rest) = Some (Parser.Crc off c) /\
    Demux.chunkBufSize (Parser.Crc off c) = Z.of_nat (length cbuf).
Proof.
  intros Hid Ho Hc Hlen.
  destruct (mkStreamChunkBuf_split data id off) as
    (head & conts & Heq & Hcat & Hh & Hall & Hpos); [lia|exact Ho|].
  assert (Hn : conts = []).
  { destruct conts as [|k conts]; [reflexivity|]. exfalso.
    assert (0 < length head)%nat by (apply Hpos; discriminate).
    pose proof (length_concat_255 _ Hall) as Hl.
    rewrite <- Hcat, length_app, Hl in Hlen. cbn [length] in Hlen. lia. }
  subst conts. cbn [map concat] in *. rewrite app_nil_r in *. subst head.
  exists (dataFrameBytes id off data), (crcFrameBytes off c).
  split; [exact Heq|]. split; [apply mkStreamCrcBuf_Some; assumption|].
  assert (Hwd : wfChunk 254 (Parser.Stream id off (Z.of_nat (length data)) data))
    by (cbn; repeat split; auto; lia).
  assert (Hwc : wfChunk 254 (Parser.Crc off c)) by (cbn; auto).
  split; [exact (streamChunkParser_encode 254 _ rest ltac:(lia) Hwd)|].
  split; [symmetry; exact (encodeChunk_length 254 _ Hwd)|].
  split; [exact (streamChunkParser_encode 254 _ rest ltac:(lia) Hwc)|].
  symmetry. exact (encodeChunk_length 254 _ Hwc).
Qed.

(** *** The properties of the demultiplexer at examples *)

Lemma chunk_loop_ends_witness :
  (length (Demux.buffered (exampleDemux (dataFrameBytes 1 0 [x41])))
   <= 10)%nat /\
  Demux.parseChunks crc16_ccitt 10 (exampleDemux (dataFrameBytes 1 0 [x41]))
  = Demux.parseChunks crc16_ccitt
      (length (Demux.buffered (exampleDemux (dataFrameBytes 1 0 [x41]))))
      (exampleDemux (dataFrameBytes 1 0 [x41])).
Proof.
  assert (H : (length (Demux.buffered
                         (exampleDemux (dataFrameBytes 1 0 [x41])))
               <= 10)%nat) by (vm_compute; lia).
  split; [exact H|].
  destruct (chunk_loop_ends crc16_ccitt 10
              (exampleDemux (dataFrameBytes 1 0 [x41])) H) as [H1 _].
  exact H1.
Defined.

Lemma callback_not_called_again_witness :
  Demux.parsedHead exampleCorrupt = true /\
  Demux.callbacks
    (Demux.stateOf
       (Demux.run crc16_ccitt parseIdObject false true attended
          [(8, Demux.Data [x00]); (9, Demux.Finish)] exampleCorrupt))
  = Demux.callbacks exampleCorrupt.
Proof.
  split; [reflexivity|].
  apply (callback_not_called_again crc16_ccitt parseIdObject false true attended
           [(8, Demux.Data [x00]); (9, Demux.Finish)] exampleCorrupt eq_refl).
Defined.

Lemma checksum_error_repeats_witness :
  Demux.parsedHead exampleCorrupt = true /\
  Parser.streamChunkParser (Demux.buffered exampleCorrupt)
    = Some (Parser.Crc 0 1) /\
  Parser.dataCrc (Parser.Crc 0 1) <> Some (Demux.chunksCrc exampleCorrupt) /\
  Parser.streamChunkParser
    (Demux.buffered
       (Demux.stateOf
          (Demux.step crc16_ccitt parseIdObject false true attended 8
             (Demux.Data [x01; x00]) exampleCorrupt)))
  = Some (Parser.Crc 0 1).
Proof.
  assert (H1 : Parser.streamChunkParser (Demux.buffered exampleCorrupt)
               = Some (Parser.Crc 0 1)) by (vm_compute; reflexivity).
  assert (H2 : Parser.dataCrc (Parser.Crc 0 1)
               <> Some (Demux.chunksCrc exampleCorrupt))
    by (vm_compute; discriminate).
  split; [reflexivity|]. split; [exact H1|]. split; [exact H2|].
  destruct (checksum_error_repeats crc16_ccitt parseIdObject false true
              attended 8 exampleCorrupt [x01; x00] (Parser.Crc 0 1)
              eq_refl H1 eq_refl H2)
    as (_ & _ & Hp & _).
  exact Hp.
Defined.

Lemma head_metadata_error_witness :
  exists h st',
    Parser.headParser (Demux.buffered Demux.initial ++ exampleBrokenMeta)
      = Some h /\
    Mux.mapThrow parseIdObject (map Parser.metaString (Parser.meta h))
      = None /\
    Demux.step crc16_ccitt parseIdObject false true attended 0
      (Demux.Data exampleBrokenMeta) Demux.initial = Demux.Returned st' /\
    Demux.callbacks st' = [Demux.Failed JSONParseError] /\
    Demux.input st' = [End].
Proof.
  destruct (Parser.headParser (Demux.buffered Demux.initial
                               ++ exampleBrokenMeta)) as [h|] eqn:E;
    [|vm_compute in E; discriminate].
  assert (Hc : Parser.crc h =
               crc16_ccitt
                 (slice (Demux.buffered Demux.initial ++ exampleBrokenMeta) 5
                    (Parser.headerLen h - 2)) 0)
    by (vm_compute in E; injection E as <-; vm_compute; reflexivity).
  assert (Hj : Mux.mapThrow parseIdObject
                 (map Parser.metaString (Parser.meta h)) = None)
    by (vm_compute in E; injection E as <-; vm_compute; reflexivity).
  destruct (head_metadata_error crc16_ccitt parseIdObject false true attended
              0 Demux.initial exampleBrokenMeta h eq_refl E Hc Hj)
    as (st' & Hr & Hcb & Hin & _).
  exists h, st'. split; [reflexivity|]. split; [exact Hj|].
  split; [exact Hr|]. split; [exact Hcb|exact Hin].
Defined.


Lemma delivery_is_prefix_witness :
  exists st' log,
    Demux.run crc16_ccitt parseIdObject false true attended
      [(1000, Demux.Data (exampleHead ++ [x01; x0a; x00]));
       (1002, Demux.Immediate);
       (1003, Demux.Data [x01; x41; x00; x0a])] Demux.initial
      = Demux.Returned st' /\
    Demux.sinks st' !! 0%nat = Some log /\
    carried log `prefix_of` [x41].
Proof.
  assert (H : exists st0 head st out,
            Mux.multiplexStreams crc16_ccitt 1 1000 = Some (st0, head) /\
            Mux.run crc16_ccitt Mux.defaults exampleEvents st0
              = Some (st, out) /\
            concat (writes head) = exampleHead /\
            [x01; x0a; x00]
            ++ fed [(1002, Demux.Immediate);
                    (1003, Demux.Data [x01; x41; x00; x0a])]
            ++ [x00; x2e; xa9] = concat (writes out)).
  { do 4 eexists. split; [vm_compute; reflexivity|].
    split; [vm_compute; reflexivity|]. split; vm_compute; reflexivity. }
  destruct H as (st0 & head & st & out & Hm & Hr & Hhead & Hfed).
  destruct (delivery_is_prefix crc16_ccitt parseIdObject true attended
              Mux.defaults 1 1000
              exampleEvents st0 head st out [x01; x0a; x00] _ _ 1000
              crc16_ccitt_uint16 crc16_ccitt_chains parseIdObject_meta
              Hm Hr ltac:(cbn; auto) Hfed ltac:(exact I))
    as (st' & Hrun & Hs).
  destruct (Hs 0%nat ltac:(lia)) as (log & Hl & Hp).
  exists st', log. rewrite Hhead in Hrun. auto.
Defined.

Lemma frame_reads_back_witness :
  exists dbuf cbuf,
    mkStreamChunkBuf [x41] 1 10 = Some dbuf /\
    mkStreamCrcBuf 10 43310 = Some cbuf /\
    Parser.streamChunkParser (dbuf ++ cbuf)
      = Some (Parser.Stream 1 10 1 [x41]) /\
    Parser.streamChunkParser (cbuf ++ []) = Some (Parser.Crc 10 43310).
Proof.
  destruct (frame_reads_back [x41] 1 10 43310 [] ltac:(lia) ltac:(lia)
              ltac:(lia) ltac:(cbn; lia))
    as (dbuf & cbuf & Hd & Hc & _ & _ & Hpc & _).
  destruct (frame_reads_back [x41] 1 10 43310 cbuf ltac:(lia) ltac:(lia)
              ltac:(lia) ltac:(cbn; lia))
    as (dbuf' & cbuf' & Hd' & Hc' & Hpd & _).
  rewrite Hd in Hd'. injection Hd' as <-.
  exists dbuf, cbuf. auto.
Defined.

(** ** The recorder *)

Lemma collect_concat out buffer :
  Recorder.collect out buffer = buffer ++ concat (writes out).
Proof.
  unfold Recorder.collect. revert buffer.
  induction (writes out) as [|d ds IH]; intros buffer; cbn [foldl concat].
  - rewrite app_nil_r. reflexivity.
  - rewrite IH, <- app_assoc. reflexivity.
Qed.

Section RecorderFacts.

Variable crc16 : Buffer -> Z -> Z.
Variable cfg : Mux.Config.

Lemma record_run evs : forall st st',
  Recorder.run crc16 cfg evs st = Some st' ->
  exists out,
    Mux.run crc16 cfg (Recorder.sources evs) (Recorder.mux st)
      = Some (Recorder.mux st', out) /\
    concat (Recorder.appended st') ++ Recorder.buffer st'
    = concat (Recorder.appended st) ++ Recorder.buffer st
      ++ concat (writes out).
Proof.
  induction evs as [|[now ev] evs IH]; intros st st';
    cbn [Recorder.run Recorder.sources].
  - intros [= <-]. exists []. cbn. rewrite app_nil_r. auto.
  - destruct ev as [e| | |]; cbn [Recorder.step mbind option_bind Mux.run].
    + destruct (Mux.step crc16 cfg now e (Recorder.mux st))
        as [[m o]|]; [|discriminate].
      cbn [mbind option_bind]. intros H.
      destruct (IH _ _ H) as (out & Hr & Hb). cbn in Hr, Hb.
      rewrite Hr. cbn [mbind option_bind]. exists (o ++ out).
      split; [reflexivity|].
      rewrite Hb, collect_concat, writes_app, concat_app, <- !app_assoc.
      reflexivity.
    + destruct (Recorder.appending st); cbn [mbind option_bind]; intros H;
        destruct (IH _ _ H) as (out & Hr & Hb); cbn in Hr, Hb;
        exists out; (split; [exact Hr|]); rewrite Hb; [|reflexivity].
      rewrite concat_app. cbn [concat]. rewrite app_nil_r, <- !app_assoc.
      reflexivity.
    + destruct (Mux.step crc16 cfg now Mux.Stop (Recorder.mux st))
        as [[m o]|]; [|discriminate].
      cbn [mbind option_bind]. intros H.
      destruct (IH _ _ H) as (out & Hr & Hb). cbn in Hr, Hb.
      rewrite Hr. cbn [mbind option_bind]. exists (o ++ out).
      split; [reflexivity|].
      rewrite Hb, collect_concat, writes_app, concat_app, <- !app_assoc.
      reflexivity.
    + intros H. destruct (IH _ _ H) as (out & Hr & Hb). cbn in Hr, Hb.
      exists out. auto.
Qed.

(** X20.  The recorder loses, doubles and reorders nothing: at every moment
    the buffers handed to [fs.appendFile] so far, followed by the bytes
    that wait in [buffer], are the bytes that the multiplexer has
    written, head included. *)
Theorem recorder_keeps_bytes (n : nat) (start : Z)
    (evs : list (Z * Recorder.Event)) (st0 st : Recorder.State) :
  Recorder.recordStreams crc16 n start = Some st0 ->
  Recorder.run crc16 cfg evs st0 = Some st ->
  exists out,
    Mux.session crc16 cfg n start (Recorder.sources evs)
      = Some (Recorder.mux st, out) /\
    concat (Recorder.appended st) ++ Recorder.buffer st
    = concat (writes out).
Proof.
  unfold Recorder.recordStreams, Mux.session. intros H0 H.
  destruct (Mux.multiplexStreams crc16 n start) as [[m head]|];
    [|discriminate].
  cbn [mbind option_bind] in *. injection H0 as <-.
  destruct (record_run evs _ _ H) as (out & Hr & Hb). cbn in Hr, Hb.
  rewrite Hr. cbn [mbind option_bind]. exists (head ++ out).
  split; [reflexivity|].
  rewrite Hb, collect_concat, writes_app, concat_app. reflexivity.
Qed.

Lemma record_stopped evs : forall st st',
  Recorder.appending st = false ->
  Recorder.run crc16 cfg evs st = Some st' ->
  Recorder.appended st' = Recorder.appended st /\
  Recorder.appending st' = false.
Proof.
  induction evs as [|[now ev] evs IH]; intros st st' Ha;
    cbn [Recorder.run].
  - intros [= <-]. auto.
  - destruct ev as [e| | |]; cbn [Recorder.step].
    + destruct (Mux.step _ _ _ _ _) as [[m o]|]; [|discriminate].
      cbn [mbind option_bind]. intros H. apply IH in H; exact H || exact Ha.
    + rewrite Ha. cbn [mbind option_bind]. intros H. apply IH in H; auto.
    + destruct (Mux.step _ _ _ _ _) as [[m o]|]; [|discriminate].
      cbn [mbind option_bind]. intros H. apply IH in H; [exact H|reflexivity].
    + cbn [mbind option_bind]. intros H.
      apply IH in H; [exact H|reflexivity].
Qed.

(** X21.  Once [outStream] has finished or closed, nothing more is handed to
    [fs.appendFile]: the bytes that wait in [buffer] at that moment, and
    all that the multiplexer may still write, never reach the file. *)
Theorem recorder_drops_tail (now : Z) (ev : Recorder.Event)
    (evs : list (Z * Recorder.Event)) (st st' : Recorder.State) :
  ev = Recorder.Finished \/ ev = Recorder.Closed ->
  Recorder.run crc16 cfg ((now, ev) :: evs) st = Some st' ->
  Recorder.appended st' = Recorder.appended st.
Proof.
  intros Hev. cbn [Recorder.run].
  destruct Hev as [-> | ->]; cbn [Recorder.step].
  - destruct (Mux.step _ _ _ _ _) as [[m o]|]; [|discriminate].
    cbn [mbind option_bind]. intros H.
    apply record_stopped in H as [H _]; [exact H|reflexivity].
  - cbn [mbind option_bind]. intros H.
    apply record_stopped in H as [H _]; [exact H|reflexivity].
Qed.

End RecorderFacts.

(** ** From the recorder to the demultiplexer *)

(** X22.  What is recorded plays back, with [useRealOffsets] false and
    for a recording that is not stopped and whose sources hand over data
    only while they are open: when the recorder has handed all that the
    multiplexer wrote to [fs.appendFile], [demultiplexBuffer] on the
    bytes appended calls back once with a stream for every source,
    throws nothing and comes to rest, and at rest every stream has
    carried the bytes that its source handed to the recorder, in
    order. *)
Theorem record_then_demultiplex crc16 parseJSON heard cfg n start evs st0 st
    t0 :
  uint16 crc16 -> chains crc16 ->
  (forall id, 1 <= id <= 254 -> is_Some (parseJSON (stringifyMeta id))) ->
  Recorder.recordStreams crc16 n start = Some st0 ->
  Recorder.run crc16 cfg evs st0 = Some st ->
  Recorder.buffer st = [] ->
  orderly (repeat true n) (Recorder.sources evs) ->
  exists k metadata, forall j now, (k <= j)%nat ->
    exists st',
      Demux.andThen
        (demultiplexBuffer crc16 parseJSON false heard t0
           (concat (Recorder.appended st)))
        (Demux.run crc16 parseJSON false true heard (drain now j))
        = Demux.Returned st' /\
      Demux.quiescent st' /\
      Demux.callbacks st' = [Demux.Ready (seq 0 n) metadata] /\
      forall i, (i < n)%nat ->
        exists log,
          Demux.sinks st' !! i = Some log /\
          carried log = emitted i (Recorder.sources evs).
Proof.
  intros Hu Hc Hj H0 Hrun Hbuf Hord.
  unfold Recorder.recordStreams in H0.
  destruct (Mux.multiplexStreams crc16 n start) as [[m head]|] eqn:Hmux;
    [|discriminate].
  cbn [mbind option_bind] in H0. injection H0 as <-.
  destruct (record_run crc16 cfg evs _ _ Hrun) as (out & Hr & Hb).
  cbn [Recorder.mux Recorder.appended Recorder.buffer concat app] in Hr, Hb.
  rewrite Hbuf, app_nil_r, collect_concat in Hb. cbn [app] in Hb.
  assert (n_fits : (n <= 254)%nat).
  { unfold Mux.multiplexStreams in Hmux.
    destruct (Nat.ltb_spec 254 n); [discriminate|lia]. }
  destruct (multiplexStreams_Some crc16 Hu n start n_fits)
    as (head' & Hmux' & _).
  rewrite Hmux in Hmux'. injection Hmux' as -> _.
  destruct (run_framed crc16 Hu Hc cfg n _ _ _ _ Hr)
    as (fs & Hout & Hk & Hpay);
    [reflexivity|apply repeat_length|cbn; lia|exact Hord|].
  cbn [Mux.crc] in Hk.
  destruct (head_stage crc16 parseJSON n Hu n_fits Hj true heard t0 start _ _
              (concat (writes out)) [] fs Hmux
              ltac:(rewrite app_nil_r; exact Hout) Hk)
    as (st1 & metadata & Hr1 & Ht1 & Hs1 & Hcb1 & Hin1).
  exists (backlog st1), metadata. intros j now Hj'.
  destruct (drain_quiescent crc16 n n_fits _ parseJSON true heard now j st1 Ht1 Hs1 Hj')
    as (st3 & Hr3 & Ht3 & Hs3 & Hq3 & Hcb3 & Hin3).
  exists st3. unfold demultiplexBuffer. rewrite Hb, Hr1.
  cbn [Demux.andThen].
  split; [exact Hr3|]. split; [exact Hq3|]. split; [congruence|].
  intros i Hi.
  destruct (quiescent_delivered crc16 n n_fits _ st3 Ht3 Hs3 Hq3 i Hi)
    as (log & Hl & Hcar).
  exists log. split; [exact Hl|]. rewrite Hcar. apply Hpay.
Qed.

(** *** The recorder at an example *)

Lemma recorder_keeps_bytes_witness :
  exists st0 st out,
    Recorder.recordStreams crc16_ccitt 1 1000 = Some st0 /\
    Recorder.run crc16_ccitt Mux.defaults exampleRecording st0 = Some st /\
    Mux.session crc16_ccitt Mux.defaults 1 1000
      (Recorder.sources exampleRecording) = Some (Recorder.mux st, out) /\
    concat (Recorder.appended st) ++ Recorder.buffer st
    = concat (writes out).
Proof.
  destruct (Recorder.recordStreams crc16_ccitt 1 1000) as [st0|] eqn:E0;
    [|vm_compute in E0; discriminate].
  destruct (Recorder.run crc16_ccitt Mux.defaults exampleRecording st0)
    as [st|] eqn:E1.
  - destruct (recorder_keeps_bytes crc16_ccitt Mux.defaults 1 1000
                exampleRecording st0 st E0 E1) as (out & H1 & H2).
    exists st0, st, out. auto.
  - exfalso. vm_compute in E0. injection E0 as <-.
    vm_compute in E1. discriminate.
Defined.

Lemma recorder_drops_tail_witness :
  exists st0 st,
    Recorder.recordStreams crc16_ccitt 1 1000 = Some st0 /\
    Recorder.run crc16_ccitt Mux.defaults
      [(1005, Recorder.Closed); (1010, Recorder.Source (Mux.Data 0 [x41]));
       (2000, Recorder.Append)] st0 = Some st /\
    Recorder.appended st = Recorder.appended st0.
Proof.
  destruct (Recorder.recordStreams crc16_ccitt 1 1000) as [st0|] eqn:E0;
    [|vm_compute in E0; discriminate].
  destruct (Recorder.run crc16_ccitt Mux.defaults
              [(1005, Recorder.Closed);
               (1010, Recorder.Source (Mux.Data 0 [x41]));
               (2000, Recorder.Append)] st0) as [st|] eqn:E1.
  - exists st0, st. split; [reflexivity|]. split; [exact E1|].
    exact (recorder_drops_tail crc16_ccitt Mux.defaults 1005 Recorder.Closed
             _ st0 st (or_intror eq_refl) E1).
  - exfalso. vm_compute in E0. injection E0 as <-.
    vm_compute in E1. discriminate.
Defined.

Lemma record_then_demultiplex_witness :
  exists st0 st k,
    Recorder.recordStreams crc16_ccitt 1 1000 = Some st0 /\
    Recorder.run crc16_ccitt Mux.defaults exampleRecording st0 = Some st /\
    Recorder.buffer st = [] /\
    forall j now, (k <= j)%nat ->
      exists st' log,
        Demux.andThen
          (demultiplexBuffer crc16_ccitt parseIdObject false attended 3000
             (concat (Recorder.appended st)))
          (Demux.run crc16_ccitt parseIdObject false true attended (drain now j))
          = Demux.Returned st' /\
        Demux.sinks st' !! 0%nat = Some log /\ carried log = [x41].
Proof.
  assert (H : exists st0 st,
            Recorder.recordStreams crc16_ccitt 1 1000 = Some st0 /\
            Recorder.run crc16_ccitt Mux.defaults exampleRecording st0
              = Some st /\
            Recorder.buffer st = []).
  { do 2 eexists. split; [vm_compute; reflexivity|].
    split; vm_compute; reflexivity. }
  destruct H as (st0 & st & H0 & H1 & H2).
  destruct (record_then_demultiplex crc16_ccitt parseIdObject attended
              Mux.defaults
              1 1000 exampleRecording st0 st 3000 crc16_ccitt_uint16
              crc16_ccitt_chains parseIdObject_meta H0 H1 H2
              ltac:(cbn; auto))
    as (k & metadata & H).
  exists st0, st, k. split; [exact H0|]. split; [exact H1|].
  split; [exact H2|]. intros j now Hj.
  destruct (H j now Hj) as (st' & Hr & _ & _ & Hs).
  destruct (Hs 0%nat ltac:(lia)) as (log & Hl & Hc).
  exists st', log. auto.
Defined.

(** ** The demultiplexer on a partial chunk *)

Section Polling.

Variable crc16 : Buffer -> Z -> Z.
Variable parseJSON : Buffer -> option Json.
Variable useRealOffsets : bool.
Variable endable : bool.
Variable heard : nat -> bool.

Lemma immediate_polls now st m :
  Demux.parsedHead st = true ->
  Demux.buffered st <> [] ->
  Parser.streamChunkParser (Demux.buffered st) = None ->
  Demux.unprocessedChunks st = [] ->
  Demux.chunkProcessor st = None ->
  Demux.immediates st = S m ->
  Demux.step crc16 parseJSON useRealOffsets endable heard now Demux.Immediate st
    = Demux.Returned st.
Proof.
  intros Hp Hb Hn Hq Ht Hi. cbn [Demux.step]. rewrite Hi.
  unfold Demux.parseBufferWrapped, Demux.parseBuffer. demux_simpl.
  destruct (Demux.buffered st) as [|b0 b] eqn:Eb; [contradiction|].
  rewrite Hp. cbn [negb length Demux.parseChunks]. demux_simpl.
  rewrite Eb, Hn. cbn [Demux.andThen].
  unfold Demux.processChunks. demux_simpl. rewrite Hq.
  cbn [Demux.andThen]. demux_simpl. f_equal.
  destruct st. cbn in *. subst. reflexivity.
Qed.

(** X23.  While the buffer holds bytes that are not yet a whole chunk, the
    [setImmediate] callback keeps asking: each run finds no chunk, throws
    nothing, changes nothing and schedules the next run, so that the
    event loop does not come to rest before more bytes arrive. *)
Theorem partial_chunk_polls (now : Z) (k : nat) (st : Demux.State) :
  Demux.parsedHead st = true ->
  Demux.buffered st <> [] ->
  Parser.streamChunkParser (Demux.buffered st) = None ->
  Demux.unprocessedChunks st = [] ->
  Demux.chunkProcessor st = None ->
  (0 < Demux.immediates st)%nat ->
  Demux.run crc16 parseJSON useRealOffsets endable heard (drain now k) st
    = Demux.Returned st /\
  ~ Demux.quiescent st.
Proof.
  intros Hp Hb Hn Hq Ht Hi. split.
  - induction k as [|k IH]; cbn [drain Demux.run]; [reflexivity|].
    destruct (Demux.immediates st) as [|m] eqn:Em; [lia|].
    rewrite (immediate_polls now st m Hp Hb Hn Hq Ht Em).
    cbn [Demux.andThen Demux.step]. rewrite Ht. cbn [Demux.andThen].
    exact IH.
  - intros [H _]. lia.
Qed.

End Polling.

Lemma partial_chunk_polls_witness :
  Demux.buffered (exampleDemux [x01; x0a]) <> [] /\
  Parser.streamChunkParser (Demux.buffered (exampleDemux [x01; x0a]))
    = None /\
  Demux.run crc16_ccitt parseIdObject false true attended (drain 5 3)
    (exampleDemux [x01; x0a]) = Demux.Returned (exampleDemux [x01; x0a]).
Proof.
  assert (Hb : Demux.buffered (exampleDemux [x01; x0a]) <> [])
    by (vm_compute; discriminate).
  assert (Hn : Parser.streamChunkParser
                 (Demux.buffered (exampleDemux [x01; x0a])) = None)
    by (vm_compute; reflexivity).
  split; [exact Hb|]. split; [exact Hn|].
  destruct (partial_chunk_polls crc16_ccitt parseIdObject false true attended 5 3
              (exampleDemux [x01; x0a]) ltac:(vm_compute; reflexivity) Hb Hn
              ltac:(vm_compute; reflexivity) ltac:(vm_compute; reflexivity)
              ltac:(vm_compute; lia)) as [H _].
  exact H.
Defined.

(** * The checksums over whole frames *)

(** ** The chunk loop on whole frames *)

Lemma encodeChunks_length crc16 n fs : forall c,
  consistent crc16 n c fs -> (length fs <= length (encodeChunks fs))%nat.
Proof.
  induction fs as [|f fs IH]; intros c Hk; [cbn; lia|].
  destruct Hk as (Hw & _ & Hk'). specialize (IH _ Hk').
  rewrite encodeChunks_cons, length_app. cbn [length].
  pose proof (encodeChunk_length n f Hw) as Hl.
  assert (4 <= Demux.chunkBufSize f).
  { unfold Demux.chunkBufSize.
    destruct f as [off crc|id off len d]; cbn [wfChunk] in Hw; cbn.
    - lia.
    - destruct (Z.eqb_spec id 0); lia. }
  lia.
Qed.

Lemma state_ext (s t : Demux.State) :
  Demux.buffered s = Demux.buffered t ->
  Demux.parsedHead s = Demux.parsedHead t ->
  Demux.head s = Demux.head t ->
  Demux.streamDict s = Demux.streamDict t ->
  Demux.unprocessedChunks s = Demux.unprocessedChunks t ->
  Demux.chunksCrc s = Demux.chunksCrc t ->
  Demux.chunkProcessor s = Demux.chunkProcessor t ->
  Demux.lastChunkSent s = Demux.lastChunkSent t ->
  Demux.sinks s = Demux.sinks t ->
  Demux.input s = Demux.input t ->
  Demux.immediates s = Demux.immediates t ->
  Demux.callbacks s = Demux.callbacks t ->
  s = t.
Proof. destruct s, t. cbn. intros. subst. reflexivity. Qed.

Section FramesRead.

Variable crc16 : Buffer -> Z -> Z.

(** The chunk loop takes the frames at the front of the buffer one a
    turn: each is folded into the running checksum whole, and the data
    chunks go on the queue. *)
Lemma parseChunks_frames fs : forall fuel st tail,
  Demux.buffered st = encodeChunks fs ++ tail ->
  consistent crc16 254 (Demux.chunksCrc st) fs ->
  (length fs <= fuel)%nat ->
  Demux.parseChunks crc16 fuel st =
  Demux.parseChunks crc16 (fuel - length fs)
    (Demux.setBuffered tail
       (Demux.setChunksCrc (foldChunks crc16 (Demux.chunksCrc st) fs)
          (Demux.setUnprocessedChunks
             (Demux.unprocessedChunks st ++ dataChunks fs) st))).
Proof.
  induction fs as [|f fs IH]; intros fuel st tail Hb Hk Hf.
  - cbn [length foldChunks fold_left dataChunks List.filter].
    rewrite Nat.sub_0_r, app_nil_r. f_equal.
    apply state_ext; demux_simpl; try reflexivity. exact Hb.
  - destruct fuel as [|fuel]; [cbn in Hf; lia|].
    destruct Hk as (Hw & Hcrc & Hk').
    assert (Hp : Parser.streamChunkParser (Demux.buffered st) = Some f).
    { rewrite Hb, encodeChunks_cons, <- app_assoc.
      apply (streamChunkParser_encode 254); [lia|exact Hw]. }
    pose proof (chunkBufSize_bounds _ _ Hp) as Hsz.
    pose proof (encodeChunk_length 254 f Hw) as Hlen.
    assert (Hsz' : Z.to_nat (Demux.chunkBufSize f) = length (encodeChunk f))
      by lia.
    assert (Htake : take (Z.to_nat (Demux.chunkBufSize f)) (Demux.buffered st)
                    = encodeChunk f).
    { rewrite Hsz', Hb, encodeChunks_cons, <- app_assoc.
      apply take_app_length. }
    assert (Hdrop : drop (Z.to_nat (Demux.chunkBufSize f)) (Demux.buffered st)
                    = encodeChunks fs ++ tail).
    { rewrite Hsz', Hb, encodeChunks_cons, <- app_assoc.
      apply drop_app_length. }
    cbn [Demux.parseChunks]. rewrite Hp.
    cbn [length Nat.sub].
    destruct (Z.eqb_spec (Parser.streamId f) 0) as [Hz|Hnz]; cbn [andb].
    + rewrite bool_decide_eq_true_2 by (apply Hcrc, Hz). cbn [negb].
      rewrite slice_take by lia. rewrite Htake. demux_simpl.
      rewrite sliceFrom_drop by lia. rewrite Hdrop.
      rewrite (IH fuel _ tail);
        [|reflexivity|exact Hk'|cbn [length] in Hf; lia].
      f_equal. unfold dataChunks. cbn [List.filter].
      destruct (Z.eqb_spec (Parser.streamId f) 0); [|contradiction].
      cbn [negb]. apply state_ext; demux_simpl; reflexivity.
    + demux_simpl.
      rewrite slice_take by lia. rewrite Htake. demux_simpl.
      rewrite sliceFrom_drop by lia. rewrite Hdrop.
      rewrite (IH fuel _ tail);
        [|reflexivity|exact Hk'|cbn [length] in Hf; lia].
      f_equal. unfold dataChunks. cbn [List.filter].
      destruct (Z.eqb_spec (Parser.streamId f) 0); [contradiction|].
      cbn [negb]. apply state_ext; demux_simpl; try reflexivity.
      rewrite <- app_assoc. reflexivity.
Qed.

(** The frames at the front of the buffer, with no whole frame after
    them: the loop returns when it has taken them all. *)
Lemma parseChunks_whole st fs tail :
  Demux.buffered st = encodeChunks fs ++ tail ->
  consistent crc16 254 (Demux.chunksCrc st) fs ->
  Parser.streamChunkParser tail = None ->
  Demux.parseChunks crc16 (length (Demux.buffered st)) st =
  Demux.Returned
    (Demux.setBuffered tail
       (Demux.setChunksCrc (foldChunks crc16 (Demux.chunksCrc st) fs)
          (Demux.setUnprocessedChunks
             (Demux.unprocessedChunks st ++ dataChunks fs) st))).
Proof.
  intros Hb Hk Hn.
  pose proof (encodeChunks_length crc16 254 fs _ Hk) as Hl.
  rewrite (parseChunks_frames fs _ st tail Hb Hk)
    by (rewrite Hb, length_app; lia).
  destruct (_ - _)%nat; cbn [Demux.parseChunks]; [reflexivity|].
  demux_simpl. rewrite Hn. reflexivity.
Qed.


End FramesRead.

(** *** A control frame whose checksum is wrong *)

Section WrongChecksum.

Variable crc16 : Buffer -> Z -> Z.
Variable parseJSON : Buffer -> option Json.
Variable useRealOffsets : bool.
Variable endable : bool.
Variable heard : nat -> bool.



End WrongChecksum.




(** After a head whose checksum is wrong the ['data'] listener stays and
    the head is still awaited: a head that a later ['data'] event brings
    is parsed, its stream is created and [callback] is called again. *)
Lemma head_awaited_after_mismatch :
  exists st' metadata,
    Demux.run crc16_ccitt parseIdObject false true attended
      [(0, Demux.Data exampleBadHead); (1, Demux.Data exampleHead)]
      Demux.initial = Demux.Returned st' /\
    Demux.callbacks st' =
      [Demux.Failed CRCValidationError; Demux.Ready [0%nat] metadata] /\
    Demux.input st' = [End] /\
    Demux.sinks st' = [[]].
Proof.
  eexists. eexists. split; [vm_compute; reflexivity|].
  split; vm_compute; [reflexivity|]. split; reflexivity.
Qed.

(** ** The running checksum of both sides *)

Section DataFrame.

Variable crc16 : Buffer -> Z -> Z.

Lemma parseChunks_data fuel st c :
  Parser.streamChunkParser (Demux.buffered st) = Some c ->
  Parser.streamId c <> 0 ->
  Demux.parseChunks crc16 (S fuel) st =
    Demux.parseChunks crc16 fuel
      (Demux.setBuffered
         (drop (Z.to_nat (Demux.chunkBufSize c)) (Demux.buffered st))
         (Demux.setChunksCrc
            (crc16 (take (Z.to_nat (Demux.chunkBufSize c)) (Demux.buffered st))
               (Demux.chunksCrc st))
            (Demux.setUnprocessedChunks (Demux.unprocessedChunks st ++ [c])
               st))).
Proof.
  intros Hp Hid. pose proof (chunkBufSize_bounds _ _ Hp) as Hsz.
  cbn [Demux.parseChunks]. rewrite Hp.
  destruct (Z.eqb_spec (Parser.streamId c) 0); [contradiction|].
  cbn [andb]. demux_simpl. rewrite slice_take by lia.
  rewrite sliceFrom_drop by lia. reflexivity.
Qed.

End DataFrame.

(** C2, as the code has it.  Neither side ever sets its running checksum
    back.  That of the multiplexer is the checksum of everything written
    after the head, control frames included; a control frame carries the
    running checksum of all that was written before it, none of its own
    bytes, and is then folded in whole.  The demultiplexer compares the
    checksum of a control frame with its running checksum before it folds
    the five bytes of the frame in; it folds every data frame in whole when
    it takes it off the buffer; over frames that are in order, its
    running checksum becomes the checksum of all of them, control frames
    included, continued from where it stood; and it stands at 0 when the
    demultiplexer starts and is left alone while the head is parsed. *)
Theorem checksum_accumulates (crc16 : Buffer -> Z -> Z) (cfg : Mux.Config)
    (n : nat) (start : Z) (evs : list (Z * Mux.Event)) (st : Mux.State)
    (out : list StreamOp) :
  Mux.session crc16 cfg n start evs = Some (st, out) ->
  Mux.crc st = foldCrc crc16 0 (drop 4 (writes out)) /\
  checkpoints crc16 0 (drop 4 (writes out)) /\
  (forall fuel dst off c,
     Parser.streamChunkParser (Demux.buffered dst) = Some (Parser.Crc off c) ->
     Demux.parseChunks crc16 (S fuel) dst =
       if bool_decide (c = Demux.chunksCrc dst)
       then
         Demux.parseChunks crc16 fuel
           (Demux.setBuffered (drop 5 (Demux.buffered dst))
              (Demux.setChunksCrc
                 (crc16 (take 5 (Demux.buffered dst)) (Demux.chunksCrc dst))
                 dst))
       else Demux.Thrown CRCValidationError dst) /\
  (forall fuel dst id off len d,
     Parser.streamChunkParser (Demux.buffered dst)
       = Some (Parser.Stream id off len d) ->
     id <> 0 ->
     Demux.parseChunks crc16 (S fuel) dst =
       Demux.parseChunks crc16 fuel
         (Demux.setBuffered (drop (Z.to_nat (4 + len)) (Demux.buffered dst))
            (Demux.setChunksCrc
               (crc16 (take (Z.to_nat (4 + len)) (Demux.buffered dst))
                  (Demux.chunksCrc dst))
               (Demux.setUnprocessedChunks
                  (Demux.unprocessedChunks dst
                   ++ [Parser.Stream id off len d]) dst)))) /\
  (forall dst fs tail,
     Demux.buffered dst = encodeChunks fs ++ tail ->
     consistent crc16 254 (Demux.chunksCrc dst) fs ->
     Parser.streamChunkParser tail = None ->
     exists dst',
       Demux.parseChunks crc16 (length (Demux.buffered dst)) dst
         = Demux.Returned dst' /\
       Demux.chunksCrc dst' = foldChunks crc16 (Demux.chunksCrc dst) fs /\
       Demux.buffered dst' = tail /\
       Demux.unprocessedChunks dst'
         = Demux.unprocessedChunks dst ++ dataChunks fs) /\
  Demux.chunksCrc Demux.initial = 0 /\
  (forall parseJSON dst,
     Demux.chunksCrc (Demux.stateOf (Demux.parseHead crc16 parseJSON dst))
     = Demux.chunksCrc dst).
Proof.
  intros H. unfold Mux.session in H.
  destruct (Mux.multiplexStreams crc16 n start) as [[st0 head]|] eqn:E0;
    [|discriminate].
  cbn [mbind option_bind] in H.
  destruct (Mux.run crc16 cfg evs st0) as [[st1 out1]|] eqn:E1;
    [|discriminate].
  cbn [mbind option_bind] in H. injection H as <- <-.
  apply multiplexStreams_inv in E0
    as (Hc0 & _ & version & len & body & check & -> & _).
  apply run_keeps in E1 as (Hc & Hk & _). rewrite Hc0 in Hc, Hk.
  cbn [app writes drop]. split; [exact Hc|]. split; [exact Hk|].
  split; [intros fuel dst off c; apply parseChunks_control|].
  split.
  { intros fuel dst id off len' d Hp Hid.
    rewrite (parseChunks_data crc16 fuel dst _ Hp Hid).
    unfold Demux.chunkBufSize. cbn [Parser.streamId Parser.dataLength].
    destruct (Z.eqb_spec id 0); [contradiction|].
    replace (3 + (len' + 1)) with (4 + len') by lia. reflexivity. }
  split; [|split; [reflexivity|]].
  - intros dst fs tail Hb Hk' Hn. eexists.
    split; [exact (parseChunks_whole crc16 dst fs tail Hb Hk' Hn)|].
    demux_simpl. auto.
  - intros parseJSON dst. unfold Demux.parseHead.
    destruct (Parser.headParser (Demux.buffered dst)) as [h|];
      [|reflexivity].
    demux_simpl. destruct (negb (Parser.crc h =? _)); [reflexivity|].
    destruct (Mux.mapThrow parseJSON _); reflexivity.
Qed.

Lemma checksum_accumulates_witness :
  exists st out dst',
    Mux.session crc16_ccitt Mux.defaults 1 1000 exampleEvents =
      Some (st, out) /\
    Mux.crc st = foldCrc crc16_ccitt 0 (drop 4 (writes out)) /\
    checkpoints crc16_ccitt 0 (drop 4 (writes out)) /\
    Demux.parseChunks crc16_ccitt 10
      (exampleDemux (concat (drop 4 (writes out)))) = Demux.Returned dst' /\
    Demux.chunksCrc dst' = Mux.crc st /\
    Demux.chunksCrc dst' <> 0.
Proof.
  destruct (Mux.session crc16_ccitt Mux.defaults 1 1000 exampleEvents)
    as [[st out]|] eqn:E; [|vm_compute in E; discriminate].
  destruct (checksum_accumulates crc16_ccitt Mux.defaults 1 1000
              exampleEvents st out E) as (H1 & H2 & _ & _ & H5 & _).
  destruct (H5 (exampleDemux (concat (drop 4 (writes out))))
              [Parser.Stream 1 10 1 [x41]; Parser.Crc 10 43310] [])
    as (dst' & Hr & Hc & _).
  - vm_compute in E. injection E as <- <-. vm_compute. reflexivity.
  - vm_compute in E. injection E as <- <-. cbn.
    repeat split; try lia; try discriminate.
  - reflexivity.
  - exists st, out, dst'. split; [reflexivity|]. split; [exact H1|].
    split; [exact H2|].
    assert (Hlen : length (Demux.buffered
                             (exampleDemux (concat (drop 4 (writes out)))))
                   = 10%nat)
      by (vm_compute in E; injection E as <- <-; vm_compute; reflexivity).
    rewrite Hlen in Hr. split; [exact Hr|].
    rewrite Hc. vm_compute in E. injection E as <- <-.
    split; vm_compute; [reflexivity|discriminate].
Defined.
